(** * ASCII CAPTCHA generator: a shallow embedding of [captcha.py]

    The development follows the source file top to bottom: the configuration
    records and [load_config], the code generator, the font resolver, the
    glyph rasteriser with its luminance-to-character mapping, the distortion
    renderer [make_image] and the entry point [generate_image_from_cfg].

    Python values are modelled as follows.
    - [int] is [Z]; [//] is [Z.div] (both round towards minus infinity).
    - [float] is the kernel's binary64 [float]; conversions from and to [int]
      go through [SpecFloat] and raise as Python's do.
    - [str] is [string]; indexing accepts negative indices and raises
      [IndexError] outside [-len, len).
    - a raised exception is the [Raise] case of [result].
    - the pseudo-random generators ([random.Random] instances and the
      module-level one) are explicit state, threaded by the monad [M].
    - Pillow (images, fonts, drawing) and the core of the random generator
      are libraries outside the repository: they are interfaces ([PIL],
      [RandomCore]) whose documented behaviour is stated as laws
      ([PILLaws], [RandomLaws]). *)

From Stdlib Require Import ZArith List String Ascii Bool Lia Floats.
Import ListNotations.
Local Open Scope string_scope.
Local Open Scope Z_scope.

Set Warnings "-inexact-float,-register-all".

(** ** Exceptions and results *)

Inductive PyExc : Set :=
| ValueError
| IndexError
| KeyError
| TypeError
| AttributeError
| ZeroDivisionError
| OverflowError
| OSError.

Inductive result (A : Type) : Type :=
| Ok (a : A)
| Raise (e : PyExc).

Arguments Ok {A} a.
Arguments Raise {A} e.

Definition is_ok {A} (r : result A) : bool :=
  match r with Ok _ => true | Raise _ => false end.

(** Sequencing: an exception ends the computation. *)
Definition result_bind {A B} (r : result A) (k : A -> result B) : result B :=
  match r with
  | Ok a => k a
  | Raise e => Raise e
  end.

Notation "'let?' x ':=' c 'in' k" := (result_bind c (fun x => k))
  (at level 10, x pattern, c at level 100, k at level 200).

(** ** Python strings *)

Definition py_len (s : string) : Z := Z.of_nat (String.length s).

(** [s[i]]: negative indices count from the end. *)
Definition py_getitem (s : string) (i : Z) : result ascii :=
  let n := py_len s in
  let j := if i <? 0 then i + n else i in
  if (0 <=? j) && (j <? n) then
    match String.get (Z.to_nat j) s with
    | Some c => Ok c
    | None => Raise IndexError
    end
  else Raise IndexError.

(** [s.replace(" ", "")] *)
Fixpoint remove_spaces (s : string) : string :=
  match s with
  | EmptyString => EmptyString
  | String c s' =>
      if Ascii.eqb c " "%char then remove_spaces s' else String c (remove_spaces s')
  end.

(** [not s] *)
Definition str_falsy (s : string) : bool :=
  match s with EmptyString => true | String _ _ => false end.

(** ** Python floats *)

(** [float(n)] for an [int] [n], also the implicit conversion in [n * x]:
    round to nearest even, [OverflowError] when out of range. *)
Definition float_of_int (n : Z) : result float :=
  let f := SF2Prim (binary_normalize prec emax n 0 false) in
  if PrimFloat.is_infinity f then Raise OverflowError else Ok f.

(** [int(x)] for a [float] [x]: truncation towards zero. *)
Definition int_of_float (x : float) : result Z :=
  match Prim2SF x with
  | S754_zero _ => Ok 0
  | S754_infinity _ => Raise OverflowError
  | S754_nan => Raise ValueError
  | S754_finite s m e =>
      let v := if 0 <=? e then Zpos m * 2 ^ e else Zpos m / 2 ^ (- e) in
      Ok (if s then - v else v)
  end.

(** [n * x] with [n : int] and [x : float]. *)
Definition int_times_float (n : Z) (x : float) : result float :=
  match float_of_int n with
  | Ok f => Ok (PrimFloat.mul f x)
  | Raise e => Raise e
  end.

(** [x > 0] *)
Definition float_pos (x : float) : bool := PrimFloat.ltb 0%float x.

(** ** JSON documents, as [json.load] returns them *)

Inductive json : Type :=
| JNull
| JBool (b : bool)
| JInt (n : Z)
| JFloat (x : float)
| JStr (s : string)
| JList (l : list json)
| JDict (d : list (string * json)).

(** A Python [dict] with string keys, in insertion order. *)
Definition dict := list (string * json).

(** [d.get(k)] *)
Fixpoint dict_get (k : string) (d : dict) : option json :=
  match d with
  | [] => None
  | (k', v) :: d' => if String.eqb k k' then Some v else dict_get k d'
  end.

(** [d[k] = v]: an existing key keeps its position, a new one goes last. *)
Fixpoint dict_set (k : string) (v : json) (d : dict) : dict :=
  match d with
  | [] => [(k, v)]
  | (k', v') :: d' =>
      if String.eqb k k' then (k', v) :: d' else (k', v') :: dict_set k v d'
  end.

(** [d[k]] *)
Definition dict_item (k : string) (d : dict) : result json :=
  match dict_get k d with
  | Some v => Ok v
  | None => Raise KeyError
  end.

(** [d.get(k, default)] *)
Definition dict_get_default (k : string) (default : json) (d : dict) : json :=
  match dict_get k d with
  | Some v => v
  | None => default
  end.

(** Truth value of a JSON value ([bool(v)], [v or ...], [if v]). *)
Definition truthy (v : json) : bool :=
  match v with
  | JNull => false
  | JBool b => b
  | JInt n => negb (n =? 0)
  | JFloat x => negb (PrimFloat.eqb x 0%float)
  | JStr s => negb (str_falsy s)
  | JList l => match l with [] => false | _ => true end
  | JDict d => match d with [] => false | _ => true end
  end.

(** ** The builtins [int(str)] and [float(str)]

    The two literal parsers are part of the Python runtime; [None] stands for
    the [ValueError] they raise on a malformed literal. *)
Class Builtins : Type := {
  int_of_str : string -> option Z;
  float_of_str : string -> option float
}.

Section Conversions.
Context {B : Builtins}.

(** [int(v)] *)
Definition py_int (v : json) : result Z :=
  match v with
  | JInt n => Ok n
  | JBool b => Ok (if b then 1 else 0)
  | JFloat x => int_of_float x
  | JStr s => match int_of_str s with Some n => Ok n | None => Raise ValueError end
  | JNull | JList _ | JDict _ => Raise TypeError
  end.

(** [float(v)] *)
Definition py_float (v : json) : result float :=
  match v with
  | JInt n => float_of_int n
  | JBool b => Ok (if b then 1%float else 0%float)
  | JFloat x => Ok x
  | JStr s => match float_of_str s with Some x => Ok x | None => Raise ValueError end
  | JNull | JList _ | JDict _ => Raise TypeError
  end.
End Conversions.

(** ** Configuration records *)

Record TextToAsciiParams : Type := {
  tta_font_path : option string;
  tta_font_size : Z;
  tta_scale : Z
}.

Record RenderParams : Type := {
  font_path : option string;
  font_size : Z;
  spacing : Z;
  noise_lines : Z;
  blur_shapes : Z;
  apply_blur : bool;
  extra_noise_shapes : Z;
  pixel_noise_density : float;
  jitter : Z;
  gaussian_blur_radius : float;
  shape_blur_radius : float
}.

Record AppConfig : Type := {
  output : string;
  print_code : bool;
  data_url_output : option string;
  code_length : Z;
  random_seed : option Z;
  fixed_code : option string;
  ascii_chars : string;
  text_to_ascii : TextToAsciiParams;
  render : RenderParams
}.

(** The module constant [ASCII_CHARS], dark to light. *)
Definition ASCII_CHARS : string := "$@B%8&WM# ".

(** [TextToAsciiParams()] and [RenderParams()] *)
Definition default_TextToAsciiParams : TextToAsciiParams :=
  {| tta_font_path := None; tta_font_size := 40; tta_scale := 2 |}.

Definition default_RenderParams : RenderParams :=
  {| font_path := None; font_size := 9; spacing := 1; noise_lines := 24;
     blur_shapes := 40; apply_blur := true; extra_noise_shapes := 30;
     pixel_noise_density := 0.04%float; jitter := 1;
     gaussian_blur_radius := 1.1%float; shape_blur_radius := 2.0%float |}.

(** ** [_deep_update] *)

(** The recursion of [_deep_update] on a dictionary [extra]: [loop] is the
    [for k, v in extra.items()] loop and [out] the copy of [base] being
    updated. A value that is a dictionary is merged into a dictionary already
    present under the same key; any other value replaces what was there. *)
Fixpoint deep_update_dict (base : dict) (extra : json) {struct extra} : dict :=
  match extra with
  | JDict items =>
      (fix loop (out : dict) (items : list (string * json)) {struct items} : dict :=
         match items with
         | [] => out
         | (k, v) :: rest =>
             let out' :=
               match v, dict_get k out with
               | JDict _, Some (JDict sub) => dict_set k (JDict (deep_update_dict sub v)) out
               | _, _ => dict_set k v out
               end in
             loop out' rest
         end) base items
  | _ => base
  end.

(** [_deep_update(base, extra)]: [(extra or {}).items()] takes a falsy
    [extra] for the empty dictionary and fails on a truthy value that is not
    a dictionary. *)
Definition _deep_update (base : dict) (extra : json) : result dict :=
  match extra with
  | JDict _ => Ok (deep_update_dict base extra)
  | _ => if truthy extra then Raise AttributeError else Ok base
  end.

(** ** [load_config] *)

(** The [defaults] dictionary of [load_config]. *)
Definition defaults : dict :=
  [ ("output", JStr "captcha.png");
    ("print_code", JBool false);
    ("data_url_output", JNull);
    ("code_length", JInt 6);
    ("random_seed", JNull);
    ("fixed_code", JNull);
    ("ascii_chars", JStr "$@B%8&WM# ");
    ("text_to_ascii",
       JDict [ ("font_path", JNull); ("font_size", JInt 40); ("scale", JInt 2) ]);
    ("render",
       JDict [ ("font_path", JNull); ("font_size", JInt 9); ("spacing", JInt 1);
               ("noise_lines", JInt 24); ("blur_shapes", JInt 40);
               ("apply_blur", JBool true); ("extra_noise_shapes", JInt 30);
               ("pixel_noise_density", JFloat 0.04%float); ("jitter", JInt 1);
               ("gaussian_blur_radius", JFloat 1.1%float);
               ("shape_blur_radius", JFloat 2.0%float) ]) ].

(** [load_config] stores several values as [json.load] delivered them,
    whatever their type. The records above follow the annotations of the
    dataclasses, so the model reads such a value through one of the views
    below and answers [TypeError] when the document puts a value of another
    type there (the source would carry on with an ill-typed record). On
    documents that respect the annotations the views never fail. *)
Definition as_str (v : json) : result string :=
  match v with JStr s => Ok s | _ => Raise TypeError end.

Definition as_opt_str (v : json) : result (option string) :=
  match v with JNull => Ok None | JStr s => Ok (Some s) | _ => Raise TypeError end.

Definition as_bool (v : json) : result bool :=
  match v with JBool b => Ok b | _ => Raise TypeError end.

Definition as_opt_int (v : json) : result (option Z) :=
  match v with
  | JNull => Ok None
  | JInt n => Ok (Some n)
  | JBool b => Ok (Some (if b then 1 else 0))
  | _ => Raise TypeError
  end.

(** [v.get] on something that is not a dictionary raises [AttributeError]. *)
Definition as_dict (v : json) : result dict :=
  match v with JDict d => Ok d | _ => Raise AttributeError end.

Section LoadConfig.
Context {B : Builtins}.

(** [load_config], from the parsed document on. Opening and parsing the
    file is the caller's environment; the keyword arguments are evaluated
    in the order they are written. *)
Definition load_config (user : json) : result AppConfig :=
  let? merged := _deep_update defaults user in
  let tta := dict_get_default "text_to_ascii" (JDict []) merged in
  let rp := dict_get_default "render" (JDict []) merged in
  let? o := dict_item "output" merged in
  let? o := as_str o in
  let? pc := dict_item "print_code" merged in
  let? pc := as_bool pc in
  let? duo := as_opt_str (dict_get_default "data_url_output" JNull merged) in
  let? cl := dict_item "code_length" merged in
  let? cl := py_int cl in
  let? seed := as_opt_int (dict_get_default "random_seed" JNull merged) in
  let? fc := as_opt_str (dict_get_default "fixed_code" JNull merged) in
  let? ac := dict_item "ascii_chars" merged in
  let? ac := as_str ac in
  let? tta := as_dict tta in
  let? tfp := as_opt_str (dict_get_default "font_path" JNull tta) in
  let? tfs := py_int (dict_get_default "font_size" (JInt 40) tta) in
  let? tsc := py_int (dict_get_default "scale" (JInt 2) tta) in
  let? rp := as_dict rp in
  let? rfp := as_opt_str (dict_get_default "font_path" JNull rp) in
  let? rfs := py_int (dict_get_default "font_size" (JInt 9) rp) in
  let? rsp := py_int (dict_get_default "spacing" (JInt 1) rp) in
  let? rnl := py_int (dict_get_default "noise_lines" (JInt 24) rp) in
  let? rbs := py_int (dict_get_default "blur_shapes" (JInt 40) rp) in
  let rab := truthy (dict_get_default "apply_blur" (JBool true) rp) in
  let? rens := py_int (dict_get_default "extra_noise_shapes" (JInt 30) rp) in
  let? rpnd := py_float (dict_get_default "pixel_noise_density" (JFloat 0.04%float) rp) in
  let? rj := py_int (dict_get_default "jitter" (JInt 1) rp) in
  let? rgbr := py_float (dict_get_default "gaussian_blur_radius" (JFloat 1.1%float) rp) in
  let? rsbr := py_float (dict_get_default "shape_blur_radius" (JFloat 2.0%float) rp) in
  Ok {| output := o; print_code := pc; data_url_output := duo;
        code_length := cl; random_seed := seed; fixed_code := fc;
        ascii_chars := ac;
        text_to_ascii :=
          {| tta_font_path := tfp; tta_font_size := tfs; tta_scale := tsc |};
        render :=
          {| font_path := rfp; font_size := rfs; spacing := rsp;
             noise_lines := rnl; blur_shapes := rbs; apply_blur := rab;
             extra_noise_shapes := rens; pixel_noise_density := rpnd;
             jitter := rj; gaussian_blur_radius := rgbr;
             shape_blur_radius := rsbr |} |}.
End LoadConfig.

(** ** The random generator

    [random.Random] builds every method the program calls on two primitives
    of the generator core: [random()], which returns the double [k / 2^53]
    for a 53-bit integer [k], and [_randbelow(n)], an integer below [n]. The
    interface carries [k] itself, so that the arithmetic on the result stays
    exact. *)
Class RandomCore : Type := {
  rng_state : Type;
  (** [random.Random(seed)] *)
  rng_seed : Z -> rng_state;
  (** [random()], as the numerator of [k / 2^53] *)
  rng_random53 : rng_state -> Z * rng_state;
  (** [_randbelow(n)], called with [n > 0] only *)
  rng_randbelow : Z -> rng_state -> Z * rng_state
}.

Class RandomLaws (R : RandomCore) : Prop := {
  random53_range : forall s, 0 <= fst (rng_random53 s) < 2 ^ 53;
  randbelow_range : forall n s, 0 < n -> 0 <= fst (rng_randbelow n s) < n
}.

(** Rounding of a non-negative integer to 53 significant bits, to nearest,
    ties to even: the value of the double closest to [x]. *)
Definition round53 (x : Z) : Z :=
  let e := Z.log2 x - 52 in
  if e <=? 0 then x
  else
    let q := x / 2 ^ e in
    let r := x mod 2 ^ e in
    let half := 2 ^ (e - 1) in
    let q' := if (half <? r) || ((r =? half) && Z.odd q) then q + 1 else q in
    q' * 2 ^ e.

(** [floor(random() * n)] where [random()] is [k / 2^53] and [n] is
    [len(population) + 0.0]: the product of the two doubles is the exact
    product rounded once. *)
Definition floor_random_times (k n : Z) : Z := round53 (k * round53 n) / 2 ^ 53.

(** ** Pillow *)

Inductive Mode : Set := Mode_L | Mode_RGB | Mode_RGBA.

(** Colours as the source writes them: an integer, a name, a 3-tuple or a
    4-tuple. *)
Inductive Color : Set :=
| CInt (v : Z)
| CName (name : string)
| CRGB (r g b : Z)
| CRGBA (r g b a : Z).

Definition Box : Set := (Z * Z * Z * Z)%type.

(** The calls made on an [ImageDraw.Draw] object. *)
Inductive DrawCmd (Font : Type) : Type :=
| text (xy : Z * Z) (ch : ascii) (font : Font) (fill : Color)
| line (p1 p2 : Z * Z) (fill : Color) (width : Z)
| ellipse (box : Box) (fill : Color)
| rectangle (box : Box) (fill : Color)
| arc (box : Box) (start stop : Z) (fill : Color)
| chord (box : Box) (start stop : Z) (fill : Color)
| polygon (pts : list (Z * Z)) (fill : Color).

Arguments text {Font}.
Arguments line {Font}.
Arguments ellipse {Font}.
Arguments rectangle {Font}.
Arguments arc {Font}.
Arguments chord {Font}.
Arguments polygon {Font}.

(** The part of Pillow the program uses. An in-place update of an image is a
    function from the image before to the image after. [Image_new] is the
    allocation for sizes that are not negative, [truetype] raises when the
    file is missing or is no font, [load_default] is the built-in font. *)
Class PIL : Type := {
  Image : Type;
  Font : Type;
  Image_new : Mode -> Z -> Z -> Color -> Image;
  im_width : Image -> Z;
  im_height : Image -> Z;
  im_resize : Z * Z -> Image -> Image;
  im_getdata : Image -> list Z;
  im_draw : DrawCmd Font -> Image -> Image;
  GaussianBlur : float -> Image -> Image;
  alpha_composite : Image -> Image -> Image;
  putpixel : Z * Z -> Color -> Image -> Image;
  im_convert : Mode -> Image -> Image;
  truetype : string -> Z -> result Font;
  load_default : Font
}.

Definition im_size `{PIL} (im : Image) : Z * Z := (im_width im, im_height im).

(** What Pillow documents about sizes and about the pixels of an image. *)
Class PILLaws (P : PIL) : Prop := {
  size_new : forall m w h c, 0 <= w -> 0 <= h -> im_size (Image_new m w h c) = (w, h);
  size_resize : forall w h im, 1 <= w -> 1 <= h -> im_size (im_resize (w, h) im) = (w, h);
  size_draw : forall c im, im_size (im_draw c im) = im_size im;
  size_blur : forall r im, im_size (GaussianBlur r im) = im_size im;
  size_composite : forall a b, im_size b = im_size a -> im_size (alpha_composite a b) = im_size a;
  size_putpixel : forall xy c im, im_size (putpixel xy c im) = im_size im;
  size_convert : forall m im, im_size (im_convert m im) = im_size im;
  getdata_length : forall im, 0 <= im_width im -> 0 <= im_height im ->
    Z.of_nat (List.length (im_getdata im)) = im_width im * im_height im;
  getdata_range : forall im, Forall (fun p => 0 <= p <= 255) (im_getdata im)
}.

(** ** The generators in scope and the monad of the program

    A function of the source receives its generator as the keyword argument
    [rng]; [rng = rng or random] then picks the module-level generator when
    none was passed. [rng_arg] is the state of the instance that was passed,
    if any, and [rng_module] the state of the module-level generator. *)
Section Program.
Context {P : PIL} {R : RandomCore}.

Record Rngs : Type := {
  rng_arg : option rng_state;
  rng_module : rng_state
}.

Definition M (A : Type) : Type := Rngs -> result (A * Rngs).

Definition ret {A} (a : A) : M A := fun st => Ok (a, st).

Definition bind {A B} (c : M A) (k : A -> M B) : M B :=
  fun st =>
    match c st with
    | Ok (a, st') => k a st'
    | Raise e => Raise e
    end.

Definition raise {A} (e : PyExc) : M A := fun _ => Raise e.

Definition lift {A} (r : result A) : M A :=
  fun st => match r with Ok a => Ok (a, st) | Raise e => Raise e end.

(** A call of a primitive on the generator [rng] stands for. *)
Definition on_rng {A} (f : rng_state -> A * rng_state) : M A :=
  fun st =>
    match rng_arg st with
    | Some s =>
        let (a, s') := f s in
        Ok (a, {| rng_arg := Some s'; rng_module := rng_module st |})
    | None =>
        let (a, g') := f (rng_module st) in
        Ok (a, {| rng_arg := None; rng_module := g' |})
    end.
End Program.

Notation "x <- c ;; k" := (bind c (fun x => k))
  (at level 61, c at next level, right associativity).
Notation "' pat <- c ;; k" := (bind c (fun x => match x with pat => k end))
  (at level 61, pat pattern, c at next level, right associativity).

Section Library.
Context {P : PIL} {R : RandomCore}.

(** *** Methods of [random.Random] *)

(** [rng.random()], as the numerator [k] of the double [k / 2^53]. *)
Definition random : M Z := on_rng rng_random53.

(** [rng.randint(a, b)], that is [randrange(a, b + 1)]. *)
Definition randint (a b : Z) : M Z :=
  let width := b + 1 - a in
  if 0 <? width then r <- on_rng (rng_randbelow width) ;; ret (a + r)
  else raise ValueError.

(** [seq[i]] on a list, for [i >= 0]. *)
Definition list_getitem {A} (l : list A) (i : Z) : result A :=
  if i <? 0 then Raise IndexError
  else match nth_error l (Z.to_nat i) with
       | Some a => Ok a
       | None => Raise IndexError
       end.

(** [rng.choice(seq)] *)
Definition choice {A} (seq : list A) : M A :=
  match seq with
  | [] => raise IndexError
  | _ => i <- on_rng (rng_randbelow (Z.of_nat (List.length seq))) ;;
         lift (list_getitem seq i)
  end.

(** [rng.choices(population, k=k)] without weights:
    [[population[floor(random() * n)] for i in repeat(None, k)]]. *)
Fixpoint choices_loop {A} (population : list A) (k : nat) : M (list A) :=
  match k with
  | O => ret []
  | S k' =>
      u <- random ;;
      x <- lift (list_getitem population
                   (floor_random_times u (Z.of_nat (List.length population)))) ;;
      xs <- choices_loop population k' ;;
      ret (x :: xs)
  end.

Definition choices {A} (population : list A) (k : Z) : M (list A) :=
  choices_loop population (Z.to_nat k).

(** *** Loops *)

(** [for _ in range(n): body], the loop carrying the value [a]. *)
Fixpoint repeat_loop {A} (n : nat) (body : A -> M A) (a : A) : M A :=
  match n with
  | O => ret a
  | S n' => a' <- body a ;; repeat_loop n' body a'
  end.

Definition for_range {A} (n : Z) (body : A -> M A) (a : A) : M A :=
  repeat_loop (Z.to_nat n) body a.

(** [for x in xs: body] *)
Fixpoint for_each {A X} (xs : list X) (body : X -> A -> M A) (a : A) : M A :=
  match xs with
  | [] => ret a
  | x :: xs' => a' <- body x a ;; for_each xs' body a'
  end.

(** [enumerate(xs)] *)
Fixpoint enumerate_from {X} (i : Z) (xs : list X) : list (Z * X) :=
  match xs with
  | [] => []
  | x :: xs' => (i, x) :: enumerate_from (i + 1) xs'
  end.

Definition enumerate {X} (xs : list X) : list (Z * X) := enumerate_from 0 xs.

(** [Image.new(mode, (w, h), color)] *)
Definition Image_new_checked (m : Mode) (w h : Z) (c : Color) : result Image :=
  if (w <? 0) || (h <? 0) then Raise ValueError else Ok (Image_new m w h c).
End Library.

(** ** The program *)

Section Captcha.
Context {P : PIL} {R : RandomCore}.

(** *** [generate_code] *)

(** [string.ascii_uppercase + string.digits] *)
Definition alphabet : string := "ABCDEFGHIJKLMNOPQRSTUVWXYZ" ++ "0123456789".

Definition generate_code (length : Z) : M string :=
  cs <- choices (list_ascii_of_string alphabet) length ;;
  ret (string_of_list_ascii cs).

(** *** [_load_font] *)

Definition font_candidates : list string :=
  [ "consola.ttf";
    "DejaVuSansMono.ttf";
    "/usr/share/fonts/truetype/dejavu/DejaVuSansMono.ttf";
    "Menlo.ttf";
    "Courier New.ttf" ].

(** The [for path in candidates] loop: an empty path is skipped, a font
    that loads is returned, an exception of [truetype] is swallowed. *)
Fixpoint load_first (candidates : list string) (size : Z) : result Font :=
  match candidates with
  | [] => Ok load_default
  | path :: rest =>
      if str_falsy path then load_first rest size
      else match truetype path size with
           | Ok f => Ok f
           | Raise _ => load_first rest size
           end
  end.

(** [[preferred] if preferred else []] *)
Definition preferred_candidates (preferred : option string) : list string :=
  match preferred with
  | Some p => if str_falsy p then [] else [p]
  | None => []
  end.

Definition _load_font (preferred : option string) (size : Z) : result Font :=
  load_first (preferred_candidates preferred ++ font_candidates) size.

(** *** [_text_to_ascii_lines] *)

(** [ascii_chars[p * (len(ascii_chars) - 1) // 255]] *)
Definition palette_index (ascii_chars : string) (p : Z) : Z :=
  p * (py_len ascii_chars - 1) / 255.

Definition map_pixel (ascii_chars : string) (p : Z) : result ascii :=
  py_getitem ascii_chars (palette_index ascii_chars p).

(** ["".join(ascii_chars[...] for p in pixels)] *)
Fixpoint map_pixels (ascii_chars : string) (pixels : list Z) : result string :=
  match pixels with
  | [] => Ok EmptyString
  | p :: rest =>
      let? c := map_pixel ascii_chars p in
      let? s := map_pixels ascii_chars rest in
      Ok (String c s)
  end.

(** [range(0, stop, step)] *)
Definition range_step (stop step : Z) : result (list Z) :=
  if step =? 0 then Raise ValueError
  else if step <? 0 then Ok []
  else Ok (map (fun k => Z.of_nat k * step)
             (seq 0 (Z.to_nat ((stop + step - 1) / step)))).

(** [s[i : i + w]] for [i >= 0] and [w >= 0] *)
Definition slice (s : string) (i w : Z) : string :=
  substring (Z.to_nat i) (Z.to_nat w) s.

(** One iteration of the loop over the characters of the code: the glyph
    block of [ch]. *)
Definition glyph_block (font : Font) (font_size scale : Z) (ascii_chars : string)
    (ch : ascii) : result (list string) :=
  let? img := Image_new_checked Mode_L (font_size * 2) (font_size * 2) (CInt 255) in
  let img := im_draw (text (10, 10) ch font (CInt 0)) img in
  if scale =? 0 then Raise ZeroDivisionError
  else
    let img := im_resize (Z.max 1 (im_width img / scale),
                          Z.max 1 (im_height img / scale)) img in
    let pixels := im_getdata img in
    let? ascii_str := map_pixels ascii_chars pixels in
    let? starts := range_step (py_len ascii_str) (im_width img) in
    Ok (map (fun i => slice ascii_str i (im_width img)) starts).

(** [blocks.append(lines)] for every character, in order. *)
Fixpoint glyph_blocks (font : Font) (font_size scale : Z) (ascii_chars : string)
    (chars : list ascii) : result (list (list string)) :=
  match chars with
  | [] => Ok []
  | ch :: rest =>
      let? b := glyph_block font font_size scale ascii_chars ch in
      let? bs := glyph_blocks font font_size scale ascii_chars rest in
      Ok (b :: bs)
  end.

(** [[b[r] for b in blocks]] *)
Fixpoint row_of_blocks (blocks : list (list string)) (r : Z) : result (list string) :=
  match blocks with
  | [] => Ok []
  | b :: rest =>
      let? x := list_getitem b r in
      let? xs := row_of_blocks rest r in
      Ok (x :: xs)
  end.

(** The loop [for r in range(len(blocks[0]))] building [combined]. *)
Fixpoint combine_rows (blocks : list (list string)) (rows : list Z) : result (list string) :=
  match rows with
  | [] => Ok []
  | r :: rest =>
      let? row := row_of_blocks blocks r in
      let? others := combine_rows blocks rest in
      Ok (String.concat "   " row :: others)
  end.

Definition _text_to_ascii_lines (text : string) (font_path : option string)
    (font_size scale : Z) (ascii_chars : string) : result (list string) :=
  if str_falsy text then Ok []
  else
    let? font := _load_font font_path font_size in
    let? blocks := glyph_blocks font font_size scale ascii_chars
                     (list_ascii_of_string (remove_spaces text)) in
    let? first := list_getitem blocks 0 in
    combine_rows blocks (map Z.of_nat (seq 0 (List.length first))).
(** *** [make_image] *)

(** [max(len(line) for line in ascii_lines)], for a list that is not empty *)
Definition max_len (ascii_lines : list string) : Z :=
  fold_right (fun l m => Z.max (py_len l) m) 0 ascii_lines.

(** The text layer: every character at its cell, moved by the jitter. *)
Definition draw_text_layer (ascii_lines : list string) (params : RenderParams)
    (font : Font) (char_w char_h : Z) (base : Image) : M Image :=
  for_each (enumerate ascii_lines)
    (fun '(r, l) base =>
       for_each (enumerate (list_ascii_of_string l))
         (fun '(c, ch) base =>
            jx <- randint (- jitter params) (jitter params) ;;
            let x := c * char_w + jx in
            jy <- randint (- jitter params) (jitter params) ;;
            let y := r * char_h + jy in
            ret (im_draw (text (x, y) ch font (CRGBA 0 0 0 255)) base))
         base)
    base.

(** One random gray line. *)
Definition noise_line (width height : Z) (base : Image) : M Image :=
  x1 <- randint 0 width ;;
  y1 <- randint 0 height ;;
  x2 <- randint 0 width ;;
  y2 <- randint 0 height ;;
  g <- randint 100 180 ;;
  t <- randint 1 2 ;;
  ret (im_draw (line (x1, y1) (x2, y2) (CRGBA g g g 255) t) base).

(** One translucent ellipse or rectangle on the overlay. *)
Definition blur_shape (width height : Z) (shape : Image) : M Image :=
  x1 <- randint 0 (Z.max 0 (width - 30)) ;;
  y1 <- randint 0 (Z.max 0 (height - 30)) ;;
  dx <- randint 15 50 ;;
  let x2 := x1 + dx in
  dy <- randint 15 50 ;;
  let y2 := y1 + dy in
  g <- randint 90 160 ;;
  a <- randint 60 120 ;;
  u <- random ;;
  if u <? 2 ^ 52
  then ret (im_draw (ellipse (x1, y1, x2, y2) (CRGBA g g g a)) shape)
  else ret (im_draw (rectangle (x1, y1, x2, y2) (CRGBA g g g a)) shape).

(** One arc, chord, triangle or circle on the overlay. *)
Definition extra_shape (width height : Z) (shape : Image) : M Image :=
  x1 <- randint 0 (Z.max 0 (width - 50)) ;;
  y1 <- randint 0 (Z.max 0 (height - 50)) ;;
  dx <- randint 10 50 ;;
  let x2 := x1 + dx in
  dy <- randint 10 50 ;;
  let y2 := y1 + dy in
  g <- randint 60 180 ;;
  a <- randint 40 100 ;;
  kind <- choice ["arc"; "chord"; "triangle"; "circle"] ;;
  if String.eqb kind "arc" then
    s <- randint 0 360 ;;
    e <- randint 0 360 ;;
    ret (im_draw (arc (x1, y1, x2, y2) s e (CRGB g g g)) shape)
  else if String.eqb kind "chord" then
    s <- randint 0 360 ;;
    e <- randint 0 360 ;;
    ret (im_draw (chord (x1, y1, x2, y2) s e (CRGBA g g g a)) shape)
  else if String.eqb kind "triangle" then
    let pts := [(x1, y1); (x2, y1); ((x1 + x2) / 2, y2)] in
    ret (im_draw (polygon pts (CRGBA g g g a)) shape)
  else
    let r := (x2 - x1) / 2 in
    ret (im_draw (ellipse (x1, y1, x1 + r * 2, y1 + r * 2) (CRGBA g g g a)) shape).

(** One speckle. The coordinates are drawn inside the image. *)
Definition speckle (width height : Z) (base : Image) : M Image :=
  x <- randint 0 (width - 1) ;;
  y <- randint 0 (height - 1) ;;
  v <- randint 0 255 ;;
  ret (putpixel (x, y) (CRGBA v v v 255) base).

(** [int(total * params.pixel_noise_density)] *)
Definition speckle_count (total : Z) (density : float) : result Z :=
  let? x := int_times_float total density in
  int_of_float x.

Definition make_image (ascii_lines : list string) (params : RenderParams) : M Image :=
  match ascii_lines with
  | [] => ret (Image_new Mode_RGB 2 2 (CName "white"))
  | _ =>
      let char_w := font_size params / 2 + spacing params in
      let char_h := font_size params + 2 in
      let width := char_w * max_len ascii_lines in
      let height := char_h * Z.of_nat (List.length ascii_lines) in
      base <- lift (Image_new_checked Mode_RGBA width height (CRGBA 255 255 255 255)) ;;
      font <- lift (_load_font (font_path params) (font_size params)) ;;
      base <- draw_text_layer ascii_lines params font char_w char_h base ;;
      base <- for_range (noise_lines params) (noise_line width height) base ;;
      shape <- lift (Image_new_checked Mode_RGBA width height (CRGBA 255 255 255 0)) ;;
      shape <- for_range (blur_shapes params) (blur_shape width height) shape ;;
      shape <- for_range (extra_noise_shapes params) (extra_shape width height) shape ;;
      let shape :=
        if float_pos (shape_blur_radius params)
        then GaussianBlur (shape_blur_radius params) shape
        else shape in
      let base := alpha_composite base shape in
      let total := width * height in
      n <- lift (speckle_count total (pixel_noise_density params)) ;;
      base <- for_range n (speckle width height) base ;;
      let base :=
        if apply_blur params && float_pos (gaussian_blur_radius params)
        then GaussianBlur (gaussian_blur_radius params) base
        else base in
      ret (im_convert Mode_RGB base)
  end.

(** *** The entry points *)

(** [x or y] on an optional string: [None] and the empty string are falsy. *)
Definition str_or (x : option string) (y : M string) : M string :=
  match x with
  | Some s => if str_falsy s then y else ret s
  | None => y
  end.

(** The body shared by the two entry points once [rng] is chosen. *)
Definition run_with_rng {A} (seed : option Z) (c : M A) (g : rng_state)
    : result (A * rng_state) :=
  match c {| rng_arg := option_map rng_seed seed; rng_module := g |} with
  | Ok (a, st) => Ok (a, rng_module st)
  | Raise e => Raise e
  end.

(** [generate_image], the older entry point. [g] is the state of the
    module-level generator at the call, returned updated. *)
Definition generate_image (text : option string) (length : Z) (seed : option Z)
    (font_path : option string) (g : rng_state)
    : result ((Image * string) * rng_state) :=
  run_with_rng seed
    (code <- str_or text (generate_code length) ;;
     ascii_lines <- lift (_text_to_ascii_lines code font_path 40 2 ASCII_CHARS) ;;
     img <- make_image ascii_lines default_RenderParams ;;
     ret (img, code)) g.

(** [generate_image_from_cfg] *)
Definition generate_image_from_cfg (cfg : AppConfig) (g : rng_state)
    : result ((Image * string) * rng_state) :=
  run_with_rng (random_seed cfg)
    (code <- str_or (fixed_code cfg) (generate_code (code_length cfg)) ;;
     ascii_lines <- lift (_text_to_ascii_lines code
                            (tta_font_path (text_to_ascii cfg))
                            (tta_font_size (text_to_ascii cfg))
                            (tta_scale (text_to_ascii cfg))
                            (ascii_chars cfg)) ;;
     img <- make_image ascii_lines (render cfg) ;;
     ret (img, code)) g.
End Captcha.

(** ** Reference implementations of the interfaces

    Small executable implementations of the three interfaces, used to run
    the program on concrete inputs. *)

Module Ref.

(** A runtime for documents that give no number as a string. *)
Definition builtins : Builtins :=
  {| int_of_str := fun _ => None; float_of_str := fun _ => None |}.

(** A 64-bit linear congruential generator. *)
Definition lcg_next (s : Z) : Z :=
  (s * 6364136223846793005 + 1442695040888963407) mod 2 ^ 64.

Definition lcg : RandomCore :=
  {| rng_state := Z;
     rng_seed := fun seed => seed mod 2 ^ 64;
     rng_random53 := fun s => (lcg_next s / 2 ^ 11, lcg_next s);
     rng_randbelow := fun n s => (lcg_next s mod n, lcg_next s) |}.

(** A raster that records what was drawn on it. Its luminances run
    through [0, 255] in row-major order. *)
Record RecFont : Type := { rf_path : string; rf_size : Z }.

Inductive Op : Type :=
| OpDraw (c : DrawCmd RecFont)
| OpResize
| OpBlur (radius : float)
| OpComposite (over : list Op)
| OpPutpixel (xy : Z * Z) (c : Color)
| OpConvert (m : Mode).

Record RecImage : Type := {
  ri_mode : Mode;
  ri_width : Z;
  ri_height : Z;
  ri_fill : Color;
  ri_ops : list Op
}.

Definition rec_op (o : Op) (im : RecImage) : RecImage :=
  {| ri_mode := ri_mode im; ri_width := ri_width im; ri_height := ri_height im;
     ri_fill := ri_fill im; ri_ops := ri_ops im ++ [o] |}.

Definition pil : PIL :=
  {| Image := RecImage;
     Font := RecFont;
     Image_new := fun m w h c =>
       {| ri_mode := m; ri_width := w; ri_height := h; ri_fill := c; ri_ops := [] |};
     im_width := ri_width;
     im_height := ri_height;
     im_resize := fun '(w, h) im =>
       {| ri_mode := ri_mode im; ri_width := w; ri_height := h;
          ri_fill := ri_fill im; ri_ops := ri_ops im ++ [OpResize] |};
     im_getdata := fun im =>
       map (fun i => Z.of_nat i * 85 mod 256)
         (seq 0 (Z.to_nat (ri_width im * ri_height im)));
     im_draw := fun c => rec_op (OpDraw c);
     GaussianBlur := fun r => rec_op (OpBlur r);
     alpha_composite := fun a b => rec_op (OpComposite (ri_ops b)) a;
     putpixel := fun xy c => rec_op (OpPutpixel xy c);
     im_convert := fun m im =>
       {| ri_mode := m; ri_width := ri_width im; ri_height := ri_height im;
          ri_fill := ri_fill im; ri_ops := ri_ops im ++ [OpConvert m] |};
     truetype := fun path size =>
       if String.eqb path "DejaVuSansMono.ttf" && (0 <? size)
       then Ok {| rf_path := path; rf_size := size |}
       else Raise OSError;
     load_default := {| rf_path := ""; rf_size := 10 |} |}.

(** A small configuration: glyphs of 2 by 2 characters. *)
Definition small_render : RenderParams :=
  {| font_path := None; font_size := 9; spacing := 1; noise_lines := 2;
     blur_shapes := 2; apply_blur := true; extra_noise_shapes := 3;
     pixel_noise_density := 0.04%float; jitter := 1;
     gaussian_blur_radius := 1.1%float; shape_blur_radius := 2.0%float |}.

Definition small_cfg (seed : option Z) (code : option string) (length : Z) : AppConfig :=
  {| output := "captcha.png"; print_code := false; data_url_output := None;
     code_length := length; random_seed := seed; fixed_code := code;
     ascii_chars := ASCII_CHARS;
     text_to_ascii := {| tta_font_path := None; tta_font_size := 2; tta_scale := 2 |};
     render := small_render |}.

End Ref.

(** ** Vocabulary of the properties *)

(** Uppercase letter or digit. *)
Definition upper_or_digit (c : ascii) : bool :=
  let n := nat_of_ascii c in
  ((65 <=? n)%nat && (n <=? 90)%nat) || ((48 <=? n)%nat && (n <=? 57)%nat).

(** The code of a successful call. *)
Definition code_of {A B} (r : result (A * string * B)) : option string :=
  match r with
  | Ok (_, code, _) => Some code
  | Raise _ => None
  end.

(** The value a document gives to [k]: its last binding. *)
Fixpoint last_binding (k : string) (items : dict) : option json :=
  match items with
  | [] => None
  | (k', v) :: rest =>
      match last_binding k rest with
      | Some x => Some x
      | None => if String.eqb k k' then Some v else None
      end
  end.

(** One iteration of the loop of [_deep_update]. *)
Definition deep_update_step (out : dict) (k : string) (v : json) : dict :=
  match v, dict_get k out with
  | JDict _, Some (JDict sub) => dict_set k (JDict (deep_update_dict sub v)) out
  | _, _ => dict_set k v out
  end.

(** The side of a glyph block: [max(1, font_size * 2 // scale)]. *)
Definition glyph_side (font_size scale : Z) : Z := Z.max 1 (font_size * 2 / scale).

(** A square block of palette characters. *)
Definition square_block (side : Z) (block : list string) : Prop :=
  List.length block = Z.to_nat side /\ Forall (fun row => py_len row = side) block.

(** The length of a canvas line: the blocks and the gaps of three. *)
Definition line_length (n side : Z) : Z := n * side + (n - 1) * 3.

Section Vocabulary.
Context {P : PIL} {R : RandomCore}.

(** A candidate the loop passes over: an empty path, or a path that
  [truetype] rejects. *)
Definition passed_over (size : Z) (path : string) : Prop :=
path = "" \/ is_ok (truetype path size) = false.

(** [_text_to_ascii_lines] followed by [make_image]. *)
Definition pipeline (text : string) (font_path : option string)
  (font_size scale : Z) (ascii_chars : string) (params : RenderParams) : M Image :=
ascii_lines <- lift (_text_to_ascii_lines text font_path font_size scale ascii_chars) ;;
make_image ascii_lines params.

(** The run of [f] on an instance [s] passed as [rng], next to a
  module-level generator [g] that it leaves alone. *)
Definition on_instance {A} (f : rng_state -> result (A * rng_state))
  (s g : rng_state) : result (A * Rngs) :=
match f s with
| Ok (a, s') => Ok (a, {| rng_arg := Some s'; rng_module := g |})
| Raise e => Raise e
end.

(** A computation is confined when, given an instance as [rng], it reads
  and advances that instance only. *)
Definition confined {A} (c : M A) : Prop :=
exists f, forall s g, c {| rng_arg := Some s; rng_module := g |} = on_instance f s g.

(** The part of a result the caller sees: the image and the code. *)
Definition output_of {A} (r : result (A * rng_state)) : result A :=
match r with Ok (a, _) => Ok a | Raise e => Raise e end.

(** Every value [c] returns satisfies [Q]. *)
Definition ensures {A} (c : M A) (Q : A -> Prop) : Prop :=
forall st a st', c st = Ok (a, st') -> Q a.

(** [c] returns, from every state, a value that satisfies [Q]. *)
Definition returns {A} (c : M A) (Q : A -> Prop) : Prop :=
forall st, exists a st', c st = Ok (a, st') /\ Q a.

(** The canvas size [make_image] computes from its parameters. *)
Definition canvas_size (ascii_lines : list string) (params : RenderParams) : Z * Z :=
((font_size params / 2 + spacing params) * max_len ascii_lines,
 (font_size params + 2) * Z.of_nat (List.length ascii_lines)).

End Vocabulary.

(** ** More of the source: defaults *)

(** [AppConfig()], the dataclass with every field at its default. *)
Definition default_AppConfig : AppConfig :=
  {| output := "captcha.png"; print_code := false; data_url_output := None;
     code_length := 6; random_seed := None; fixed_code := None;
     ascii_chars := "$@B%8&WM# ";
     text_to_ascii := default_TextToAsciiParams;
     render := default_RenderParams |}.

(** The keys of the [defaults] dictionary of [load_config]. *)
Definition known_keys : list string :=
  [ "output"; "print_code"; "data_url_output"; "code_length"; "random_seed";
    "fixed_code"; "ascii_chars"; "text_to_ascii"; "render" ].

(** The document binds [k] once, to [v]. *)
Definition binds_once (items : dict) (k : string) (v : json) : Prop :=
  exists pre post,
    items = (pre ++ (k, v) :: post)%list /\
    last_binding k pre = None /\ last_binding k post = None.

(** [k] is a key of the dictionary. *)
Definition has_key (k : string) (d : dict) : Prop := dict_get k d <> None.

(** A value that is not a dictionary. *)
Definition not_dict (v : json) : Prop :=
  match v with JDict _ => False | _ => True end.

(** ** [to_data_url] *)

(** The PNG encoder of Pillow: the bytes [img.save(buf, format="PNG")]
    leaves in the buffer. *)
Class PngEncoder (P : PIL) : Type := {
  png_bytes : Image -> list Byte.byte
}.

(** The value of a byte, 0 to 255. *)
Definition byte_val (b : Byte.byte) : Z := Z.of_N (Byte.to_N b).

(** The alphabet of [base64.b64encode]. *)
Definition b64_alphabet : string :=
  "ABCDEFGHIJKLMNOPQRSTUVWXYZabcdefghijklmnopqrstuvwxyz0123456789+/".

Definition b64_char (i : Z) : ascii :=
  match String.get (Z.to_nat i) b64_alphabet with
  | Some c => c
  | None => "="%char
  end.

(** [base64.b64encode(data).decode("ascii")]: three bytes give four
    characters; one or two bytes left over are padded with [=]. *)
Fixpoint b64encode (data : list Byte.byte) : string :=
  match data with
  | [] => ""
  | [a] =>
      let a := byte_val a in
      String (b64_char (a / 4)) (String (b64_char (a mod 4 * 16)) "==")
  | [a; b] =>
      let a := byte_val a in
      let b := byte_val b in
      String (b64_char (a / 4))
        (String (b64_char (a mod 4 * 16 + b / 16))
           (String (b64_char (b mod 16 * 4)) "="))
  | a :: b :: c :: rest =>
      let a := byte_val a in
      let b := byte_val b in
      let c := byte_val c in
      String (b64_char (a / 4))
        (String (b64_char (a mod 4 * 16 + b / 16))
           (String (b64_char (b mod 16 * 4 + c / 64))
              (String (b64_char (c mod 64)) (b64encode rest))))
  end.

Definition to_data_url `{PngEncoder} (img : Image) : string :=
  "data:image/png;base64," ++ b64encode (png_bytes img).

(** The inverse of [b64_char], and the decoding of a padded base64 text
    ([base64.b64decode]), used to state the round trip. *)
Fixpoint b64_index_from (i : Z) (alphabet : string) (c : ascii) : option Z :=
  match alphabet with
  | EmptyString => None
  | String a rest => if Ascii.eqb a c then Some i else b64_index_from (i + 1) rest c
  end.

Definition b64_index (c : ascii) : option Z := b64_index_from 0 b64_alphabet c.

Definition byte_of (v : Z) : option Byte.byte := Byte.of_N (Z.to_N v).

Definition opt_cons {A} (x : option A) (xs : option (list A)) : option (list A) :=
  match x, xs with
  | Some a, Some l => Some (a :: l)
  | _, _ => None
  end.

Fixpoint b64decode (text : list ascii) : option (list Byte.byte) :=
  match text with
  | [] => Some []
  | c0 :: c1 :: c2 :: c3 :: rest =>
      match b64_index c0, b64_index c1 with
      | Some s0, Some s1 =>
          if Ascii.eqb c2 "=" then
            match rest with
            | [] => if Ascii.eqb c3 "=" then opt_cons (byte_of (s0 * 4 + s1 / 16)) (Some [])
                    else None
            | _ => None
            end
          else
            match b64_index c2 with
            | Some s2 =>
                if Ascii.eqb c3 "=" then
                  match rest with
                  | [] => opt_cons (byte_of (s0 * 4 + s1 / 16))
                            (opt_cons (byte_of (s1 mod 16 * 16 + s2 / 4)) (Some []))
                  | _ => None
                  end
                else
                  match b64_index c3 with
                  | Some s3 =>
                      opt_cons (byte_of (s0 * 4 + s1 / 16))
                        (opt_cons (byte_of (s1 mod 16 * 16 + s2 / 4))
                           (opt_cons (byte_of (s2 mod 4 * 64 + s3)) (b64decode rest)))
                  | None => None
                  end
            | None => None
            end
      | _, _ => None
      end
  | _ => None
  end.

(** ** Vocabulary of the further properties *)


(** The fields of [TextToAsciiParams] with their defaults, as
    [asdict(AppConfig())] gives them. *)
Definition tta_defaults : dict :=
  [ ("font_path", JNull); ("font_size", JInt 40); ("scale", JInt 2) ].

(** The fields of [RenderParams] with their defaults. *)
Definition render_defaults : dict :=
  [ ("font_path", JNull); ("font_size", JInt 9); ("spacing", JInt 1);
    ("noise_lines", JInt 24); ("blur_shapes", JInt 40);
    ("apply_blur", JBool true); ("extra_noise_shapes", JInt 30);
    ("pixel_noise_density", JFloat 0.04%float); ("jitter", JInt 1);
    ("gaussian_blur_radius", JFloat 1.1%float);
    ("shape_blur_radius", JFloat 2.0%float) ].

(** Every character of [s] is a character of the palette or a space. *)
Definition palette_or_space (ascii_chars : string) (s : string) : Prop :=
  Forall (fun c => In c (list_ascii_of_string ascii_chars) \/ c = " "%char)
    (list_ascii_of_string s).

(** A box whose corner lies in the image less a margin and whose sides are
    between [lo] and 50. *)
Definition shape_box (width height margin lo : Z) (box : Box) : Prop :=
  let '(x1, y1, x2, y2) := box in
  0 <= x1 <= Z.max 0 (width - margin) /\ 0 <= y1 <= Z.max 0 (height - margin) /\
  lo <= x2 - x1 <= 50 /\ lo <= y2 - y1 <= 50.

(** The configuration [generate_image] stands for. *)
Definition legacy_cfg (text : option string) (length : Z) (seed : option Z)
    (font_path : option string) : AppConfig :=
  {| output := "captcha.png"; print_code := false; data_url_output := None;
     code_length := length; random_seed := seed; fixed_code := text;
     ascii_chars := "$@B%8&WM# ";
     text_to_ascii :=
       {| tta_font_path := font_path; tta_font_size := 40; tta_scale := 2 |};
     render := default_RenderParams |}.

(** The configuration with another seed. *)
Definition with_seed (cfg : AppConfig) (seed : option Z) : AppConfig :=
  {| output := output cfg; print_code := print_code cfg;
     data_url_output := data_url_output cfg; code_length := code_length cfg;
     random_seed := seed; fixed_code := fixed_code cfg;
     ascii_chars := ascii_chars cfg; text_to_ascii := text_to_ascii cfg;
     render := render cfg |}.

(** A character of the base64 alphabet, or the padding. *)
Definition b64_text (s : string) : Prop :=
  Forall (fun c => In c (list_ascii_of_string b64_alphabet) \/ c = "="%char)
    (list_ascii_of_string s).

(** No fixed code: [None] or the empty string. *)
Definition no_fixed_code (cfg : AppConfig) : Prop :=
  fixed_code cfg = None \/ fixed_code cfg = Some "".

Section FurtherVocabulary.
Context {P : PIL} {R : RandomCore}.

(** The text layer with every character at its cell, no jitter. *)
Definition text_layer_plain (ascii_lines : list string) (font : Font)
    (char_w char_h : Z) (base : Image) : Image :=
  fold_left
    (fun base '(r, l) =>
       fold_left
         (fun base '(c, ch) =>
            im_draw (text (c * char_w, r * char_h) ch font (CRGBA 0 0 0 255)) base)
         (enumerate (list_ascii_of_string l)) base)
    (enumerate ascii_lines) base.

(** The image with the text layer only: no line, no shape, no speckle. *)
Definition text_only_image (ascii_lines : list string) (params : RenderParams)
    (font : Font) : Image :=
  let char_w := font_size params / 2 + spacing params in
  let char_h := font_size params + 2 in
  let width := char_w * max_len ascii_lines in
  let height := char_h * Z.of_nat (List.length ascii_lines) in
  let base := text_layer_plain ascii_lines font char_w char_h
                (Image_new Mode_RGBA width height (CRGBA 255 255 255 255)) in
  let shape := Image_new Mode_RGBA width height (CRGBA 255 255 255 0) in
  let shape :=
    if float_pos (shape_blur_radius params)
    then GaussianBlur (shape_blur_radius params) shape
    else shape in
  let base := alpha_composite base shape in
  im_convert Mode_RGB
    (if apply_blur params && float_pos (gaussian_blur_radius params)
     then GaussianBlur (gaussian_blur_radius params) base
     else base).

(** The run of [f] on the module-level generator, no instance given. *)
Definition on_module {A} (f : rng_state -> result (A * rng_state))
    (g : rng_state) : result (A * Rngs) :=
  match f g with
  | Ok (a, g') => Ok (a, {| rng_arg := None; rng_module := g' |})
  | Raise e => Raise e
  end.

(** A computation treats the generator it is given and the module-level
    one alike: one function of the generator state describes both runs. *)
Definition generator_blind {A} (c : M A) : Prop :=
  exists f,
    (forall s g, c {| rng_arg := Some s; rng_module := g |} = on_instance f s g) /\
    (forall g, c {| rng_arg := None; rng_module := g |} = on_module f g).

End FurtherVocabulary.

(** * Properties *)

(** ** Strings and indexing *)

Lemma get_some (s : string) (n : nat) :
  (n < String.length s)%nat -> exists c, String.get n s = Some c.
Proof.
  revert n. induction s as [|a s IH]; intros n Hn; simpl in Hn; [lia|].
  destruct n as [|n]; simpl; [eauto|]. apply IH. lia.
Qed.

Lemma get_none (s : string) (n : nat) :
  (String.length s <= n)%nat -> String.get n s = None.
Proof.
  revert n. induction s as [|a s IH]; intros n Hn; simpl in *; [reflexivity|].
  destruct n as [|n]; [lia|]. apply IH. lia.
Qed.

Lemma py_getitem_in_range (s : string) (i : Z) :
  0 <= i < py_len s ->
  exists c, String.get (Z.to_nat i) s = Some c /\ py_getitem s i = Ok c.
Proof.
  intros Hi. unfold py_len in Hi.
  destruct (get_some s (Z.to_nat i)) as [c Hc]; [lia|].
  exists c. split; [exact Hc|].
  unfold py_getitem, py_len.
  destruct (Z.ltb_spec i 0); [lia|].
  destruct (Z.leb_spec 0 i); [|lia].
  destruct (Z.ltb_spec i (Z.of_nat (String.length s))); [|lia].
  simpl. rewrite Hc. reflexivity.
Qed.

Lemma py_getitem_empty (i : Z) : py_getitem "" i = Raise IndexError.
Proof.
  unfold py_getitem, py_len. simpl.
  destruct (Z.ltb_spec i 0).
  - rewrite Z.add_0_r. destruct (Z.leb_spec 0 i); [lia|reflexivity].
  - destruct (Z.leb_spec 0 i); [|lia].
    destruct (Z.ltb_spec i 0); [lia|reflexivity].
Qed.

(** ** The luminance-to-character mapping *)

Lemma map_pixel_empty (p : Z) : map_pixel "" p = Raise IndexError.
Proof. apply py_getitem_empty. Qed.

Lemma palette_index_range (ascii_chars : string) (p : Z) :
  1 <= py_len ascii_chars -> 0 <= p <= 255 ->
  0 <= palette_index ascii_chars p <= py_len ascii_chars - 1.
Proof.
  intros Hl Hp. unfold palette_index.
  set (n := py_len ascii_chars - 1) in *.
  assert (0 <= n) by lia.
  split.
  - apply Z.div_pos; nia.
  - apply Z.div_le_upper_bound; nia.
Qed.

Lemma palette_index_mono (ascii_chars : string) (p q : Z) :
  1 <= py_len ascii_chars -> p <= q ->
  palette_index ascii_chars p <= palette_index ascii_chars q.
Proof.
  intros Hl Hpq. unfold palette_index.
  apply Z.div_le_mono; [lia|]. nia.
Qed.

Lemma palette_index_black (ascii_chars : string) : palette_index ascii_chars 0 = 0.
Proof. unfold palette_index. reflexivity. Qed.

Lemma palette_index_white (ascii_chars : string) :
  palette_index ascii_chars 255 = py_len ascii_chars - 1.
Proof.
  unfold palette_index. rewrite Z.mul_comm. apply Z.div_mul. lia.
Qed.

Lemma map_pixel_in_range (ascii_chars : string) (p : Z) :
  1 <= py_len ascii_chars -> 0 <= p <= 255 ->
  exists c,
    String.get (Z.to_nat (palette_index ascii_chars p)) ascii_chars = Some c /\
    map_pixel ascii_chars p = Ok c.
Proof.
  intros Hl Hp. unfold map_pixel. apply py_getitem_in_range.
  pose proof (palette_index_range ascii_chars p Hl Hp). lia.
Qed.

(** A grid of one luminance maps to a grid of one character. *)
Lemma map_pixels_constant (ascii_chars : string) (p : Z) (c : ascii) (n : nat) :
  map_pixel ascii_chars p = Ok c ->
  map_pixels ascii_chars (repeat p n) = Ok (string_of_list_ascii (repeat c n)).
Proof.
  intros Hc. induction n as [|n IH]; simpl; [reflexivity|].
  rewrite Hc. simpl. rewrite IH. reflexivity.
Qed.

(** Every pixel in range maps, and the characters come from the palette. *)
Lemma map_pixels_in_range (ascii_chars : string) (pixels : list Z) :
  1 <= py_len ascii_chars ->
  Forall (fun p => 0 <= p <= 255) pixels ->
  exists s,
    map_pixels ascii_chars pixels = Ok s /\
    String.length s = List.length pixels /\
    Forall (fun c => exists i, String.get i ascii_chars = Some c)
      (list_ascii_of_string s).
Proof.
  intros Hl Hp. induction Hp as [|p ps Hp0 Hps IH].
  - exists EmptyString. simpl. auto.
  - destruct IH as (s & Hs & Hlen & Hall).
    destruct (map_pixel_in_range ascii_chars p Hl Hp0) as (c & Hget & Hc).
    exists (String c s). simpl. rewrite Hc. simpl. rewrite Hs. simpl.
    split; [reflexivity|]. split; [congruence|].
    constructor; [eauto|exact Hall].
Qed.

(** C3. For a palette of at least two characters and a luminance [p] in
    [0, 255], the mapper returns the palette character at index
    [p * (len - 1) / 255] (integer division), an index inside the palette;
    the index grows with [p]; a grid that is black everywhere maps to the
    first character only and a grid that is white everywhere to the last
    character only. *)
Theorem C3_luminance_mapping (ascii_chars : string) :
  2 <= py_len ascii_chars ->
  (forall p, 0 <= p <= 255 ->
     0 <= p * (py_len ascii_chars - 1) / 255 <= py_len ascii_chars - 1 /\
     exists c,
       String.get (Z.to_nat (p * (py_len ascii_chars - 1) / 255)) ascii_chars = Some c /\
       map_pixel ascii_chars p = Ok c) /\
  (forall p q, 0 <= p <= q -> q <= 255 ->
     palette_index ascii_chars p <= palette_index ascii_chars q) /\
  (exists darkest lightest,
     String.get 0 ascii_chars = Some darkest /\
     String.get (String.length ascii_chars - 1) ascii_chars = Some lightest /\
     forall n,
       map_pixels ascii_chars (repeat 0 n) = Ok (string_of_list_ascii (repeat darkest n)) /\
       map_pixels ascii_chars (repeat 255 n) = Ok (string_of_list_ascii (repeat lightest n))).
Proof.
  intros Hl. assert (Hl1 : 1 <= py_len ascii_chars) by lia.
  split; [|split].
  - intros p Hp. split.
    + exact (palette_index_range ascii_chars p Hl1 Hp).
    + exact (map_pixel_in_range ascii_chars p Hl1 Hp).
  - intros p q Hpq Hq. apply palette_index_mono; lia.
  - destruct (map_pixel_in_range ascii_chars 0 Hl1) as (d & Hd & Hmd); [lia|].
    destruct (map_pixel_in_range ascii_chars 255 Hl1) as (l & Hg & Hml); [lia|].
    rewrite palette_index_black in Hd. rewrite palette_index_white in Hg.
    exists d, l. split; [exact Hd|]. split.
    + replace (String.length ascii_chars - 1)%nat
        with (Z.to_nat (py_len ascii_chars - 1)); [exact Hg|].
      unfold py_len. lia.
    + intros n. split; apply map_pixels_constant; assumption.
Qed.

Lemma C3_luminance_mapping_witness :
  2 <= py_len ASCII_CHARS /\
  (forall p, 0 <= p <= 255 ->
     0 <= p * (py_len ASCII_CHARS - 1) / 255 <= py_len ASCII_CHARS - 1 /\
     exists c,
       String.get (Z.to_nat (p * (py_len ASCII_CHARS - 1) / 255)) ASCII_CHARS = Some c /\
       map_pixel ASCII_CHARS p = Ok c) /\
  map_pixel ASCII_CHARS 128 = Ok "8"%char /\
  map_pixels ASCII_CHARS (repeat 255 3) = Ok "   ".
Proof.
  assert (H : 2 <= py_len ASCII_CHARS) by (vm_compute; discriminate).
  split; [exact H|].
  split; [exact (proj1 (C3_luminance_mapping ASCII_CHARS H))|].
  split; reflexivity.
Defined.

(** The palette of two characters [a] and [b]: only 255 maps to [b]. *)
Lemma two_character_palette (a b : ascii) :
  let ascii_chars := String a (String b EmptyString) in
  (forall p, 0 <= p <= 255 ->
     (palette_index ascii_chars p = 0 /\ map_pixel ascii_chars p = Ok a) \/
     (palette_index ascii_chars p = 1 /\ map_pixel ascii_chars p = Ok b)) /\
  (forall pixels, Forall (fun p => 0 <= p <= 255) pixels ->
     exists s,
       map_pixels ascii_chars pixels = Ok s /\
       Forall (fun c => c = a \/ c = b) (list_ascii_of_string s)).
Proof.
  intros ascii_chars.
  assert (Hpix : forall p, 0 <= p <= 255 ->
     (palette_index ascii_chars p = 0 /\ map_pixel ascii_chars p = Ok a) \/
     (palette_index ascii_chars p = 1 /\ map_pixel ascii_chars p = Ok b)).
  { intros p Hp. unfold map_pixel, palette_index, ascii_chars.
    change (py_len (String a (String b ""))) with 2.
    replace (p * (2 - 1)) with p by lia.
    destruct (Z.eq_dec p 255) as [->|Hne].
    - right. split; reflexivity.
    - left. rewrite Z.div_small by lia. split; reflexivity. }
  split; [exact Hpix|].
  intros pixels Hall. induction Hall as [|p ps Hp _ IH].
  - exists EmptyString. split; [reflexivity|constructor].
  - destruct IH as (s & Hs & Hin).
    destruct (Hpix p Hp) as [[_ Hc]|[_ Hc]].
    + exists (String a s). simpl. rewrite Hc. simpl. rewrite Hs. simpl.
      split; [reflexivity|]. constructor; auto.
    + exists (String b s). simpl. rewrite Hc. simpl. rewrite Hs. simpl.
      split; [reflexivity|]. constructor; auto.
Qed.

(** C7. With a palette of exactly two characters, every luminance [p] in
    [0, 255] has the palette index [p * (2 - 1) / 255], which is 0 or 1, so
    the lookup never leaves the palette, and a glyph block mapped from such
    luminances holds only the two characters of the palette. *)
Theorem C7_two_character_palette (ascii_chars : string) :
  py_len ascii_chars = 2 ->
  (forall p, 0 <= p <= 255 ->
     (p * (2 - 1) / 255 = 0 \/ p * (2 - 1) / 255 = 1) /\
     palette_index ascii_chars p = p * (2 - 1) / 255 /\
     exists c,
       String.get (Z.to_nat (palette_index ascii_chars p)) ascii_chars = Some c /\
       map_pixel ascii_chars p = Ok c) /\
  (forall pixels, Forall (fun p => 0 <= p <= 255) pixels ->
     exists s,
       map_pixels ascii_chars pixels = Ok s /\
       Forall (fun c => String.get 0 ascii_chars = Some c \/
                        String.get 1 ascii_chars = Some c)
         (list_ascii_of_string s)).
Proof.
  intros Hlen.
  destruct ascii_chars as [|a [|b [|c rest]]]; try discriminate Hlen.
  2:{ unfold py_len in Hlen. simpl in Hlen. lia. }
  destruct (two_character_palette a b) as [Hpix Hgrid]. cbv zeta in Hpix, Hgrid.
  split.
  - intros p Hp.
    assert (Hidx : palette_index (String a (String b "")) p = p * (2 - 1) / 255)
      by reflexivity.
    destruct (Hpix p Hp) as [[Hi Hc]|[Hi Hc]]; rewrite <- Hidx, Hi;
      (split; [auto|]); (split; [reflexivity|]).
    + exists a. split; [reflexivity|exact Hc].
    + exists b. split; [reflexivity|exact Hc].
  - intros pixels Hall. destruct (Hgrid pixels Hall) as (s & Hs & Hin).
    exists s. split; [exact Hs|].
    eapply Forall_impl; [|exact Hin].
    intros c [->| ->]; simpl; auto.
Qed.

Lemma C7_two_character_palette_witness :
  py_len "# " = 2 /\
  (forall pixels, Forall (fun p => 0 <= p <= 255) pixels ->
     exists s,
       map_pixels "# " pixels = Ok s /\
       Forall (fun c => String.get 0 "# " = Some c \/ String.get 1 "# " = Some c)
         (list_ascii_of_string s)).
Proof.
  split; [reflexivity|].
  exact (proj2 (C7_two_character_palette "# " eq_refl)).
Defined.

(** ** The font resolver *)

Section FontResolver.
Context {P : PIL}.

Lemma str_falsy_empty (s : string) : str_falsy s = true <-> s = "".
Proof. destruct s; simpl; split; congruence. Qed.

Lemma load_first_spec (candidates : list string) (size : Z) :
  (exists pre path post f,
      candidates = (pre ++ path :: post)%list /\
      Forall (passed_over size) pre /\
      path <> "" /\ truetype path size = Ok f /\
      load_first candidates size = Ok f) \/
  (Forall (passed_over size) candidates /\
   load_first candidates size = Ok load_default).
Proof.
  induction candidates as [|path rest IH]; simpl.
  - right. split; [constructor|reflexivity].
  - destruct (str_falsy path) eqn:Hf.
    + apply str_falsy_empty in Hf.
      destruct IH as [(pre & q & post & f & -> & Hpre & Hq & Hload & Hres)|[Hall Hres]].
      * left. exists (path :: pre), q, post, f.
        repeat split; auto. constructor; [left; exact Hf|exact Hpre].
      * right. split; [|exact Hres]. constructor; [left; exact Hf|exact Hall].
    + destruct (truetype path size) as [f|e] eqn:Ht.
      * left. exists [], path, rest, f.
        repeat split; auto. intros ->. discriminate Hf.
      * destruct IH as [(pre & q & post & f & -> & Hpre & Hq & Hload & Hres)|[Hall Hres]].
        -- left. exists (path :: pre), q, post, f.
           repeat split; auto.
           constructor; [right; rewrite Ht; reflexivity|exact Hpre].
        -- right. split; [|exact Hres].
           constructor; [right; rewrite Ht; reflexivity|exact Hall].
Qed.

Lemma load_first_ok (candidates : list string) (size : Z) :
  exists f, load_first candidates size = Ok f.
Proof.
  destruct (load_first_spec candidates size)
    as [(pre & q & post & f & _ & _ & _ & _ & H)|[_ H]]; eauto.
Qed.

Lemma load_font_ok (preferred : option string) (size : Z) :
  exists f, _load_font preferred size = Ok f.
Proof. apply load_first_ok. Qed.

(** C8. For every preferred path and every size, [_load_font] raises
    nothing and returns a font: the first candidate that loads, taking the
    preferred path (when one is given) before the fixed list, in order,
    and the built-in default font when no candidate loads. *)
Theorem C8_load_font_total (preferred : option string) (size : Z) :
  exists f,
    _load_font preferred size = Ok f /\
    let candidates :=
      (match preferred with
       | Some p => if str_falsy p then [] else [p]
       | None => []
       end ++
       [ "consola.ttf"; "DejaVuSansMono.ttf";
         "/usr/share/fonts/truetype/dejavu/DejaVuSansMono.ttf";
         "Menlo.ttf"; "Courier New.ttf" ])%list in
    ((exists pre path post,
        candidates = (pre ++ path :: post)%list /\
        Forall (passed_over size) pre /\
        truetype path size = Ok f) \/
     (Forall (passed_over size) candidates /\ f = load_default)).
Proof.
  unfold _load_font.
  destruct (load_first_spec (preferred_candidates preferred ++ font_candidates) size)
    as [(pre & q & post & f & Heq & Hpre & _ & Hload & Hres)|[Hall Hres]].
  - exists f. split; [exact Hres|]. left. exists pre, q, post. auto.
  - exists load_default. split; [exact Hres|]. right. auto.
Qed.
End FontResolver.

(** ** Degenerate codes *)

Section Degenerate.
Context {P : PIL} {R : RandomCore}.

Lemma all_spaces_raises (text : string) (font_path : option string)
    (font_size scale : Z) (ascii_chars : string) :
  text <> "" -> remove_spaces text = "" ->
  _text_to_ascii_lines text font_path font_size scale ascii_chars = Raise IndexError.
Proof.
  intros Hne Hsp. unfold _text_to_ascii_lines.
  destruct text as [|c text]; [congruence|]. cbn [str_falsy].
  destruct (load_font_ok font_path font_size) as [f ->].
  rewrite Hsp. reflexivity.
Qed.

(** C1. On a code with no character other than a space, the pipeline
    [_text_to_ascii_lines] then [make_image] returns the blank 2 by 2 image
    when the code is empty, and raises [IndexError] (at [blocks[0]]) when
    the code holds at least one space: the guard [if not text] is taken
    before the spaces are removed. *)
Theorem C1_degenerate_code (text : string) (font_path : option string)
    (font_size scale : Z) (ascii_chars : string) (params : RenderParams) (st : Rngs) :
  remove_spaces text = "" ->
  (text = "" ->
     pipeline text font_path font_size scale ascii_chars params st
     = Ok (Image_new Mode_RGB 2 2 (CName "white"), st)) /\
  (text <> "" ->
     pipeline text font_path font_size scale ascii_chars params st
     = Raise IndexError).
Proof.
  intros Hsp. split.
  - intros ->. reflexivity.
  - intros Hne. unfold pipeline, bind, lift.
    rewrite (all_spaces_raises text font_path font_size scale ascii_chars Hne Hsp).
    reflexivity.
Qed.
End Degenerate.

Lemma C1_degenerate_code_witness :
  remove_spaces " " = "" /\
  @pipeline Ref.pil Ref.lcg " " None 40 2 ASCII_CHARS default_RenderParams
    (@Build_Rngs Ref.lcg None 7) = Raise IndexError.
Proof.
  split; [reflexivity|].
  apply (@C1_degenerate_code Ref.pil Ref.lcg " " None 40 2 ASCII_CHARS
           default_RenderParams (@Build_Rngs Ref.lcg None 7) eq_refl).
  discriminate.
Defined.

(** ** The code generator *)

Lemma round53_small (x : Z) : 0 <= x < 2 ^ 53 -> round53 x = x.
Proof.
  intros Hx. unfold round53.
  destruct (Z.eq_dec x 0) as [->|Hne]; [reflexivity|].
  assert (Z.log2 x < 53) by (apply Z.log2_lt_pow2; lia).
  destruct (Z.leb_spec (Z.log2 x - 52) 0); [reflexivity|lia].
Qed.

(** The index [floor(random() * 36.0)] stays below 36, also after the
    rounding of the product. *)
Lemma floor_random_times_36 (k : Z) :
  0 <= k < 2 ^ 53 -> 0 <= floor_random_times k 36 < 36.
Proof.
  intros Hk. unfold floor_random_times.
  rewrite (round53_small 36) by (split; [lia|reflexivity]).
  set (x := k * 36).
  assert (Hx : 0 <= x <= 36 * 2 ^ 53 - 36) by (unfold x; lia).
  destruct (Z_lt_le_dec x (2 ^ 53)) as [Hsmall|Hbig].
  - rewrite round53_small by lia. rewrite Z.div_small by lia. lia.
  - assert (Hpos : 0 < x) by lia.
    pose proof (Z.log2_spec x Hpos) as Hlog.
    assert (Hlo : 53 <= Z.log2 x) by (apply Z.log2_le_pow2; lia).
    assert (Hhi : Z.log2 x < 59).
    { apply Z.log2_lt_pow2; [lia|]. change (2 ^ 59) with (64 * 2 ^ 53). lia. }
    unfold round53.
    set (e := Z.log2 x - 52) in *.
    replace (Z.succ (Z.log2 x)) with (e + 53) in Hlog by (unfold e; lia).
    replace (Z.log2 x) with (e + 52) in Hlog by (unfold e; lia).
    destruct (Z.leb_spec e 0); [lia|].
    assert (He : e = 1 \/ e = 2 \/ e = 3 \/ e = 4 \/ e = 5 \/ e = 6) by lia.
    cbv zeta.
    set (b := (2 ^ (e - 1) <? x mod 2 ^ e) || ((x mod 2 ^ e =? 2 ^ (e - 1)) && Z.odd (x / 2 ^ e))).
    assert (Hb : b = true -> 2 ^ (e - 1) <= x mod 2 ^ e).
    { unfold b. intros Hb. apply orb_true_iff in Hb as [Hb|Hb].
      - apply Z.ltb_lt in Hb. lia.
      - apply andb_true_iff in Hb as [Hb _]. apply Z.eqb_eq in Hb. lia. }
    pose proof (Z.div_mod x (2 ^ e)) as Hdm.
    pose proof (Z.mod_pos_bound x (2 ^ e)) as Hmod.
    assert (Hgoal : 0 <= (if b then x / 2 ^ e + 1 else x / 2 ^ e) * 2 ^ e < 36 * 2 ^ 53).
    { destruct He as [ -> | [ -> | [ -> | [ -> | [ -> | -> ] ] ] ] ];
        change (2 ^ 1) with 2 in *; change (2 ^ 2) with 4 in *;
        change (2 ^ 3) with 8 in *; change (2 ^ 4) with 16 in *;
        change (2 ^ 5) with 32 in *; change (2 ^ 6) with 64 in *;
        change (2 ^ 53) with 9007199254740992 in *;
        simpl Z.add in Hlog; simpl Z.sub in Hb;
        change (2 ^ 0) with 1 in *; change (2 ^ 1) with 2 in *;
        change (2 ^ 2) with 4 in *; change (2 ^ 3) with 8 in *;
        change (2 ^ 4) with 16 in *; change (2 ^ 5) with 32 in *;
        change (2 ^ 54) with 18014398509481984 in *;
        change (2 ^ 55) with 36028797018963968 in *;
        change (2 ^ 56) with 72057594037927936 in *;
        change (2 ^ 57) with 144115188075855872 in *;
        change (2 ^ 58) with 288230376151711744 in *;
        change (2 ^ 59) with 576460752303423488 in *;
        destruct b; lia. }
    split.
    + apply Z.div_pos; lia.
    + apply Z.div_lt_upper_bound; lia.
Qed.

(** The rounding is visible: for this [k] the exact product is below 35 and
    the double is 35. *)
Example floor_random_times_rounds_up :
  let k := (35 * 2 ^ 53 - 4) / 36 in
  0 <= k < 2 ^ 53 /\ k * 36 / 2 ^ 53 = 34 /\ floor_random_times k 36 = 35.
Proof. vm_compute. repeat split; discriminate. Qed.

Lemma alphabet_length : String.length alphabet = 36%nat.
Proof. reflexivity. Qed.

Lemma alphabet_upper_or_digit :
  Forall (fun c => upper_or_digit c = true) (list_ascii_of_string alphabet).
Proof. apply Forall_forall. apply forallb_forall. reflexivity. Qed.

Lemma length_string_of_list_ascii (l : list ascii) :
  String.length (string_of_list_ascii l) = List.length l.
Proof. induction l; simpl; congruence. Qed.

Lemma list_getitem_in_range {A} (l : list A) (i : Z) :
  0 <= i < Z.of_nat (List.length l) ->
  exists a, list_getitem l i = Ok a /\ In a l.
Proof.
  intros Hi. unfold list_getitem.
  destruct (Z.ltb_spec i 0); [lia|].
  destruct (nth_error l (Z.to_nat i)) as [a|] eqn:Hn.
  - exists a. split; [reflexivity|]. eapply nth_error_In; eassumption.
  - apply nth_error_None in Hn. lia.
Qed.

Section CodeGenerator.
Context {R : RandomCore}.

(** A draw on whichever generator is in scope. *)
Lemma on_rng_ok {A} (f : rng_state -> A * rng_state) (st : Rngs) :
  exists s st', on_rng f st = Ok (fst (f s), st').
Proof.
  unfold on_rng. destruct (rng_arg st) as [s|].
  - exists s. destruct (f s); simpl. eauto.
  - exists (rng_module st). destruct (f (rng_module st)); simpl. eauto.
Qed.

Lemma generate_code_nonpositive (length : Z) (st : Rngs) :
  length <= 0 -> generate_code length st = Ok ("", st).
Proof.
  intros Hl. unfold generate_code, choices.
  replace (Z.to_nat length) with O by lia. reflexivity.
Qed.

Context {L : RandomLaws R}.

Lemma random_ok (st : Rngs) :
  exists u st', random st = Ok (u, st') /\ 0 <= u < 2 ^ 53.
Proof.
  destruct (on_rng_ok rng_random53 st) as (s & st' & H).
  exists (fst (rng_random53 s)), st'. split; [exact H|apply random53_range].
Qed.

Lemma choices_loop_alphabet (k : nat) (st : Rngs) :
  exists l st',
    choices_loop (list_ascii_of_string alphabet) k st = Ok (l, st') /\
    List.length l = k /\
    Forall (fun c => In c (list_ascii_of_string alphabet)) l.
Proof.
  revert st. induction k as [|k IH]; intros st.
  - exists [], st. simpl. repeat split. constructor.
  - destruct (random_ok st) as (u & st1 & Hu & Hrange).
    destruct (list_getitem_in_range (list_ascii_of_string alphabet)
                (floor_random_times u 36)) as (c & Hc & Hin).
    { change (Z.of_nat (List.length (list_ascii_of_string alphabet))) with 36.
      apply floor_random_times_36. exact Hrange. }
    destruct (IH st1) as (l & st2 & Hl & Hlen & Hall).
    exists (c :: l), st2. split; [|split].
    + cbn [choices_loop]. unfold bind at 1. rewrite Hu.
      change (Z.of_nat (List.length (list_ascii_of_string alphabet))) with 36.
      unfold bind at 1, lift. rewrite Hc.
      unfold bind at 1. rewrite Hl. reflexivity.
    + simpl. congruence.
    + constructor; assumption.
Qed.

Lemma generate_code_ok (length : Z) (st : Rngs) :
  exists code st',
    generate_code length st = Ok (code, st') /\
    String.length code = Z.to_nat length /\
    Forall (fun c => In c (list_ascii_of_string alphabet)) (list_ascii_of_string code).
Proof.
  destruct (choices_loop_alphabet (Z.to_nat length) st) as (l & st' & Hl & Hlen & Hall).
  exists (string_of_list_ascii l), st'. split; [|split].
  - unfold generate_code, choices, bind. rewrite Hl. reflexivity.
  - rewrite length_string_of_list_ascii. exact Hlen.
  - rewrite list_ascii_of_string_of_list_ascii. exact Hall.
Qed.

(** C4. For every length of at least 1 and every generator,
    [generate_code] returns a string of exactly [length] characters, each
    one a character of the alphabet of 36 characters, all of them
    uppercase letters or digits. *)
Theorem C4_generate_code (length : Z) (st : Rngs) :
  1 <= length ->
  exists code st',
    generate_code length st = Ok (code, st') /\
    py_len code = length /\
    String.length alphabet = 36%nat /\
    Forall (fun c => In c (list_ascii_of_string alphabet) /\ upper_or_digit c = true)
      (list_ascii_of_string code).
Proof.
  intros Hl.
  destruct (generate_code_ok length st) as (code & st' & Hc & Hlen & Hall).
  exists code, st'. split; [exact Hc|]. split; [unfold py_len; lia|].
  split; [reflexivity|].
  pose proof alphabet_upper_or_digit as Hup. rewrite Forall_forall in Hup.
  eapply Forall_impl; [|exact Hall].
  intros c Hin. split; [exact Hin|apply Hup; exact Hin].
Qed.

(** C10, as the code has it. [generate_code] validates nothing: for every
    length of 0 or less it raises no error and returns the empty string
    without consulting the generator; for a length of 1 or more it does not
    fail either. *)
Theorem C10_generate_code_nonpositive (length : Z) (st : Rngs) :
  (length <= 0 -> generate_code length st = Ok ("", st)) /\
  (1 <= length -> is_ok (generate_code length st) = true).
Proof.
  split.
  - apply generate_code_nonpositive.
  - intros _. destruct (generate_code_ok length st) as (code & st' & -> & _).
    reflexivity.
Qed.
End CodeGenerator.

(** The reference generator keeps the laws. *)
Lemma lcg_laws : RandomLaws Ref.lcg.
Proof.
  constructor.
  - intros s. simpl.
    pose proof (Z.mod_pos_bound (s * 6364136223846793005 + 1442695040888963407) (2 ^ 64)
                  ltac:(reflexivity)) as Hb.
    unfold Ref.lcg_next. split.
    + apply Z.div_pos; [lia|reflexivity].
    + apply Z.div_lt_upper_bound; [reflexivity|].
      change (2 ^ 11 * 2 ^ 53) with (2 ^ 64). lia.
  - intros n s Hn. simpl. apply Z.mod_pos_bound. exact Hn.
Qed.

Lemma C4_generate_code_witness :
  1 <= 8 /\
  exists code st',
    @generate_code Ref.lcg 8 (@Build_Rngs Ref.lcg None 5) = Ok (code, st') /\
    py_len code = 8 /\
    String.length alphabet = 36%nat /\
    Forall (fun c => In c (list_ascii_of_string alphabet) /\ upper_or_digit c = true)
      (list_ascii_of_string code).
Proof.
  split; [lia|].
  apply (@C4_generate_code Ref.lcg lcg_laws 8 (@Build_Rngs Ref.lcg None 5)). lia.
Defined.

Lemma C10_counterexample :
  ~ (forall length : Z, length <= 0 ->
       exists e, @generate_code Ref.lcg length (@Build_Rngs Ref.lcg None 5) = Raise e).
Proof.
  intros H. destruct (H (-3) ltac:(lia)) as [e He].
  rewrite generate_code_nonpositive in He by lia. discriminate He.
Qed.

Lemma C10_generate_code_nonpositive_witness :
  -3 <= 0 /\
  @generate_code Ref.lcg (-3) (@Build_Rngs Ref.lcg None 5)
  = Ok ("", @Build_Rngs Ref.lcg None 5).
Proof.
  split; [lia|].
  apply (@C10_generate_code_nonpositive Ref.lcg lcg_laws (-3) (@Build_Rngs Ref.lcg None 5)).
  lia.
Defined.

(** ** Determinism under a seed *)

Section Confined.
Context {P : PIL} {R : RandomCore}.

Lemma confined_ret {A} (a : A) : confined (ret a).
Proof. exists (fun s => Ok (a, s)). reflexivity. Qed.

Lemma confined_raise {A} (e : PyExc) : confined (@raise R A e).
Proof. exists (fun _ => Raise e). reflexivity. Qed.

Lemma confined_lift {A} (r : result A) : confined (lift r).
Proof.
  exists (fun s => match r with Ok a => Ok (a, s) | Raise e => Raise e end).
  intros s g. unfold lift, on_instance. destruct r; reflexivity.
Qed.

Lemma confined_on_rng {A} (f : rng_state -> A * rng_state) : confined (on_rng f).
Proof.
  exists (fun s => Ok (f s)). intros s g.
  unfold on_rng, on_instance. simpl. destruct (f s). reflexivity.
Qed.

Lemma confined_bind {A B} (c : M A) (k : A -> M B) :
  confined c -> (forall a, confined (k a)) -> confined (bind c k).
Proof.
  intros [f Hf] Hk.
  assert (Hk' : forall a, exists fk, forall s g,
             k a {| rng_arg := Some s; rng_module := g |} = on_instance fk s g)
    by exact Hk.
  clear Hk.
  (* the continuation's function is chosen pointwise, inside the run *)
  exists (fun s =>
            match f s with
            | Ok (a, s') =>
                match k a {| rng_arg := Some s'; rng_module := s |} with
                | Ok (b, st) =>
                    match rng_arg st with
                    | Some s'' => Ok (b, s'')
                    | None => Ok (b, s')
                    end
                | Raise e => Raise e
                end
            | Raise e => Raise e
            end).
  intros s g. unfold bind. rewrite Hf. unfold on_instance.
  destruct (f s) as [[a s']|e]; [|reflexivity].
  destruct (Hk' a) as [fk Hfk]. rewrite !Hfk. unfold on_instance.
  destruct (fk s') as [[b s'']|e]; reflexivity.
Qed.

Lemma confined_if {A} (b : bool) (c1 c2 : M A) :
  confined c1 -> confined c2 -> confined (if b then c1 else c2).
Proof. destruct b; auto. Qed.

Lemma confined_random : confined random.
Proof. apply confined_on_rng. Qed.

Lemma confined_randint (a b : Z) : confined (randint a b).
Proof.
  unfold randint. apply confined_if.
  - apply confined_bind; [apply confined_on_rng|intros; apply confined_ret].
  - apply confined_raise.
Qed.

Lemma confined_choice {A} (seq : list A) : confined (choice seq).
Proof.
  destruct seq as [|x seq]; simpl.
  - apply confined_raise.
  - apply confined_bind; [apply confined_on_rng|intros; apply confined_lift].
Qed.

Lemma confined_choices {A} (population : list A) (k : Z) :
  confined (choices population k).
Proof.
  unfold choices. induction (Z.to_nat k) as [|n IH]; simpl.
  - apply confined_ret.
  - apply confined_bind; [apply confined_random|intros u].
    apply confined_bind; [apply confined_lift|intros x].
    apply confined_bind; [exact IH|intros xs]. apply confined_ret.
Qed.

Lemma confined_repeat_loop {A} (n : nat) (body : A -> M A) (a : A) :
  (forall a, confined (body a)) -> confined (repeat_loop n body a).
Proof.
  intros Hb. revert a. induction n as [|n IH]; intros a; simpl.
  - apply confined_ret.
  - apply confined_bind; [apply Hb|exact IH].
Qed.

Lemma confined_for_range {A} (n : Z) (body : A -> M A) (a : A) :
  (forall a, confined (body a)) -> confined (for_range n body a).
Proof. apply confined_repeat_loop. Qed.

Lemma confined_for_each {A X} (xs : list X) (body : X -> A -> M A) (a : A) :
  (forall x a, confined (body x a)) -> confined (for_each xs body a).
Proof.
  intros Hb. revert a. induction xs as [|x xs IH]; intros a; simpl.
  - apply confined_ret.
  - apply confined_bind; [apply Hb|exact IH].
Qed.
End Confined.

Create HintDb confined.

#[global] Hint Resolve confined_ret confined_raise confined_lift confined_on_rng
  confined_random confined_randint confined_choice confined_choices : confined.

(** Decomposition of a computation of the program into its calls. *)
Ltac confined_step :=
  match goal with
  | |- confined (bind _ _) => apply confined_bind; [|intros]
  | |- confined (if _ then _ else _) => apply confined_if
  | |- confined (for_range _ _ _) => apply confined_for_range; intros
  | |- confined (for_each _ _ _) => apply confined_for_each; intros
  | |- confined (match ?x with (_, _) => _ end) => destruct x
  | |- confined ((match ?x with (_, _) => _ end) _) => destruct x
  | |- confined _ => solve [auto with confined]
  end.

Section Determinism.
Context {P : PIL} {R : RandomCore}.

Lemma confined_generate_code (length : Z) : confined (generate_code length).
Proof. unfold generate_code. repeat confined_step. Qed.

Lemma confined_make_image (ascii_lines : list string) (params : RenderParams) :
  confined (make_image ascii_lines params).
Proof.
  unfold make_image. destruct ascii_lines as [|l ls]; [apply confined_ret|].
  unfold draw_text_layer, noise_line, blur_shape, extra_shape, speckle.
  repeat confined_step.
Qed.

Lemma confined_str_or (x : option string) (y : M string) :
  confined y -> confined (str_or x y).
Proof.
  intros Hy. unfold str_or. destruct x as [s|]; [|exact Hy].
  destruct (str_falsy s); [exact Hy|apply confined_ret].
Qed.

(** A seeded run of a confined computation has one outcome, whatever the
    state of the module-level generator, and leaves that generator as it
    found it. *)
Lemma run_with_rng_seeded {A} (c : M A) (seed : Z) :
  confined c ->
  exists out : result A,
    forall g, run_with_rng (Some seed) c g
              = match out with Ok a => Ok (a, g) | Raise e => Raise e end.
Proof.
  intros [f Hf].
  exists (match f (rng_seed seed) with Ok (a, _) => Ok a | Raise e => Raise e end).
  intros g. unfold run_with_rng. simpl. rewrite Hf. unfold on_instance.
  destruct (f (rng_seed seed)) as [[a s']|e]; reflexivity.
Qed.

(** C2. With a seed in the configuration, two calls of
    [generate_image_from_cfg] on the same configuration give the same
    image and the same code (or raise the same exception), whatever the
    state of the module-level generator at each call; with or without a
    fixed code. The seeded call does not advance the module-level
    generator. *)
Theorem C2_seeded_determinism (cfg : AppConfig) (seed : Z) :
  random_seed cfg = Some seed ->
  (forall g1 g2,
     output_of (generate_image_from_cfg cfg g1)
     = output_of (generate_image_from_cfg cfg g2)) /\
  (forall g r g', generate_image_from_cfg cfg g = Ok (r, g') -> g' = g).
Proof.
  intros Hseed.
  assert (Hout : exists out : result (Image * string),
             forall g, generate_image_from_cfg cfg g
                       = match out with Ok a => Ok (a, g) | Raise e => Raise e end).
  { unfold generate_image_from_cfg. rewrite Hseed.
    apply run_with_rng_seeded.
    apply confined_bind;
      [apply confined_str_or; apply confined_generate_code|intros code].
    apply confined_bind; [apply confined_lift|intros ascii_lines].
    apply confined_bind; [apply confined_make_image|intros img].
    apply confined_ret. }
  destruct Hout as [out Hout]. split.
  - intros g1 g2. rewrite !Hout. destruct out; reflexivity.
  - intros g r g' Hr. rewrite Hout in Hr. destruct out; congruence.
Qed.
End Determinism.

Lemma C2_seeded_determinism_witness :
  random_seed (Ref.small_cfg (Some 42) (Some "AB12CD") 6) = Some 42 /\
  forall g1 g2,
    output_of (@generate_image_from_cfg Ref.pil Ref.lcg
                 (Ref.small_cfg (Some 42) (Some "AB12CD") 6) g1)
    = output_of (@generate_image_from_cfg Ref.pil Ref.lcg
                   (Ref.small_cfg (Some 42) (Some "AB12CD") 6) g2).
Proof.
  split; [reflexivity|].
  exact (proj1 (@C2_seeded_determinism Ref.pil Ref.lcg
                  (Ref.small_cfg (Some 42) (Some "AB12CD") 6) 42 eq_refl)).
Defined.

(** ** What a computation ensures, and when it returns *)

Section Triples.
Context {R : RandomCore}.

Lemma ensures_ret {A} (a : A) (Q : A -> Prop) : Q a -> ensures (ret a) Q.
Proof. intros H st a' st' E. inversion E; subst. exact H. Qed.

Lemma ensures_any {A} (c : M A) : ensures c (fun _ => True).
Proof. intros st a st' _. exact I. Qed.

Lemma ensures_bind {A B} (c : M A) (k : A -> M B) (Q1 : A -> Prop) (Q2 : B -> Prop) :
  ensures c Q1 -> (forall a, Q1 a -> ensures (k a) Q2) -> ensures (bind c k) Q2.
Proof.
  intros Hc Hk st b st' E. unfold bind in E.
  destruct (c st) as [[a st1]|e] eqn:Ec; [|discriminate].
  exact (Hk a (Hc _ _ _ Ec) _ _ _ E).
Qed.

Lemma ensures_lift {A} (r : result A) (Q : A -> Prop) :
  (forall a, r = Ok a -> Q a) -> ensures (lift r) Q.
Proof.
  intros H st a st' E. unfold lift in E. destruct r as [a0|e]; [|discriminate].
  inversion E; subst. apply H. reflexivity.
Qed.

Lemma ensures_repeat_loop {A} (n : nat) (body : A -> M A) (Inv : A -> Prop) (a : A) :
  Inv a -> (forall a, Inv a -> ensures (body a) Inv) ->
  ensures (repeat_loop n body a) Inv.
Proof.
  intros Ha Hb. revert a Ha. induction n as [|n IH]; intros a Ha; simpl.
  - apply ensures_ret. exact Ha.
  - eapply ensures_bind; [apply Hb; exact Ha|]. intros a' Ha'. apply IH. exact Ha'.
Qed.

Lemma ensures_for_each {A X} (xs : list X) (body : X -> A -> M A) (Inv : A -> Prop) (a : A) :
  Inv a -> (forall x a, Inv a -> ensures (body x a) Inv) ->
  ensures (for_each xs body a) Inv.
Proof.
  intros Ha Hb. revert a Ha. induction xs as [|x xs IH]; intros a Ha; simpl.
  - apply ensures_ret. exact Ha.
  - eapply ensures_bind; [apply Hb; exact Ha|]. intros a' Ha'. apply IH. exact Ha'.
Qed.

Lemma returns_ret {A} (a : A) (Q : A -> Prop) : Q a -> returns (ret a) Q.
Proof. intros H st. exists a, st. split; [reflexivity|exact H]. Qed.

Lemma returns_bind {A B} (c : M A) (k : A -> M B) (Q1 : A -> Prop) (Q2 : B -> Prop) :
  returns c Q1 -> (forall a, Q1 a -> returns (k a) Q2) -> returns (bind c k) Q2.
Proof.
  intros Hc Hk st. destruct (Hc st) as (a & st1 & Ec & Ha).
  destruct (Hk a Ha st1) as (b & st2 & Ek & Hb).
  exists b, st2. split; [|exact Hb]. unfold bind. rewrite Ec. exact Ek.
Qed.

Lemma returns_lift {A} (r : result A) (a : A) (Q : A -> Prop) :
  r = Ok a -> Q a -> returns (lift r) Q.
Proof. intros -> H st. exists a, st. split; [reflexivity|exact H]. Qed.

Lemma returns_on_rng {A} (f : rng_state -> A * rng_state) (Q : A -> Prop) :
  (forall s, Q (fst (f s))) -> returns (on_rng f) Q.
Proof.
  intros H st. destruct (on_rng_ok f st) as (s & st' & E).
  exists (fst (f s)), st'. split; [exact E|apply H].
Qed.

Lemma returns_randint (a b : Z) : a <= b -> returns (randint a b) (fun _ => True).
Proof.
  intros Hab. unfold randint.
  destruct (Z.ltb_spec 0 (b + 1 - a)); [|lia].
  eapply returns_bind; [apply returns_on_rng with (Q := fun _ => True); auto|].
  intros r _. apply returns_ret. exact I.
Qed.

Lemma returns_random : returns random (fun _ => True).
Proof. apply returns_on_rng. auto. Qed.

Lemma returns_choice {A} `{!RandomLaws R} (seq : list A) :
  seq <> [] -> returns (choice seq) (fun x => In x seq).
Proof.
  intros Hne. destruct seq as [|x seq]; [congruence|]. unfold choice.
  eapply returns_bind.
  - apply returns_on_rng
      with (Q := fun i => 0 <= i < Z.of_nat (List.length (x :: seq))).
    intros s. apply randbelow_range. simpl List.length. lia.
  - intros i Hi. cbv beta in Hi.
    destruct (list_getitem_in_range (x :: seq) i Hi) as (a & Ha & Hin).
    eapply returns_lift; eassumption.
Qed.

Lemma returns_repeat_loop {A} (n : nat) (body : A -> M A) (Inv : A -> Prop) (a : A) :
  Inv a -> (forall a, Inv a -> returns (body a) Inv) ->
  returns (repeat_loop n body a) Inv.
Proof.
  intros Ha Hb. revert a Ha. induction n as [|n IH]; intros a Ha; simpl.
  - apply returns_ret. exact Ha.
  - eapply returns_bind; [apply Hb; exact Ha|]. intros a' Ha'. apply IH. exact Ha'.
Qed.

Lemma returns_for_each {A X} (xs : list X) (body : X -> A -> M A) (Inv : A -> Prop) (a : A) :
  Inv a -> (forall x a, Inv a -> returns (body x a) Inv) ->
  returns (for_each xs body a) Inv.
Proof.
  intros Ha Hb. revert a Ha. induction xs as [|x xs IH]; intros a Ha; simpl.
  - apply returns_ret. exact Ha.
  - eapply returns_bind; [apply Hb; exact Ha|]. intros a' Ha'. apply IH. exact Ha'.
Qed.
End Triples.

(** ** The size of the rendered image *)

Lemma max_len_bound (ascii_lines : list string) :
  0 <= max_len ascii_lines /\
  forall l, In l ascii_lines -> py_len l <= max_len ascii_lines.
Proof.
  induction ascii_lines as [|x xs [IH0 IH]]; simpl.
  - split; [lia|]. intros l [].
  - split; [lia|]. intros l [<-|Hin]; [lia|]. specialize (IH l Hin). lia.
Qed.

Lemma max_len_reached (ascii_lines : list string) :
  ascii_lines <> [] ->
  exists longest, In longest ascii_lines /\ py_len longest = max_len ascii_lines.
Proof.
  induction ascii_lines as [|x xs IH]; [congruence|]. intros _.
  destruct xs as [|y ys].
  - exists x. split; [left; reflexivity|]. simpl. unfold py_len. lia.
  - destruct IH as (l & Hin & Hl); [discriminate|].
    change (max_len (x :: y :: ys)) with (Z.max (py_len x) (max_len (y :: ys))).
    destruct (Z.max_spec (py_len x) (max_len (y :: ys))) as [[_ ->]|[_ ->]].
    + exists l. split; [right; exact Hin|exact Hl].
    + exists x. split; [left; reflexivity|reflexivity].
Qed.

(** The speckle loop does not run on an image without pixels. *)
Lemma speckle_count_zero (density : float) (n : Z) :
  speckle_count 0 density = Ok n -> n = 0.
Proof.
  unfold speckle_count, int_times_float.
  change (float_of_int 0) with (Ok 0%float). cbn [result_bind].
  unfold int_of_float. rewrite mul_spec.
  change (Prim2SF 0) with (S754_zero false).
  destruct (Prim2SF density) as [s|s| |s m e]; simpl; intros H;
    try discriminate H; inversion H; reflexivity.
Qed.

Section RenderedSize.
Context {P : PIL} {R : RandomCore} {PL : PILLaws P}.

Lemma Image_new_checked_size (m : Mode) (w h : Z) (c : Color) (im : Image) :
  Image_new_checked m w h c = Ok im -> im_size im = (w, h).
Proof.
  unfold Image_new_checked. intros H.
  destruct (Z.ltb_spec w 0); [discriminate H|].
  destruct (Z.ltb_spec h 0); [discriminate H|].
  simpl in H. inversion H; subst. apply size_new; assumption.
Qed.

Lemma Image_new_checked_ok (m : Mode) (w h : Z) (c : Color) :
  0 <= w -> 0 <= h -> Image_new_checked m w h c = Ok (Image_new m w h c).
Proof.
  intros Hw Hh. unfold Image_new_checked.
  destruct (Z.ltb_spec w 0); [lia|]. destruct (Z.ltb_spec h 0); [lia|]. reflexivity.
Qed.

(** Skips the random draws of a loop body: they decide where and what,
    not the size. *)
Ltac skip_draws :=
  repeat (eapply ensures_bind; [apply ensures_any|intros ? _]).

Ltac drawn_size sz H :=
  apply ensures_ret; rewrite ?size_draw, ?size_putpixel; exact H.

Variable sz : Z * Z.

Lemma ensures_draw_text_layer ascii_lines params font char_w char_h base :
  im_size base = sz ->
  ensures (draw_text_layer ascii_lines params font char_w char_h base)
    (fun im => im_size im = sz).
Proof.
  intros Hb. unfold draw_text_layer.
  apply ensures_for_each; [exact Hb|]. intros [r l] im Him.
  apply ensures_for_each; [exact Him|]. intros [c ch] im' Him'.
  skip_draws. drawn_size sz Him'.
Qed.

Lemma ensures_noise_line width height base :
  im_size base = sz -> ensures (noise_line width height base) (fun im => im_size im = sz).
Proof. intros Hb. unfold noise_line. skip_draws. drawn_size sz Hb. Qed.

Lemma ensures_blur_shape width height shape :
  im_size shape = sz -> ensures (blur_shape width height shape) (fun im => im_size im = sz).
Proof.
  intros Hb. unfold blur_shape. skip_draws.
  match goal with |- ensures (if ?b then _ else _) _ => destruct b end;
    drawn_size sz Hb.
Qed.

Lemma ensures_extra_shape width height shape :
  im_size shape = sz -> ensures (extra_shape width height shape) (fun im => im_size im = sz).
Proof.
  intros Hb. unfold extra_shape. skip_draws.
  repeat match goal with
         | |- ensures (if ?b then _ else _) _ => destruct b
         end; skip_draws; drawn_size sz Hb.
Qed.

Lemma ensures_speckle width height base :
  im_size base = sz -> ensures (speckle width height base) (fun im => im_size im = sz).
Proof. intros Hb. unfold speckle. skip_draws. drawn_size sz Hb. Qed.
End RenderedSize.

Section RenderedSizeTotal.
Context {P : PIL} {R : RandomCore} {PL : PILLaws P} {RL : RandomLaws R}.

Ltac take_draws :=
  repeat (eapply returns_bind;
          [first [apply returns_randint; lia | apply returns_random]|intros ? _]).

Ltac drawn_size H :=
  apply returns_ret; rewrite ?size_draw, ?size_putpixel; exact H.

Variable sz : Z * Z.

Lemma returns_draw_text_layer ascii_lines params font char_w char_h base :
  0 <= jitter params -> im_size base = sz ->
  returns (draw_text_layer ascii_lines params font char_w char_h base)
    (fun im => im_size im = sz).
Proof.
  intros Hj Hb. unfold draw_text_layer.
  apply returns_for_each; [exact Hb|]. intros [r l] im Him.
  apply returns_for_each; [exact Him|]. intros [c ch] im' Him'.
  take_draws. drawn_size Him'.
Qed.

Lemma returns_noise_line width height base :
  0 <= width -> 0 <= height -> im_size base = sz ->
  returns (noise_line width height base) (fun im => im_size im = sz).
Proof. intros Hw Hh Hb. unfold noise_line. take_draws. drawn_size Hb. Qed.

Lemma returns_blur_shape width height shape :
  im_size shape = sz ->
  returns (blur_shape width height shape) (fun im => im_size im = sz).
Proof.
  intros Hb. unfold blur_shape. take_draws.
  match goal with |- returns (if ?b then _ else _) _ => destruct b end;
    drawn_size Hb.
Qed.

Lemma returns_extra_shape width height shape :
  im_size shape = sz ->
  returns (extra_shape width height shape) (fun im => im_size im = sz).
Proof.
  intros Hb. unfold extra_shape. take_draws.
  eapply returns_bind; [apply returns_choice; discriminate|intros kind _].
  repeat match goal with
         | |- returns (if ?b then _ else _) _ => destruct b
         end; take_draws; drawn_size Hb.
Qed.

Lemma returns_speckle width height base :
  1 <= width -> 1 <= height -> im_size base = sz ->
  returns (speckle width height base) (fun im => im_size im = sz).
Proof. intros Hw Hh Hb. unfold speckle. take_draws. drawn_size Hb. Qed.
End RenderedSizeTotal.

Section MakeImage.
Context {P : PIL} {R : RandomCore} {PL : PILLaws P}.

Lemma size_blur_if (b : bool) (r : float) (im : Image) :
  im_size (if b then GaussianBlur r im else im) = im_size im.
Proof. destruct b; [apply size_blur|reflexivity]. Qed.

Lemma make_image_size (ascii_lines : list string) (params : RenderParams) :
  ascii_lines <> [] ->
  ensures (make_image ascii_lines params)
    (fun img => im_size img = canvas_size ascii_lines params).
Proof.
  intros Hne. unfold make_image.
  destruct ascii_lines as [|l0 ls]; [congruence|].
  set (ascii_lines := l0 :: ls). unfold canvas_size.
  set (width := (font_size params / 2 + spacing params) * max_len ascii_lines).
  set (height := (font_size params + 2) * Z.of_nat (List.length ascii_lines)).
  set (Q := fun im : Image => im_size im = (width, height)).
  apply ensures_bind with (Q1 := Q).
  { apply ensures_lift. intros im. apply Image_new_checked_size. }
  intros base Hbase.
  apply ensures_bind with (Q1 := fun _ => True); [apply ensures_any|intros font _].
  apply ensures_bind with (Q1 := Q).
  { apply ensures_draw_text_layer. exact Hbase. }
  clear base Hbase. intros base Hbase.
  apply ensures_bind with (Q1 := Q).
  { apply ensures_repeat_loop; [exact Hbase|].
    intros im Him. apply ensures_noise_line. exact Him. }
  clear base Hbase. intros base Hbase.
  apply ensures_bind with (Q1 := Q).
  { apply ensures_lift. intros im. apply Image_new_checked_size. }
  intros shape Hshape.
  apply ensures_bind with (Q1 := Q).
  { apply ensures_repeat_loop; [exact Hshape|].
    intros im Him. apply ensures_blur_shape. exact Him. }
  clear shape Hshape. intros shape Hshape.
  apply ensures_bind with (Q1 := Q).
  { apply ensures_repeat_loop; [exact Hshape|].
    intros im Him. apply ensures_extra_shape. exact Him. }
  clear shape Hshape. intros shape Hshape.
  apply ensures_bind with (Q1 := fun _ => True); [apply ensures_any|intros n _].
  apply ensures_bind with (Q1 := Q).
  { apply ensures_repeat_loop.
    - unfold Q. rewrite size_composite; [exact Hbase|].
      rewrite size_blur_if. unfold Q in Hshape, Hbase. congruence.
    - intros im Him. apply ensures_speckle. exact Him. }
  clear base Hbase. intros base Hbase.
  apply ensures_ret. unfold Q in *. rewrite size_convert, size_blur_if. exact Hbase.
Qed.

Context {RL : RandomLaws R}.

Lemma make_image_returns (ascii_lines : list string) (params : RenderParams) :
  ascii_lines <> [] ->
  0 <= font_size params / 2 + spacing params ->
  0 <= font_size params + 2 ->
  0 <= jitter params ->
  is_ok (speckle_count (fst (canvas_size ascii_lines params)
                        * snd (canvas_size ascii_lines params))
           (pixel_noise_density params)) = true ->
  returns (make_image ascii_lines params)
    (fun img => im_size img = canvas_size ascii_lines params).
Proof.
  intros Hne Hcw Hch Hj Hcount. unfold make_image.
  destruct ascii_lines as [|l0 ls]; [congruence|].
  set (ascii_lines := l0 :: ls) in *. unfold canvas_size in *. cbn [fst snd] in Hcount.
  set (width := (font_size params / 2 + spacing params) * max_len ascii_lines) in *.
  set (height := (font_size params + 2) * Z.of_nat (List.length ascii_lines)) in *.
  assert (Hw : 0 <= width).
  { pose proof (max_len_bound ascii_lines) as [H0 _]. unfold width. nia. }
  assert (Hh : 0 <= height) by (unfold height; nia).
  set (Q := fun im : Image => im_size im = (width, height)).
  eapply returns_bind with (Q1 := Q).
  { eapply returns_lift; [apply Image_new_checked_ok; assumption|].
    apply size_new; assumption. }
  intros base Hbase.
  destruct (load_font_ok (font_path params) (font_size params)) as [font Hfont].
  eapply returns_bind with (Q1 := fun _ => True).
  { eapply returns_lift; [exact Hfont|exact I]. }
  intros font' _.
  eapply returns_bind with (Q1 := Q).
  { apply returns_draw_text_layer; assumption. }
  clear base Hbase. intros base Hbase.
  eapply returns_bind with (Q1 := Q).
  { apply returns_repeat_loop; [exact Hbase|].
    intros im Him. apply returns_noise_line; assumption. }
  clear base Hbase. intros base Hbase.
  eapply returns_bind with (Q1 := Q).
  { eapply returns_lift; [apply Image_new_checked_ok; assumption|].
    apply size_new; assumption. }
  intros shape Hshape.
  eapply returns_bind with (Q1 := Q).
  { apply returns_repeat_loop; [exact Hshape|].
    intros im Him. apply returns_blur_shape. exact Him. }
  clear shape Hshape. intros shape Hshape.
  eapply returns_bind with (Q1 := Q).
  { apply returns_repeat_loop; [exact Hshape|].
    intros im Him. apply returns_extra_shape. exact Him. }
  clear shape Hshape. intros shape Hshape.
  destruct (speckle_count (width * height) (pixel_noise_density params))
    as [n|e] eqn:Hn; [|discriminate Hcount].
  eapply returns_bind with (Q1 := fun m => m = n).
  { eapply returns_lift; reflexivity. }
  intros n' ->.
  assert (Hcomp : Q (alpha_composite base
                       (if float_pos (shape_blur_radius params)
                        then GaussianBlur (shape_blur_radius params) shape
                        else shape))).
  { unfold Q. rewrite size_composite; [exact Hbase|].
    rewrite size_blur_if. unfold Q in Hshape, Hbase. congruence. }
  eapply returns_bind with (Q1 := Q).
  { unfold for_range. destruct (Z.to_nat n) as [|k] eqn:Hk.
    - apply returns_ret. exact Hcomp.
    - assert (Hpix : width * height <> 0).
      { intros H0. rewrite H0 in Hn. apply speckle_count_zero in Hn. lia. }
      apply returns_repeat_loop; [exact Hcomp|].
      intros im Him. apply returns_speckle; [nia|nia|exact Him]. }
  clear base Hbase Hcomp. intros base Hbase.
  apply returns_ret. unfold Q in *. rewrite size_convert, size_blur_if. exact Hbase.
Qed.
End MakeImage.

(** The recording raster keeps the laws. *)
Lemma rec_pil_laws : PILLaws Ref.pil.
Proof.
  constructor; try reflexivity.
  - intros im Hw Hh. simpl in *. rewrite length_map, length_seq. nia.
  - intros im. simpl. apply Forall_forall. intros p Hp.
    apply in_map_iff in Hp as (i & <- & _).
    pose proof (Z.mod_pos_bound (Z.of_nat i * 85) 256 ltac:(lia)). lia.
Qed.

Section CanvasSize.
Context {P : PIL} {R : RandomCore} {PL : PILLaws P} {RL : RandomLaws R}.

(** C9. For a canvas with at least one line, the image [make_image]
    returns is [(font_size // 2 + spacing)] times the length of the longest
    line wide and [(font_size + 2)] times the number of lines high. It
    does return one when the cell sizes and the jitter are not negative
    and the number of speckles [int(total * pixel_noise_density)] is
    defined. *)
Theorem C9_canvas_size (ascii_lines : list string) (params : RenderParams) :
  ascii_lines <> [] ->
  exists longest,
    In longest ascii_lines /\
    (forall l, In l ascii_lines -> py_len l <= py_len longest) /\
    let width := (font_size params / 2 + spacing params) * py_len longest in
    let height := (font_size params + 2) * Z.of_nat (List.length ascii_lines) in
    (forall st img st',
       make_image ascii_lines params st = Ok (img, st') ->
       im_width img = width /\ im_height img = height) /\
    (0 <= font_size params / 2 + spacing params ->
     0 <= font_size params + 2 ->
     0 <= jitter params ->
     is_ok (speckle_count (width * height) (pixel_noise_density params)) = true ->
     forall st, exists img st',
       make_image ascii_lines params st = Ok (img, st') /\
       im_width img = width /\ im_height img = height).
Proof.
  intros Hne.
  destruct (max_len_reached ascii_lines Hne) as (longest & Hin & Hlen).
  exists longest. split; [exact Hin|]. split.
  { intros l Hl. rewrite Hlen. apply max_len_bound. exact Hl. }
  cbv zeta. rewrite Hlen. split.
  - intros st img st' Hrun.
    pose proof (make_image_size ascii_lines params Hne st img st' Hrun) as Hsz.
    unfold im_size, canvas_size in Hsz. inversion Hsz. split; reflexivity.
  - intros Hcw Hch Hj Hcount st.
    destruct (make_image_returns ascii_lines params Hne Hcw Hch Hj Hcount st)
      as (img & st' & Hrun & Hsz).
    exists img, st'. split; [exact Hrun|].
    unfold im_size, canvas_size in Hsz. inversion Hsz. split; reflexivity.
Qed.
End CanvasSize.

Lemma C9_canvas_size_witness :
  ["$%   $%"; "W    W "] <> [] /\
  forall st, exists img st',
    @make_image Ref.pil Ref.lcg ["$%   $%"; "W    W "] Ref.small_render st
    = Ok (img, st') /\
    @im_width Ref.pil img = 35 /\ @im_height Ref.pil img = 22.
Proof.
  assert (Hne : ["$%   $%"; "W    W "] <> []) by discriminate.
  split; [exact Hne|].
  destruct (@C9_canvas_size Ref.pil Ref.lcg rec_pil_laws lcg_laws
              ["$%   $%"; "W    W "] Ref.small_render Hne)
    as (longest & Hin & _ & _ & Hret).
  assert (Hlen : py_len longest = 7).
  { destruct Hin as [<-|[<-|[]]]; reflexivity. }
  rewrite Hlen in Hret.
  apply Hret.
  - vm_compute. discriminate.
  - vm_compute. discriminate.
  - vm_compute. discriminate.
  - vm_compute. reflexivity.
Defined.

(** ** The palette in the configuration *)

Lemma deep_update_dict_cons (out : dict) (k : string) (v : json) (rest : dict) :
  deep_update_dict out (JDict ((k, v) :: rest))
  = deep_update_dict (deep_update_step out k v) (JDict rest).
Proof. reflexivity. Qed.

Lemma dict_get_set_same (k : string) (v : json) (d : dict) :
  dict_get k (dict_set k v d) = Some v.
Proof.
  induction d as [|[k' v'] d IH]; simpl.
  - rewrite String.eqb_refl. reflexivity.
  - destruct (String.eqb k k') eqn:E; simpl; rewrite E; [reflexivity|exact IH].
Qed.

Lemma dict_get_set_other (k k' : string) (v : json) (d : dict) :
  String.eqb k k' = false -> dict_get k (dict_set k' v d) = dict_get k d.
Proof.
  intros Hne. induction d as [|[k'' v''] d IH]; simpl.
  - rewrite Hne. reflexivity.
  - destruct (String.eqb k' k'') eqn:E; simpl.
    + apply String.eqb_eq in E. subst k''. rewrite Hne. reflexivity.
    + destruct (String.eqb k k''); [reflexivity|exact IH].
Qed.

Lemma dict_get_step_other (k k' : string) (v : json) (out : dict) :
  String.eqb k k' = false ->
  dict_get k (deep_update_step out k' v) = dict_get k out.
Proof.
  intros Hne. unfold deep_update_step.
  destruct v; try (apply dict_get_set_other; exact Hne).
  destruct (dict_get k' out) as [[]|]; apply dict_get_set_other; exact Hne.
Qed.

Lemma dict_get_step_str (k : string) (s : string) (out : dict) :
  dict_get k (deep_update_step out k (JStr s)) = Some (JStr s).
Proof. apply dict_get_set_same. Qed.

(** Keys the document does not bind keep their value. *)
Lemma deep_update_unbound (k : string) (items out : dict) :
  last_binding k items = None ->
  dict_get k (deep_update_dict out (JDict items)) = dict_get k out.
Proof.
  revert out. induction items as [|[k' v] rest IH]; intros out Hl.
  - reflexivity.
  - simpl in Hl. destruct (last_binding k rest) eqn:Hr; [discriminate Hl|].
    destruct (String.eqb k k') eqn:E; [discriminate Hl|].
    rewrite deep_update_dict_cons, IH by reflexivity.
    apply dict_get_step_other. exact E.
Qed.

(** A string given by the document replaces whatever was there. *)
Lemma deep_update_str (k : string) (s : string) (items out : dict) :
  last_binding k items = Some (JStr s) ->
  dict_get k (deep_update_dict out (JDict items)) = Some (JStr s).
Proof.
  revert out. induction items as [|[k' v] rest IH]; intros out Hl.
  - discriminate Hl.
  - simpl in Hl. rewrite deep_update_dict_cons.
    destruct (last_binding k rest) as [x|] eqn:Hr.
    + inversion Hl; subst x. apply IH. reflexivity.
    + destruct (String.eqb k k') eqn:E; [|discriminate Hl].
      inversion Hl; subst v. apply String.eqb_eq in E. subst k'.
      rewrite deep_update_unbound by exact Hr.
      apply dict_get_step_str.
Qed.

(** ** The glyph blocks and the canvas *)

Lemma length_append (s1 s2 : string) :
  String.length (s1 ++ s2) = (String.length s1 + String.length s2)%nat.
Proof. induction s1 as [|c s1 IH]; simpl; [reflexivity|]. rewrite IH. reflexivity. Qed.

Lemma length_substring (s : string) (n m : nat) :
  (n + m <= String.length s)%nat -> String.length (substring n m s) = m.
Proof.
  revert n m. induction s as [|c s IH]; intros n m H; simpl in H.
  - assert (n = O) by lia. assert (m = O) by lia. subst. reflexivity.
  - destruct n as [|n]; simpl.
    + destruct m as [|m]; simpl; [reflexivity|]. rewrite IH by (simpl; lia). reflexivity.
    + apply IH. lia.
Qed.

(** Rows of one length [w], joined by a separator. *)
Lemma length_concat (sep : string) (w : nat) (rows : list string) :
  rows <> [] ->
  Forall (fun row => String.length row = w) rows ->
  String.length (String.concat sep rows)
  = (List.length rows * w + (List.length rows - 1) * String.length sep)%nat.
Proof.
  intros Hne Hall. induction Hall as [|x xs Hx Hxs IH]; [congruence|].
  destruct xs as [|y ys].
  - simpl. lia.
  - change (String.concat sep (x :: y :: ys))
      with (x ++ sep ++ String.concat sep (y :: ys)).
    rewrite !length_append, IH by discriminate. simpl List.length. nia.
Qed.

Lemma range_step_exact (w h : Z) :
  1 <= w -> 0 <= h ->
  range_step (h * w) w
  = Ok (map (fun k => Z.of_nat k * w) (seq 0 (Z.to_nat h))).
Proof.
  intros Hw Hh. unfold range_step.
  destruct (Z.eqb_spec w 0); [lia|].
  destruct (Z.ltb_spec w 0); [lia|].
  replace ((h * w + w - 1) / w) with h; [reflexivity|].
  apply Z.div_unique with (r := w - 1); lia.
Qed.

(** The rows cut from a string that holds [h] rows of [w] characters. *)
Lemma rows_of_grid (s : string) (w h : Z) :
  1 <= w -> 0 <= h -> py_len s = h * w ->
  let block := map (fun i => slice s i w)
                 (map (fun k => Z.of_nat k * w) (seq 0 (Z.to_nat h))) in
  List.length block = Z.to_nat h /\ Forall (fun row => py_len row = w) block.
Proof.
  intros Hw Hh Hs block. unfold block. split.
  - rewrite !length_map, length_seq. reflexivity.
  - apply Forall_forall. intros row Hrow.
    apply in_map_iff in Hrow as (i & <- & Hi).
    apply in_map_iff in Hi as (k & <- & Hk).
    apply in_seq in Hk. unfold slice, py_len in *.
    rewrite length_substring; [lia|]. nia.
Qed.

Section Canvas.
Context {P : PIL} {PL : PILLaws P}.

(** The glyph block is cut from the pixels of a resized image of
    [glyph_side] by [glyph_side] pixels. *)
Lemma glyph_block_pixels font font_size scale ascii_chars ch :
  0 <= font_size -> scale <> 0 ->
  exists img,
    im_size img = (glyph_side font_size scale, glyph_side font_size scale) /\
    glyph_block font font_size scale ascii_chars ch
    = (let? ascii_str := map_pixels ascii_chars (im_getdata img) in
       let? starts := range_step (py_len ascii_str) (glyph_side font_size scale) in
       Ok (map (fun i => slice ascii_str i (glyph_side font_size scale)) starts)).
Proof.
  intros Hfs Hsc. unfold glyph_block.
  rewrite Image_new_checked_ok by lia. cbn [result_bind]. cbv zeta.
  destruct (Z.eqb_spec scale 0) as [|_]; [contradiction|].
  set (img := im_draw (text (10, 10) ch font (CInt 0))
                (Image_new Mode_L (font_size * 2) (font_size * 2) (CInt 255))).
  assert (Himg : im_size img = (font_size * 2, font_size * 2)).
  { unfold img. rewrite size_draw. apply size_new; lia. }
  pose proof (f_equal fst Himg) as Hw. pose proof (f_equal snd Himg) as Hh.
  cbn [im_size fst snd] in Hw, Hh. rewrite Hw, Hh.
  fold (glyph_side font_size scale).
  set (side := glyph_side font_size scale).
  assert (Hside : 1 <= side) by (unfold side, glyph_side; lia).
  exists (im_resize (side, side) img).
  assert (Himg' : im_size (im_resize (side, side) img) = (side, side))
    by (apply size_resize; assumption).
  split; [exact Himg'|].
  pose proof (f_equal fst Himg') as Hw'. cbn [im_size fst] in Hw'.
  rewrite Hw'. reflexivity.
Qed.

Lemma glyph_block_returns font font_size scale ascii_chars ch :
  0 <= font_size -> scale <> 0 -> 1 <= py_len ascii_chars ->
  exists block,
    glyph_block font font_size scale ascii_chars ch = Ok block /\
    square_block (glyph_side font_size scale) block.
Proof.
  intros Hfs Hsc Hpal.
  destruct (glyph_block_pixels font font_size scale ascii_chars ch Hfs Hsc)
    as (img & Himg & ->).
  set (side := glyph_side font_size scale) in *.
  assert (Hside : 1 <= side) by (unfold side, glyph_side; lia).
  pose proof (f_equal fst Himg) as Hw. pose proof (f_equal snd Himg) as Hh.
  cbn [im_size fst snd] in Hw, Hh.
  pose proof (getdata_length img) as Hlen. rewrite Hw, Hh in Hlen.
  specialize (Hlen ltac:(lia) ltac:(lia)).
  destruct (map_pixels_in_range ascii_chars (im_getdata img) Hpal (getdata_range img))
    as (s & -> & Hs & _).
  cbn [result_bind].
  assert (Hpy : py_len s = side * side) by (unfold py_len; lia).
  rewrite Hpy, range_step_exact by lia. cbn [result_bind].
  eexists. split; [reflexivity|].
  apply rows_of_grid; lia.
Qed.

(** With the empty palette the first pixel of the first glyph fails. *)
Lemma glyph_block_empty_palette font font_size scale ch :
  0 <= font_size -> scale <> 0 ->
  glyph_block font font_size scale "" ch = Raise IndexError.
Proof.
  intros Hfs Hsc.
  destruct (glyph_block_pixels font font_size scale "" ch Hfs Hsc)
    as (img & Himg & ->).
  set (side := glyph_side font_size scale) in *.
  assert (Hside : 1 <= side) by (unfold side, glyph_side; lia).
  pose proof (f_equal fst Himg) as Hw. pose proof (f_equal snd Himg) as Hh.
  cbn [im_size fst snd] in Hw, Hh.
  pose proof (getdata_length img) as Hlen. rewrite Hw, Hh in Hlen.
  specialize (Hlen ltac:(lia) ltac:(lia)).
  destruct (im_getdata img) as [|p ps]; [simpl in Hlen; nia|].
  cbn [map_pixels]. rewrite map_pixel_empty. reflexivity.
Qed.

Lemma glyph_blocks_returns font font_size scale ascii_chars chars :
  0 <= font_size -> scale <> 0 -> 1 <= py_len ascii_chars ->
  exists blocks,
    glyph_blocks font font_size scale ascii_chars chars = Ok blocks /\
    List.length blocks = List.length chars /\
    Forall (square_block (glyph_side font_size scale)) blocks.
Proof.
  intros Hfs Hsc Hpal. induction chars as [|ch chars IH]; simpl.
  - exists []. repeat split. constructor.
  - destruct (glyph_block_returns font font_size scale ascii_chars ch Hfs Hsc Hpal)
      as (b & -> & Hb).
    destruct IH as (bs & -> & Hlen & Hall). cbn [result_bind].
    exists (b :: bs). split; [reflexivity|]. split; [simpl; congruence|].
    constructor; assumption.
Qed.

Lemma row_of_blocks_returns (side : Z) (blocks : list (list string)) (r : Z) :
  0 <= r < side -> Forall (square_block side) blocks ->
  exists row,
    row_of_blocks blocks r = Ok row /\
    List.length row = List.length blocks /\
    Forall (fun x => py_len x = side) row.
Proof.
  intros Hr Hall. induction Hall as [|b bs [Hlen Hrows] _ IH]; simpl.
  - exists []. repeat split. constructor.
  - destruct (list_getitem_in_range b r) as (x & -> & Hin); [lia|].
    destruct IH as (xs & -> & Hl & Hxs). cbn [result_bind].
    exists (x :: xs). split; [reflexivity|]. split; [simpl; congruence|].
    constructor; [|exact Hxs]. rewrite Forall_forall in Hrows. apply Hrows. exact Hin.
Qed.

Lemma combine_rows_returns (side : Z) (blocks : list (list string)) (rows : list Z) :
  blocks <> [] -> Forall (square_block side) blocks ->
  Forall (fun r => 0 <= r < side) rows ->
  exists ascii_lines,
    combine_rows blocks rows = Ok ascii_lines /\
    List.length ascii_lines = List.length rows /\
    Forall (fun l => py_len l = line_length (Z.of_nat (List.length blocks)) side)
      ascii_lines.
Proof.
  intros Hne Hblocks Hrows. induction Hrows as [|r rs Hr _ IH]; simpl.
  - exists []. repeat split. constructor.
  - destruct (row_of_blocks_returns side blocks r Hr Hblocks) as (row & -> & Hl & Hrow).
    destruct IH as (ls & -> & Hlen & Hls). cbn [result_bind].
    eexists. split; [reflexivity|]. split; [simpl; congruence|].
    constructor; [|exact Hls].
    assert (Hrow' : Forall (fun x => String.length x = Z.to_nat side) row).
    { eapply Forall_impl; [|exact Hrow]. intros x Hx. unfold py_len in Hx. lia. }
    assert (Hrne : row <> []).
    { intros ->. simpl in Hl. destruct blocks; [congruence|discriminate Hl]. }
    unfold py_len, line_length.
    rewrite (length_concat "   " (Z.to_nat side) row Hrne Hrow'), Hl.
    assert (0 < List.length blocks)%nat by (destruct blocks; [congruence|simpl; lia]).
    simpl String.length. lia.
Qed.

(** A code with a character other than a space gives a canvas of
    [glyph_side] lines, all of one length. *)
Lemma text_to_ascii_lines_returns text font_path font_size scale ascii_chars :
  remove_spaces text <> "" ->
  0 <= font_size -> scale <> 0 -> 1 <= py_len ascii_chars ->
  exists ascii_lines,
    _text_to_ascii_lines text font_path font_size scale ascii_chars = Ok ascii_lines /\
    Z.of_nat (List.length ascii_lines) = glyph_side font_size scale /\
    Forall (fun l => py_len l
                     = line_length (py_len (remove_spaces text))
                         (glyph_side font_size scale)) ascii_lines.
Proof.
  intros Hne Hfs Hsc Hpal. unfold _text_to_ascii_lines.
  destruct text as [|c0 text]; [simpl in Hne; congruence|]. cbn [str_falsy].
  destruct (load_font_ok font_path font_size) as [font ->]. cbn [result_bind].
  set (chars := list_ascii_of_string (remove_spaces (String c0 text))).
  destruct (glyph_blocks_returns font font_size scale ascii_chars chars Hfs Hsc Hpal)
    as (blocks & -> & Hlen & Hall).
  cbn [result_bind].
  assert (Hchars : List.length chars = String.length (remove_spaces (String c0 text))).
  { unfold chars. generalize (remove_spaces (String c0 text)).
    intros s. induction s; simpl; congruence. }
  assert (Hpos : (0 < List.length chars)%nat).
  { rewrite Hchars. destruct (remove_spaces (String c0 text)); [congruence|simpl; lia]. }
  destruct blocks as [|b bs]; [simpl in Hlen; lia|].
  change (list_getitem (b :: bs) 0) with (Ok b). cbn [result_bind].
  set (side := glyph_side font_size scale) in *.
  assert (Hside : 1 <= side) by (unfold side, glyph_side; lia).
  assert (Hb : List.length b = Z.to_nat side) by (inversion Hall as [|? ? [H _] _]; exact H).
  destruct (combine_rows_returns side (b :: bs) (map Z.of_nat (seq 0 (List.length b))))
    as (ls & Hls & Hl & Hlines); [discriminate|exact Hall| |].
  { apply Forall_forall. intros r Hr. apply in_map_iff in Hr as (k & <- & Hk).
    apply in_seq in Hk. lia. }
  exists ls. split; [exact Hls|]. split.
  - rewrite Hl, length_map, length_seq, Hb. lia.
  - eapply Forall_impl; [|exact Hlines]. intros l Hl'. rewrite Hl'.
    unfold py_len. rewrite Hlen, Hchars. reflexivity.
Qed.

(** With the empty palette a code that has a character other than a space
    fails at the mapping step. *)
Lemma text_to_ascii_lines_empty_palette text font_path font_size scale :
  remove_spaces text <> "" -> 0 <= font_size -> scale <> 0 ->
  _text_to_ascii_lines text font_path font_size scale "" = Raise IndexError.
Proof.
  intros Hne Hfs Hsc. unfold _text_to_ascii_lines.
  destruct text as [|c0 text]; [simpl in Hne; congruence|]. cbn [str_falsy].
  destruct (load_font_ok font_path font_size) as [font ->]. cbn [result_bind].
  destruct (remove_spaces (String c0 text)) as [|ch rest]; [congruence|].
  cbn [list_ascii_of_string glyph_blocks].
  rewrite glyph_block_empty_palette by assumption. reflexivity.
Qed.
End Canvas.

Lemma max_len_uniform (ascii_lines : list string) (n : Z) :
  ascii_lines <> [] -> 0 <= n ->
  Forall (fun l => py_len l = n) ascii_lines ->
  max_len ascii_lines = n.
Proof.
  intros Hne Hn Hall. induction Hall as [|l ls Hl Hls IH]; [congruence|].
  simpl. destruct ls as [|l' ls'].
  - simpl. lia.
  - rewrite IH by discriminate. lia.
Qed.

Section EndToEnd.
Context {P : PIL} {R : RandomCore} {PL : PILLaws P} {RL : RandomLaws R}.

Lemma run_with_rng_returns {A} (seed : option Z) (c : M A) (Q : A -> Prop) (g : rng_state) :
  returns c Q -> exists a g', run_with_rng seed c g = Ok (a, g') /\ Q a.
Proof.
  intros Hc. unfold run_with_rng.
  destruct (Hc {| rng_arg := option_map rng_seed seed; rng_module := g |})
    as (a & st & -> & Ha).
  exists a, (rng_module st). split; [reflexivity|exact Ha].
Qed.

(** The rendering of a code that has a character other than a space
    returns an image of the size the glyph blocks give. *)
Lemma render_code_returns (code : string) (tta : TextToAsciiParams)
    (ascii_chars : string) (params : RenderParams) :
  remove_spaces code <> "" ->
  0 <= tta_font_size tta -> tta_scale tta <> 0 -> 1 <= py_len ascii_chars ->
  0 <= font_size params / 2 + spacing params ->
  0 <= font_size params + 2 ->
  0 <= jitter params ->
  let side := glyph_side (tta_font_size tta) (tta_scale tta) in
  let width := (font_size params / 2 + spacing params)
               * line_length (py_len (remove_spaces code)) side in
  let height := (font_size params + 2) * side in
  is_ok (speckle_count (width * height) (pixel_noise_density params)) = true ->
  returns
    (ascii_lines <- lift (_text_to_ascii_lines code (tta_font_path tta)
                            (tta_font_size tta) (tta_scale tta) ascii_chars) ;;
     img <- make_image ascii_lines params ;;
     ret (img, code))
    (fun r => snd r = code /\ im_size (fst r) = (width, height)).
Proof.
  intros Hcode Hfs Hsc Hpal Hcw Hch Hj side width height Hcount.
  destruct (text_to_ascii_lines_returns code (tta_font_path tta) (tta_font_size tta)
              (tta_scale tta) ascii_chars Hcode Hfs Hsc Hpal)
    as (ascii_lines & Hlines & Hrows & Hcols).
  fold side in Hrows, Hcols.
  assert (Hside : 1 <= side) by (unfold side, glyph_side; lia).
  assert (Hne : ascii_lines <> []) by (intros ->; simpl in Hrows; lia).
  assert (Hn : 1 <= py_len (remove_spaces code)).
  { unfold py_len. destruct (remove_spaces code); [congruence|simpl; lia]. }
  assert (Hmax : max_len ascii_lines = line_length (py_len (remove_spaces code)) side).
  { apply max_len_uniform; [exact Hne|unfold line_length; nia|exact Hcols]. }
  assert (Hcanvas : canvas_size ascii_lines params = (width, height)).
  { unfold canvas_size. rewrite Hmax, Hrows. reflexivity. }
  eapply returns_bind with (Q1 := fun ls => ls = ascii_lines).
  { eapply returns_lift; [exact Hlines|reflexivity]. }
  intros ls ->.
  eapply returns_bind with (Q1 := fun img => im_size img = (width, height)).
  { rewrite <- Hcanvas. apply make_image_returns; try assumption.
    rewrite Hcanvas. exact Hcount. }
  intros img Himg. apply returns_ret. split; [reflexivity|exact Himg].
Qed.
End EndToEnd.

(** ** A fixed code *)

Section FixedCode.
Context {P : PIL} {R : RandomCore}.

Lemma run_with_rng_ensures {A} (seed : option Z) (c : M A) (Q : A -> Prop) :
  ensures c Q ->
  forall g a g', run_with_rng seed c g = Ok (a, g') -> Q a.
Proof.
  intros Hc g a g' Hrun. unfold run_with_rng in Hrun.
  destruct (c _) as [[a0 st]|e] eqn:Ec; [|discriminate Hrun].
  inversion Hrun; subst. exact (Hc _ _ _ Ec).
Qed.

(** With a fixed code that is not empty, the call is the rendering of that
    code: [generate_code] is not called. *)
Lemma generate_image_from_cfg_fixed (cfg : AppConfig) (s : string) (g : rng_state) :
  fixed_code cfg = Some s -> s <> "" ->
  generate_image_from_cfg cfg g
  = run_with_rng (random_seed cfg)
      (ascii_lines <- lift (_text_to_ascii_lines s
                              (tta_font_path (text_to_ascii cfg))
                              (tta_font_size (text_to_ascii cfg))
                              (tta_scale (text_to_ascii cfg))
                              (ascii_chars cfg)) ;;
       img <- make_image ascii_lines (render cfg) ;;
       ret (img, s)) g.
Proof.
  intros Hfc Hne. unfold generate_image_from_cfg. rewrite Hfc. unfold str_or.
  destruct s as [|c s]; [congruence|]. reflexivity.
Qed.

Context {PL : PILLaws P} {RL : RandomLaws R}.

(** C5, as the code has it. A fixed code that is not the empty string
    bypasses the generator: the call is the rendering of that code, and the
    code it returns is the fixed code, unchanged, whatever its characters.
    The call does return, with that code, when the code has a character
    other than a space, the palette is not empty, the scale is not zero,
    the sizes and the jitter are not negative and the number of speckles is
    defined. (The empty string counts as no fixed code.) *)
Theorem C5_fixed_code_pass_through (cfg : AppConfig) (s : string) (g : rng_state) :
  fixed_code cfg = Some s -> s <> "" ->
  generate_image_from_cfg cfg g
  = run_with_rng (random_seed cfg)
      (ascii_lines <- lift (_text_to_ascii_lines s
                              (tta_font_path (text_to_ascii cfg))
                              (tta_font_size (text_to_ascii cfg))
                              (tta_scale (text_to_ascii cfg))
                              (ascii_chars cfg)) ;;
       img <- make_image ascii_lines (render cfg) ;;
       ret (img, s)) g /\
  (forall img code g',
     generate_image_from_cfg cfg g = Ok ((img, code), g') -> code = s) /\
  (remove_spaces s <> "" ->
   0 <= tta_font_size (text_to_ascii cfg) ->
   tta_scale (text_to_ascii cfg) <> 0 ->
   1 <= py_len (ascii_chars cfg) ->
   0 <= font_size (render cfg) / 2 + spacing (render cfg) ->
   0 <= font_size (render cfg) + 2 ->
   0 <= jitter (render cfg) ->
   is_ok (speckle_count
            ((font_size (render cfg) / 2 + spacing (render cfg))
             * line_length (py_len (remove_spaces s))
                 (glyph_side (tta_font_size (text_to_ascii cfg))
                    (tta_scale (text_to_ascii cfg)))
             * ((font_size (render cfg) + 2)
                * glyph_side (tta_font_size (text_to_ascii cfg))
                    (tta_scale (text_to_ascii cfg))))
            (pixel_noise_density (render cfg))) = true ->
   exists img g', generate_image_from_cfg cfg g = Ok ((img, s), g')).
Proof.
  intros Hfc Hne.
  pose proof (generate_image_from_cfg_fixed cfg s g Hfc Hne) as Heq.
  split; [exact Heq|]. split.
  - intros img code g' Hrun. rewrite Heq in Hrun.
    refine (run_with_rng_ensures (random_seed cfg) _ (fun r => snd r = s) _ g
              (img, code) g' Hrun).
    eapply ensures_bind; [apply ensures_any|intros ascii_lines _].
    eapply ensures_bind; [apply ensures_any|intros im _].
    apply ensures_ret. reflexivity.
  - intros Hcode Hfs Hsc Hpal Hcw Hch Hj Hcount. rewrite Heq.
    destruct (run_with_rng_returns (random_seed cfg) _ _ g
                (render_code_returns s (text_to_ascii cfg) (ascii_chars cfg)
                   (render cfg) Hcode Hfs Hsc Hpal Hcw Hch Hj Hcount))
      as ([img code] & g' & Hrun & Hc & _).
    simpl in Hc. subst code. exists img, g'. exact Hrun.
Qed.
End FixedCode.

Lemma C5_counterexample :
  fixed_code (Ref.small_cfg (Some 42) (Some "") 6) = Some "" /\
  code_of (@generate_image_from_cfg Ref.pil Ref.lcg
             (Ref.small_cfg (Some 42) (Some "") 6) 7) = Some "UIOWYA".
Proof. split; [reflexivity|]. vm_compute. reflexivity. Qed.

Lemma C5_fixed_code_pass_through_witness :
  fixed_code (Ref.small_cfg (Some 42) (Some "A B") 6) = Some "A B" /\
  "A B" <> "" /\
  (forall img code g',
     @generate_image_from_cfg Ref.pil Ref.lcg
       (Ref.small_cfg (Some 42) (Some "A B") 6) 7 = Ok ((img, code), g') ->
     code = "A B") /\
  exists img g',
    @generate_image_from_cfg Ref.pil Ref.lcg
      (Ref.small_cfg (Some 42) (Some "A B") 6) 7 = Ok ((img, "A B"), g').
Proof.
  assert (Hne : "A B" <> "") by discriminate.
  pose proof (@C5_fixed_code_pass_through Ref.pil Ref.lcg rec_pil_laws lcg_laws
                (Ref.small_cfg (Some 42) (Some "A B") 6) "A B" 7 eq_refl Hne)
    as (_ & Hcode & Hret).
  split; [reflexivity|]. split; [exact Hne|]. split; [exact Hcode|].
  apply Hret.
  - discriminate.
  - vm_compute. discriminate.
  - discriminate.
  - vm_compute. discriminate.
  - vm_compute. discriminate.
  - vm_compute. discriminate.
  - vm_compute. discriminate.
  - vm_compute. reflexivity.
Defined.

(** ** The palette in the configuration, end to end *)

Section Palette.
Context {B : Builtins} {P : PIL} {PL : PILLaws P}.

Ltac invert_binds H :=
  repeat match type of H with
         | result_bind ?r _ = Ok _ =>
             let E := fresh "E" in
             destruct r eqn:E; [cbn [result_bind] in H|discriminate H]
         end.

Lemma load_config_ascii_chars (items : dict) (s : string) (cfg : AppConfig) :
  last_binding "ascii_chars" items = Some (JStr s) ->
  load_config (JDict items) = Ok cfg ->
  ascii_chars cfg = s.
Proof.
  intros Hl Hload. unfold load_config in Hload.
  change (_deep_update defaults (JDict items))
    with (Ok (deep_update_dict defaults (JDict items))) in Hload.
  cbn [result_bind] in Hload.
  pose proof (deep_update_str "ascii_chars" s items defaults Hl) as Hget.
  unfold dict_item in Hload at 4. rewrite Hget in Hload.
  invert_binds Hload.
  inversion Hload; subst cfg. simpl.
  match goal with E : as_str (JStr s) = Ok _ |- _ => inversion E; reflexivity end.
Qed.

Lemma map_pixel_single (c : ascii) (p : Z) :
  0 <= p <= 255 -> map_pixel (String c "") p = Ok c.
Proof.
  intros Hp. unfold map_pixel, palette_index.
  change (py_len (String c "")) with 1. rewrite Z.mul_0_r. reflexivity.
Qed.

(** C6, as the code has it. [load_config] does not validate the palette:
    the string the document gives for [ascii_chars], of any length, is the
    palette of the configuration it returns, and it reaches the mapping
    step. There a palette of one character maps every luminance to that
    character, so [_text_to_ascii_lines] returns its canvas; the empty
    palette raises [IndexError] at the first pixel, so
    [_text_to_ascii_lines] fails on every code that has a character other
    than a space. *)
Theorem C6_palette_not_validated :
  (forall items s cfg,
     last_binding "ascii_chars" items = Some (JStr s) ->
     load_config (JDict items) = Ok cfg ->
     ascii_chars cfg = s) /\
  (forall s, exists cfg,
     load_config (JDict [("ascii_chars", JStr s)]) = Ok cfg /\
     ascii_chars cfg = s) /\
  (forall c p, 0 <= p <= 255 -> map_pixel (String c "") p = Ok c) /\
  (forall p, map_pixel "" p = Raise IndexError) /\
  (forall text font_path font_size scale,
     remove_spaces text <> "" -> 0 <= font_size -> scale <> 0 ->
     (forall c, is_ok (_text_to_ascii_lines text font_path font_size scale
                         (String c "")) = true) /\
     _text_to_ascii_lines text font_path font_size scale "" = Raise IndexError).
Proof.
  split; [exact load_config_ascii_chars|]. split; [|split; [|split]].
  - intros s. eexists. split; reflexivity.
  - exact map_pixel_single.
  - exact map_pixel_empty.
  - intros text font_path font_size scale Hne Hfs Hsc. split.
    + intros c.
      destruct (text_to_ascii_lines_returns text font_path font_size scale
                  (String c "") Hne Hfs Hsc) as (ls & -> & _).
      * unfold py_len. simpl. lia.
      * reflexivity.
    + apply text_to_ascii_lines_empty_palette; assumption.
Qed.
End Palette.

Lemma C6_counterexample :
  exists cfg,
    @load_config Ref.builtins (JDict [("ascii_chars", JStr "#")]) = Ok cfg /\
    py_len (ascii_chars cfg) < 2 /\
    @_text_to_ascii_lines Ref.pil "A" None 2 2 (ascii_chars cfg) = Ok ["##"; "##"].
Proof. eexists. split; [reflexivity|]. split; [reflexivity|]. vm_compute. reflexivity. Qed.

Lemma C6_palette_not_validated_witness :
  last_binding "ascii_chars"
    [("code_length", JInt 4); ("ascii_chars", JStr "#")] = Some (JStr "#") /\
  (forall cfg,
     @load_config Ref.builtins
       (JDict [("code_length", JInt 4); ("ascii_chars", JStr "#")]) = Ok cfg ->
     ascii_chars cfg = "#") /\
  0 <= 128 <= 255 /\
  map_pixel "#" 128 = Ok "#"%char /\
  remove_spaces "A B" <> "" /\
  @_text_to_ascii_lines Ref.pil "A B" None 2 2 "" = Raise IndexError.
Proof.
  pose proof (@C6_palette_not_validated Ref.builtins Ref.pil rec_pil_laws)
    as (Hload & _ & Hone & _ & Htext).
  assert (Hne : remove_spaces "A B" <> "") by discriminate.
  split; [reflexivity|]. split; [intros cfg; apply Hload; reflexivity|].
  split; [lia|]. split; [apply Hone; lia|]. split; [exact Hne|].
  apply (Htext "A B" None 2 2 Hne); [lia|discriminate].
Defined.

(** * Further properties *)

(** ** [_deep_update] *)

Lemma dict_get_step_same (k : string) (v : json) (out : dict) :
  has_key k (deep_update_step out k v).
Proof.
  unfold has_key, deep_update_step.
  destruct v; try (rewrite dict_get_set_same; discriminate).
  destruct (dict_get k out) as [[]|]; rewrite dict_get_set_same; discriminate.
Qed.

Lemma has_key_step (k k' : string) (v : json) (out : dict) :
  has_key k out -> has_key k (deep_update_step out k' v).
Proof.
  intros Hk. destruct (String.eqb k k') eqn:E.
  - apply String.eqb_eq in E. subst k'. apply dict_get_step_same.
  - unfold has_key. rewrite dict_get_step_other by exact E. exact Hk.
Qed.

Lemma has_key_deep_update (k : string) (items out : dict) :
  has_key k out -> has_key k (deep_update_dict out (JDict items)).
Proof.
  revert out. induction items as [|[k' v] rest IH]; intros out Hk.
  - exact Hk.
  - rewrite deep_update_dict_cons. apply IH. apply has_key_step. exact Hk.
Qed.

Lemma bound_key_deep_update (k : string) (items out : dict) :
  last_binding k items <> None -> has_key k (deep_update_dict out (JDict items)).
Proof.
  revert out. induction items as [|[k' v] rest IH]; intros out Hb.
  - simpl in Hb. congruence.
  - rewrite deep_update_dict_cons. simpl in Hb.
    destruct (last_binding k rest) eqn:Hr.
    + apply IH. discriminate.
    + destruct (String.eqb k k') eqn:E; [|congruence].
      apply String.eqb_eq in E. subst k'.
      apply has_key_deep_update. apply dict_get_step_same.
Qed.

(** X1. The keys of [_deep_update(base, extra)] for a dictionary [extra]
    are the keys of [base] and the keys of [extra]: no key is dropped and
    none is invented; a key [extra] does not bind keeps the value it has in
    [base]. *)
Theorem X1_deep_update_keys (base items : dict) :
  exists out,
    _deep_update base (JDict items) = Ok out /\
    (forall k, has_key k out <-> has_key k base \/ last_binding k items <> None) /\
    (forall k, last_binding k items = None -> dict_get k out = dict_get k base).
Proof.
  exists (deep_update_dict base (JDict items)). split; [reflexivity|]. split.
  - intros k. split.
    + intros Hk. destruct (last_binding k items) eqn:Hl.
      * right. discriminate.
      * left. unfold has_key in *. rewrite deep_update_unbound in Hk by exact Hl.
        exact Hk.
    + intros [Hk|Hb].
      * apply has_key_deep_update. exact Hk.
      * apply bound_key_deep_update. exact Hb.
  - intros k Hl. apply deep_update_unbound. exact Hl.
Qed.

Lemma deep_update_dict_app (pre rest out : dict) :
  deep_update_dict out (JDict (pre ++ rest))
  = deep_update_dict (deep_update_dict out (JDict pre)) (JDict rest).
Proof.
  revert out. induction pre as [|[k v] pre IH]; intros out.
  - reflexivity.
  - change (((k, v) :: pre) ++ rest)%list with ((k, v) :: (pre ++ rest))%list.
    rewrite !deep_update_dict_cons. apply IH.
Qed.

Lemma deep_update_binds_once (k : string) (v : json) (items base : dict) :
  binds_once items k v ->
  dict_get k (deep_update_dict base (JDict items))
  = dict_get k (deep_update_step base k v).
Proof.
  intros (pre & post & -> & Hpre & Hpost).
  rewrite deep_update_dict_app, deep_update_dict_cons.
  rewrite deep_update_unbound by exact Hpost.
  set (mid := deep_update_dict base (JDict pre)).
  assert (Hmid : dict_get k mid = dict_get k base)
    by (apply deep_update_unbound; exact Hpre).
  unfold deep_update_step. rewrite Hmid.
  destruct v; try (rewrite !dict_get_set_same; reflexivity).
  destruct (dict_get k base) as [[]|]; rewrite !dict_get_set_same; reflexivity.
Qed.

(** X2. Nested objects merge field by field. When [extra] binds [k] once:
    a dictionary given for a key that holds a dictionary in [base] is
    merged into it by [_deep_update] itself; a dictionary given where
    [base] holds no dictionary, and any value that is not a dictionary,
    replace what was there. *)
Theorem X2_deep_update_nested (base items : dict) (k : string) (v : json) :
  binds_once items k v ->
  exists out,
    _deep_update base (JDict items) = Ok out /\
    (forall d sub,
       v = JDict d -> dict_get k base = Some (JDict sub) ->
       exists merged,
         _deep_update sub (JDict d) = Ok merged /\
         dict_get k out = Some (JDict merged)) /\
    (forall d,
       v = JDict d -> (forall sub, dict_get k base <> Some (JDict sub)) ->
       dict_get k out = Some v) /\
    (not_dict v -> dict_get k out = Some v).
Proof.
  intros Hb. exists (deep_update_dict base (JDict items)).
  split; [reflexivity|].
  rewrite (deep_update_binds_once k v items base Hb). unfold deep_update_step.
  split; [|split].
  - intros d sub -> Hsub. rewrite Hsub.
    exists (deep_update_dict sub (JDict d)). split; [reflexivity|].
    apply dict_get_set_same.
  - intros d -> Hno.
    destruct (dict_get k base) as [[]|] eqn:E; try apply dict_get_set_same.
    exfalso. exact (Hno _ eq_refl).
  - intros Hv. destruct v; try apply dict_get_set_same. destruct Hv.
Qed.

Lemma X2_deep_update_nested_witness :
  binds_once [("render", JDict [("jitter", JInt 3)]); ("note", JStr "x")]
    "render" (JDict [("jitter", JInt 3)]) /\
  exists out,
    _deep_update
      [("render", JDict [("font_size", JInt 9); ("jitter", JInt 1)])]
      (JDict [("render", JDict [("jitter", JInt 3)]); ("note", JStr "x")]) = Ok out /\
    dict_get "render" out
    = Some (JDict [("font_size", JInt 9); ("jitter", JInt 3)]).
Proof.
  assert (Hb : binds_once [("render", JDict [("jitter", JInt 3)]); ("note", JStr "x")]
                 "render" (JDict [("jitter", JInt 3)])).
  { exists [], [("note", JStr "x")]. repeat split. }
  split; [exact Hb|].
  destruct (X2_deep_update_nested
              [("render", JDict [("font_size", JInt 9); ("jitter", JInt 1)])]
              _ "render" _ Hb) as (out & Hout & Hmerge & _ & _).
  exists out. split; [exact Hout|].
  destruct (Hmerge _ _ eq_refl eq_refl) as (merged & Hm & Hget).
  rewrite Hget. inversion Hm. reflexivity.
Defined.

(** ** [load_config] *)

Section LoadConfigProperties.
Context {B : Builtins}.

Lemma load_config_dict (items : dict) :
  load_config (JDict items)
  = (let? merged := Ok (deep_update_dict defaults (JDict items)) in
     let tta := dict_get_default "text_to_ascii" (JDict []) merged in
     let rp := dict_get_default "render" (JDict []) merged in
     let? o := dict_item "output" merged in
     let? o := as_str o in
     let? pc := dict_item "print_code" merged in
     let? pc := as_bool pc in
     let? duo := as_opt_str (dict_get_default "data_url_output" JNull merged) in
     let? cl := dict_item "code_length" merged in
     let? cl := py_int cl in
     let? seed := as_opt_int (dict_get_default "random_seed" JNull merged) in
     let? fc := as_opt_str (dict_get_default "fixed_code" JNull merged) in
     let? ac := dict_item "ascii_chars" merged in
     let? ac := as_str ac in
     let? tta := as_dict tta in
     let? tfp := as_opt_str (dict_get_default "font_path" JNull tta) in
     let? tfs := py_int (dict_get_default "font_size" (JInt 40) tta) in
     let? tsc := py_int (dict_get_default "scale" (JInt 2) tta) in
     let? rp := as_dict rp in
     let? rfp := as_opt_str (dict_get_default "font_path" JNull rp) in
     let? rfs := py_int (dict_get_default "font_size" (JInt 9) rp) in
     let? rsp := py_int (dict_get_default "spacing" (JInt 1) rp) in
     let? rnl := py_int (dict_get_default "noise_lines" (JInt 24) rp) in
     let? rbs := py_int (dict_get_default "blur_shapes" (JInt 40) rp) in
     let rab := truthy (dict_get_default "apply_blur" (JBool true) rp) in
     let? rens := py_int (dict_get_default "extra_noise_shapes" (JInt 30) rp) in
     let? rpnd := py_float (dict_get_default "pixel_noise_density" (JFloat 0.04%float) rp) in
     let? rj := py_int (dict_get_default "jitter" (JInt 1) rp) in
     let? rgbr := py_float (dict_get_default "gaussian_blur_radius" (JFloat 1.1%float) rp) in
     let? rsbr := py_float (dict_get_default "shape_blur_radius" (JFloat 2.0%float) rp) in
     Ok {| output := o; print_code := pc; data_url_output := duo;
           code_length := cl; random_seed := seed; fixed_code := fc;
           ascii_chars := ac;
           text_to_ascii :=
             {| tta_font_path := tfp; tta_font_size := tfs; tta_scale := tsc |};
           render :=
             {| font_path := rfp; font_size := rfs; spacing := rsp;
                noise_lines := rnl; blur_shapes := rbs; apply_blur := rab;
                extra_noise_shapes := rens; pixel_noise_density := rpnd;
                jitter := rj; gaussian_blur_radius := rgbr;
                shape_blur_radius := rsbr |} |}).
Proof. reflexivity. Qed.

Lemma load_config_unbound (items : dict) :
  Forall (fun k => last_binding k items = None) known_keys ->
  load_config (JDict items) = Ok default_AppConfig.
Proof.
  intros Hall. rewrite load_config_dict. cbn [result_bind]. cbv zeta.
  unfold dict_item, dict_get_default. unfold known_keys in Hall.
  repeat match goal with
         | H : Forall _ (_ :: _) |- _ =>
             let Hk := fresh "Hk" in
             let Hr := fresh "Hr" in
             inversion H as [|? ? Hk Hr]; subst; clear H;
             rewrite ?(deep_update_unbound _ items defaults Hk)
         end.
  reflexivity.
Qed.

(** X3. A document that binds none of the nine known keys, whatever else it
    binds, loads as the dataclass defaults [AppConfig()]: unknown keys are
    ignored and the defaults written in [load_config] agree with the
    defaults of the dataclasses. A document that is not an object loads as
    the defaults when it is falsy and raises [AttributeError] otherwise. *)
Theorem X3_load_config_defaults (user : json) :
  (forall items,
     user = JDict items ->
     Forall (fun k => last_binding k items = None) known_keys ->
     load_config user = Ok default_AppConfig) /\
  (not_dict user ->
   load_config user
   = if truthy user then Raise AttributeError else Ok default_AppConfig).
Proof.
  split.
  - intros items -> Hall. apply load_config_unbound. exact Hall.
  - intros Hnd. unfold load_config, _deep_update.
    destruct user; try destruct Hnd; destruct (truthy _); reflexivity.
Qed.
End LoadConfigProperties.

Lemma X3_load_config_defaults_witness :
  Forall (fun k => last_binding k [("comment", JStr "hello"); ("Render", JNull)] = None)
    known_keys /\
  @load_config Ref.builtins (JDict [("comment", JStr "hello"); ("Render", JNull)])
  = Ok default_AppConfig.
Proof.
  assert (H : Forall (fun k => last_binding k [("comment", JStr "hello"); ("Render", JNull)]
                               = None) known_keys)
    by (repeat constructor).
  split; [exact H|].
  exact (proj1 (@X3_load_config_defaults Ref.builtins _) _ eq_refl H).
Defined.

(** Reads a successful run of [let?] steps back into one equation a step. *)
Ltac invert_ok H :=
  repeat match type of H with
         | result_bind ?r _ = Ok _ =>
             let E := fresh "E" in
             destruct r eqn:E; [cbn [result_bind] in H|discriminate H]
         end.

Section LoadConfigErrors.
Context {B : Builtins}.












Lemma merged_group (items : dict) (k : string) (d sub : dict) :
  binds_once items k (JDict d) ->
  dict_get k defaults = Some (JDict sub) ->
  dict_get k (deep_update_dict defaults (JDict items))
  = Some (JDict (deep_update_dict sub (JDict d))).
Proof.
  intros Hb Hsub. rewrite (deep_update_binds_once k (JDict d) items defaults Hb).
  unfold deep_update_step. rewrite Hsub. apply dict_get_set_same.
Qed.

Ltac unbound_field E Hf :=
  unfold dict_get_default in E;
  rewrite (deep_update_unbound _ _ _ Hf) in E;
  simpl in E; inversion E; reflexivity.

Ltac unbound_fields group :=
  repeat split; intros Hf;
  try (unfold dict_get_default, group;
       rewrite (deep_update_unbound _ _ _ Hf); reflexivity);
  match goal with
  | E : _ (dict_get_default ?k _ group) = Ok ?x |- ?x = _ =>
      match type of Hf with
      | last_binding k _ = None => unfold group in E; unbound_field E Hf
      end
  end.

(** X5. The nested groups merge field by field: when the document gives a
    [render] (or [text_to_ascii]) object, every field that object does not
    bind keeps its default in the configuration [load_config] returns; the
    object does not replace the group wholesale. *)
Theorem X5_load_config_group_defaults (items : dict) (cfg : AppConfig) :
  load_config (JDict items) = Ok cfg ->
  (forall rd, binds_once items "render" (JDict rd) ->
     (last_binding "font_path" rd = None -> font_path (render cfg) = None) /\
     (last_binding "font_size" rd = None -> font_size (render cfg) = 9) /\
     (last_binding "spacing" rd = None -> spacing (render cfg) = 1) /\
     (last_binding "noise_lines" rd = None -> noise_lines (render cfg) = 24) /\
     (last_binding "blur_shapes" rd = None -> blur_shapes (render cfg) = 40) /\
     (last_binding "apply_blur" rd = None -> apply_blur (render cfg) = true) /\
     (last_binding "extra_noise_shapes" rd = None ->
      extra_noise_shapes (render cfg) = 30) /\
     (last_binding "pixel_noise_density" rd = None ->
      pixel_noise_density (render cfg) = 0.04%float) /\
     (last_binding "jitter" rd = None -> jitter (render cfg) = 1) /\
     (last_binding "gaussian_blur_radius" rd = None ->
      gaussian_blur_radius (render cfg) = 1.1%float) /\
     (last_binding "shape_blur_radius" rd = None ->
      shape_blur_radius (render cfg) = 2.0%float)) /\
  (forall td, binds_once items "text_to_ascii" (JDict td) ->
     (last_binding "font_path" td = None -> tta_font_path (text_to_ascii cfg) = None) /\
     (last_binding "font_size" td = None -> tta_font_size (text_to_ascii cfg) = 40) /\
     (last_binding "scale" td = None -> tta_scale (text_to_ascii cfg) = 2)).
Proof.
  intros Hload. rewrite load_config_dict in Hload.
  cbn [result_bind] in Hload. cbv zeta in Hload. split.
  - intros rd Hb.
    pose proof (merged_group items "render" rd render_defaults Hb eq_refl) as Hg.
    set (rp := deep_update_dict render_defaults (JDict rd)) in *.
    assert (Hg' : dict_get_default "render" (JDict [])
                    (deep_update_dict defaults (JDict items)) = JDict rp)
      by (unfold dict_get_default; rewrite Hg; reflexivity).
    rewrite Hg' in Hload.
    invert_ok Hload. inversion Hload; subst cfg. cbn [render font_path font_size
      spacing noise_lines blur_shapes apply_blur extra_noise_shapes
      pixel_noise_density jitter gaussian_blur_radius shape_blur_radius].
    match goal with E : as_dict (JDict rp) = Ok ?d |- _ =>
      cbn [as_dict] in E; inversion E; subst d; clear E end.
    unbound_fields rp.
  - intros td Hb.
    pose proof (merged_group items "text_to_ascii" td tta_defaults Hb eq_refl) as Hg.
    set (tp := deep_update_dict tta_defaults (JDict td)) in *.
    assert (Hg' : dict_get_default "text_to_ascii" (JDict [])
                    (deep_update_dict defaults (JDict items)) = JDict tp)
      by (unfold dict_get_default; rewrite Hg; reflexivity).
    rewrite Hg' in Hload.
    invert_ok Hload. inversion Hload; subst cfg.
    cbn [text_to_ascii tta_font_path tta_font_size tta_scale].
    match goal with E : as_dict (JDict tp) = Ok ?d |- _ =>
      cbn [as_dict] in E; inversion E; subst d; clear E end.
    unbound_fields tp.
Qed.
End LoadConfigErrors.


Lemma X5_load_config_group_defaults_witness :
  binds_once [("render", JDict [("jitter", JInt 3)]); ("code_length", JInt 4)]
    "render" (JDict [("jitter", JInt 3)]) /\
  is_ok (@load_config Ref.builtins
           (JDict [("render", JDict [("jitter", JInt 3)]); ("code_length", JInt 4)]))
  = true /\
  forall cfg,
    @load_config Ref.builtins
      (JDict [("render", JDict [("jitter", JInt 3)]); ("code_length", JInt 4)])
    = Ok cfg ->
    spacing (render cfg) = 1 /\ noise_lines (render cfg) = 24.
Proof.
  assert (Hb : binds_once
                 [("render", JDict [("jitter", JInt 3)]); ("code_length", JInt 4)]
                 "render" (JDict [("jitter", JInt 3)])).
  { exists [], [("code_length", JInt 4)]. repeat split. }
  split; [exact Hb|]. split; [reflexivity|].
  intros cfg Hload.
  pose proof (proj1 (@X5_load_config_group_defaults Ref.builtins _ cfg Hload) _ Hb)
    as (_ & _ & Hsp & Hnl & _).
  split; [apply Hsp; reflexivity|apply Hnl; reflexivity].
Defined.

(** ** [generate_code], again *)

Lemma string_of_list_ascii_app (l1 l2 : list ascii) :
  string_of_list_ascii (l1 ++ l2) = string_of_list_ascii l1 ++ string_of_list_ascii l2.
Proof. induction l1 as [|c l1 IH]; simpl; [reflexivity|]. rewrite IH. reflexivity. Qed.

Section CodePrefix.
Context {R : RandomCore}.

Lemma choices_loop_app {A} (population : list A) (m n : nat) (st : Rngs) :
  choices_loop population (m + n) st
  = (l1 <- choices_loop population m ;;
     l2 <- choices_loop population n ;;
     ret (l1 ++ l2)%list) st.
Proof.
  revert st. induction m as [|m IH]; intros st.
  - simpl. unfold bind, ret.
    destruct (choices_loop population n st) as [[l2 st2]|e]; reflexivity.
  - cbn [Nat.add choices_loop]. unfold bind, ret.
    destruct (random st) as [[u st1]|e]; [|reflexivity].
    destruct (lift _ st1) as [[x st2]|e]; [|reflexivity].
    rewrite IH. unfold bind, ret.
    destruct (choices_loop population m st2) as [[l1 st3]|e]; [|reflexivity].
    destruct (choices_loop population n st3) as [[l2 st4]|e]; reflexivity.
Qed.

(** X6. Codes compose: drawing a code of [m + n] characters is drawing one
    of [m] characters, then one of [n] characters from the generator as the
    first draw left it, and joining them. With the same generator state the
    shorter code is a prefix of the longer one. *)
Theorem X6_generate_code_concat (m n : Z) (st : Rngs) :
  0 <= m -> 0 <= n ->
  generate_code (m + n) st
  = (a <- generate_code m ;; b <- generate_code n ;; ret (a ++ b)) st.
Proof.
  intros Hm Hn. unfold generate_code, choices.
  rewrite Z2Nat.inj_add by assumption.
  unfold bind at 1. rewrite choices_loop_app. unfold bind, ret.
  destruct (choices_loop _ (Z.to_nat m) st) as [[l1 st1]|e]; [|reflexivity].
  destruct (choices_loop _ (Z.to_nat n) st1) as [[l2 st2]|e]; [|reflexivity].
  rewrite string_of_list_ascii_app. reflexivity.
Qed.
End CodePrefix.

Lemma X6_generate_code_concat_witness :
  0 <= 2 /\ 0 <= 3 /\
  @generate_code Ref.lcg (2 + 3) (@Build_Rngs Ref.lcg None 5)
  = (a <- @generate_code Ref.lcg 2 ;; b <- @generate_code Ref.lcg 3 ;; ret (a ++ b))
      (@Build_Rngs Ref.lcg None 5).
Proof.
  split; [lia|]. split; [lia|].
  apply (@X6_generate_code_concat Ref.lcg 2 3); lia.
Defined.

(** ** [_load_font], again *)

Section FontPreference.
Context {P : PIL}.

(** X7. A preferred path that loads is the font returned, before any
    candidate of the fixed list is tried; a preferred path that is empty or
    does not load changes nothing: the result is the one of a call with no
    preferred path. *)
Theorem X7_load_font_preferred (p : string) (size : Z) :
  (forall f, p <> "" -> truetype p size = Ok f -> _load_font (Some p) size = Ok f) /\
  (passed_over size p -> _load_font (Some p) size = _load_font None size).
Proof.
  unfold _load_font, preferred_candidates. split.
  - intros f Hne Hload. destruct p as [|c p]; [congruence|].
    cbn [str_falsy app load_first]. rewrite Hload. reflexivity.
  - intros [->|Hfail]; [reflexivity|].
    destruct p as [|c p]; [reflexivity|]. cbn [str_falsy app load_first].
    destruct (truetype (String c p) size); [discriminate Hfail|reflexivity].
Qed.
End FontPreference.

(** ** [_text_to_ascii_lines], again *)

Lemma remove_spaces_idempotent (s : string) :
  remove_spaces (remove_spaces s) = remove_spaces s.
Proof.
  induction s as [|c s IH]; simpl; [reflexivity|].
  destruct (Ascii.eqb c " ") eqn:E; [exact IH|]. simpl. rewrite E, IH. reflexivity.
Qed.

Section TextToAsciiEdges.
Context {P : PIL}.

(** X8. Spaces in the code are ignored: a code that has a character other
    than a space gives the canvas of the same code with its spaces
    removed. *)
Theorem X8_spaces_ignored (text : string) (font_path : option string)
    (font_size scale : Z) (ascii_chars : string) :
  remove_spaces text <> "" ->
  _text_to_ascii_lines text font_path font_size scale ascii_chars
  = _text_to_ascii_lines (remove_spaces text) font_path font_size scale ascii_chars.
Proof.
  intros Hne. unfold _text_to_ascii_lines. rewrite remove_spaces_idempotent.
  destruct text as [|c text]; [simpl in Hne; congruence|].
  destruct (remove_spaces (String c text)) as [|c' t'] eqn:E; [congruence|].
  reflexivity.
Qed.

(** X9. On a code that has a character other than a space,
    [_text_to_ascii_lines] raises [ValueError] for a negative font size (at
    [Image.new]) and [ZeroDivisionError] for a scale of 0 with a font size
    that is not negative (at [img.width // scale]), whatever the palette. *)
Theorem X9_text_to_ascii_lines_errors (text : string) (font_path : option string)
    (font_size scale : Z) (ascii_chars : string) :
  remove_spaces text <> "" ->
  (font_size < 0 ->
   _text_to_ascii_lines text font_path font_size scale ascii_chars = Raise ValueError) /\
  (0 <= font_size -> scale = 0 ->
   _text_to_ascii_lines text font_path font_size scale ascii_chars
   = Raise ZeroDivisionError).
Proof.
  intros Hne.
  assert (Hstart : forall e,
    (forall ch font, glyph_block font font_size scale ascii_chars ch = Raise e) ->
    _text_to_ascii_lines text font_path font_size scale ascii_chars = Raise e).
  { intros e Hblock. unfold _text_to_ascii_lines.
    destruct text as [|c0 text]; [simpl in Hne; congruence|]. cbn [str_falsy].
    destruct (load_font_ok font_path font_size) as [font ->]. cbn [result_bind].
    destruct (remove_spaces (String c0 text)) as [|ch rest]; [congruence|].
    cbn [list_ascii_of_string glyph_blocks]. rewrite Hblock. reflexivity. }
  split.
  - intros Hneg. apply Hstart. intros ch font. unfold glyph_block, Image_new_checked.
    destruct (Z.ltb_spec (font_size * 2) 0); [reflexivity|lia].
  - intros Hfs ->. apply Hstart. intros ch font. unfold glyph_block, Image_new_checked.
    destruct (Z.ltb_spec (font_size * 2) 0); [lia|]. reflexivity.
Qed.
End TextToAsciiEdges.

Lemma X7_load_font_preferred_witness :
  "DejaVuSansMono.ttf" <> "" /\
  @_load_font Ref.pil (Some "DejaVuSansMono.ttf") 12
  = Ok {| Ref.rf_path := "DejaVuSansMono.ttf"; Ref.rf_size := 12 |} /\
  @_load_font Ref.pil (Some "missing.ttf") 12 = @_load_font Ref.pil None 12.
Proof.
  assert (Hne : "DejaVuSansMono.ttf" <> "") by discriminate.
  split; [exact Hne|]. split.
  - apply (proj1 (@X7_load_font_preferred Ref.pil "DejaVuSansMono.ttf" 12));
      [exact Hne|reflexivity].
  - apply (proj2 (@X7_load_font_preferred Ref.pil "missing.ttf" 12)).
    right. reflexivity.
Defined.

Lemma X8_spaces_ignored_witness :
  remove_spaces " A B " <> "" /\
  @_text_to_ascii_lines Ref.pil " A B " None 2 2 ASCII_CHARS
  = @_text_to_ascii_lines Ref.pil "AB" None 2 2 ASCII_CHARS.
Proof.
  assert (Hne : remove_spaces " A B " <> "") by discriminate.
  split; [exact Hne|].
  exact (@X8_spaces_ignored Ref.pil " A B " None 2 2 ASCII_CHARS Hne).
Defined.

Lemma X9_text_to_ascii_lines_errors_witness :
  remove_spaces "A" <> "" /\ -1 < 0 /\
  @_text_to_ascii_lines Ref.pil "A" None (-1) 2 ASCII_CHARS = Raise ValueError /\
  @_text_to_ascii_lines Ref.pil "A" None 40 0 ASCII_CHARS = Raise ZeroDivisionError.
Proof.
  assert (Hne : remove_spaces "A" <> "") by discriminate.
  split; [exact Hne|]. split; [lia|]. split.
  - apply (proj1 (@X9_text_to_ascii_lines_errors Ref.pil "A" None (-1) 2 ASCII_CHARS Hne)).
    lia.
  - apply (proj2 (@X9_text_to_ascii_lines_errors Ref.pil "A" None 40 0 ASCII_CHARS Hne));
      [lia|reflexivity].
Defined.

(** ** The canvas: its shape and its characters *)

Lemma get_In (s : string) (n : nat) (c : ascii) :
  String.get n s = Some c -> In c (list_ascii_of_string s).
Proof.
  revert n. induction s as [|a s IH]; intros n H; simpl in H; [discriminate|].
  destruct n as [|n].
  - inversion H. left. reflexivity.
  - right. exact (IH n H).
Qed.

Lemma py_getitem_In (s : string) (i : Z) (c : ascii) :
  py_getitem s i = Ok c -> In c (list_ascii_of_string s).
Proof.
  unfold py_getitem. destruct (_ && _); [|discriminate].
  destruct (String.get _ s) as [c'|] eqn:E; [|discriminate].
  intros H. inversion H; subst. exact (get_In _ _ _ E).
Qed.

Lemma map_pixels_palette (ascii_chars : string) (pixels : list Z) (s : string) :
  map_pixels ascii_chars pixels = Ok s -> palette_or_space ascii_chars s.
Proof.
  revert s. induction pixels as [|p ps IH]; intros s H; simpl in H.
  - inversion H. constructor.
  - destruct (map_pixel ascii_chars p) as [c|] eqn:Ec; [|discriminate H].
    cbn [result_bind] in H.
    destruct (map_pixels ascii_chars ps) as [s'|]; [|discriminate H].
    inversion H; subst. constructor.
    + left. exact (py_getitem_In _ _ _ Ec).
    + apply IH. reflexivity.
Qed.

Lemma substring_In (s : string) (n m : nat) (c : ascii) :
  In c (list_ascii_of_string (substring n m s)) -> In c (list_ascii_of_string s).
Proof.
  revert n m. induction s as [|a s IH]; intros n m H.
  - destruct n, m; simpl in H; exact H.
  - destruct n as [|n].
    + destruct m as [|m]; simpl in H; [destruct H|].
      destruct H as [<-|H]; [left; reflexivity|right; exact (IH _ _ H)].
    + simpl in H. right. exact (IH _ _ H).
Qed.

Lemma palette_or_space_slice (ascii_chars s : string) (i w : Z) :
  palette_or_space ascii_chars s -> palette_or_space ascii_chars (slice s i w).
Proof.
  unfold palette_or_space. rewrite !Forall_forall. intros H c Hc.
  apply H. exact (substring_In _ _ _ _ Hc).
Qed.

Lemma list_ascii_of_string_app (s1 s2 : string) :
  list_ascii_of_string (s1 ++ s2)
  = (list_ascii_of_string s1 ++ list_ascii_of_string s2)%list.
Proof. induction s1 as [|c s1 IH]; simpl; [reflexivity|]. rewrite IH. reflexivity. Qed.

Lemma palette_or_space_append (ascii_chars s1 s2 : string) :
  palette_or_space ascii_chars s1 -> palette_or_space ascii_chars s2 ->
  palette_or_space ascii_chars (s1 ++ s2).
Proof.
  unfold palette_or_space. rewrite list_ascii_of_string_app. intros H1 H2.
  apply Forall_app. split; assumption.
Qed.

Lemma palette_or_space_concat (ascii_chars : string) (rows : list string) :
  Forall (palette_or_space ascii_chars) rows ->
  palette_or_space ascii_chars (String.concat "   " rows).
Proof.
  intros H. induction H as [|x xs Hx Hxs IH]; [constructor|].
  destruct xs as [|y ys]; [exact Hx|].
  change (String.concat "   " (x :: y :: ys))
    with (x ++ "   " ++ String.concat "   " (y :: ys)).
  apply palette_or_space_append; [exact Hx|].
  apply palette_or_space_append; [|exact IH].
  repeat constructor; right; reflexivity.
Qed.

Lemma list_getitem_In {A} (l : list A) (i : Z) (a : A) :
  list_getitem l i = Ok a -> In a l.
Proof.
  unfold list_getitem. destruct (i <? 0); [discriminate|].
  destruct (nth_error l (Z.to_nat i)) eqn:E; [|discriminate].
  intros H. inversion H; subst. eapply nth_error_In; eassumption.
Qed.

Section CanvasProperties.
Context {P : PIL}.

Lemma glyph_block_palette font font_size scale ascii_chars ch block :
  glyph_block font font_size scale ascii_chars ch = Ok block ->
  Forall (palette_or_space ascii_chars) block.
Proof.
  unfold glyph_block. intros H.
  destruct (Image_new_checked _ _ _ _) as [img|]; [|discriminate H].
  cbn [result_bind] in H. cbv zeta in H.
  destruct (scale =? 0); [discriminate H|].
  destruct (map_pixels ascii_chars _) as [s|] eqn:Es; [|discriminate H].
  cbn [result_bind] in H.
  destruct (range_step _ _) as [starts|]; [|discriminate H].
  cbn [result_bind] in H. inversion H; subst.
  apply Forall_forall. intros row Hrow. apply in_map_iff in Hrow as (i & <- & _).
  apply palette_or_space_slice. exact (map_pixels_palette _ _ _ Es).
Qed.

Lemma glyph_blocks_palette font font_size scale ascii_chars chars blocks :
  glyph_blocks font font_size scale ascii_chars chars = Ok blocks ->
  Forall (Forall (palette_or_space ascii_chars)) blocks.
Proof.
  revert blocks. induction chars as [|ch chars IH]; intros blocks H; simpl in H.
  - inversion H. constructor.
  - destruct (glyph_block _ _ _ _ ch) as [b|] eqn:Eb; [|discriminate H].
    cbn [result_bind] in H.
    destruct (glyph_blocks _ _ _ _ chars) as [bs|]; [|discriminate H].
    inversion H; subst. constructor.
    + exact (glyph_block_palette _ _ _ _ _ _ Eb).
    + apply IH. reflexivity.
Qed.

Lemma row_of_blocks_palette ascii_chars blocks r row :
  Forall (Forall (palette_or_space ascii_chars)) blocks ->
  row_of_blocks blocks r = Ok row ->
  Forall (palette_or_space ascii_chars) row.
Proof.
  intros Hall. revert row. induction Hall as [|b bs Hb _ IH]; intros row H; simpl in H.
  - inversion H. constructor.
  - destruct (list_getitem b r) as [x|] eqn:Ex; [|discriminate H].
    cbn [result_bind] in H.
    destruct (row_of_blocks bs r) as [xs|]; [|discriminate H].
    inversion H; subst. constructor; [|apply IH; reflexivity].
    rewrite Forall_forall in Hb. apply Hb. exact (list_getitem_In _ _ _ Ex).
Qed.

Lemma combine_rows_palette ascii_chars blocks rows ascii_lines :
  Forall (Forall (palette_or_space ascii_chars)) blocks ->
  combine_rows blocks rows = Ok ascii_lines ->
  Forall (palette_or_space ascii_chars) ascii_lines.
Proof.
  intros Hall. revert ascii_lines.
  induction rows as [|r rs IH]; intros ascii_lines H; simpl in H.
  - inversion H. constructor.
  - destruct (row_of_blocks blocks r) as [row|] eqn:Er; [|discriminate H].
    cbn [result_bind] in H.
    destruct (combine_rows blocks rs) as [ls|]; [|discriminate H].
    inversion H; subst. constructor; [|apply IH; reflexivity].
    apply palette_or_space_concat. exact (row_of_blocks_palette _ _ _ _ Hall Er).
Qed.

(** X11. Whatever the code, the font and the pixels Pillow delivers, every
    character of every line [_text_to_ascii_lines] returns is a character of
    the palette or a space of the gap between two glyphs. *)
Theorem X11_canvas_alphabet (text : string) (font_path : option string)
    (font_size scale : Z) (ascii_chars : string) (ascii_lines : list string) :
  _text_to_ascii_lines text font_path font_size scale ascii_chars = Ok ascii_lines ->
  Forall (palette_or_space ascii_chars) ascii_lines.
Proof.
  unfold _text_to_ascii_lines. intros H.
  destruct (str_falsy text); [inversion H; constructor|].
  destruct (_load_font font_path font_size) as [font|]; [|discriminate H].
  cbn [result_bind] in H.
  destruct (glyph_blocks font font_size scale ascii_chars _) as [blocks|] eqn:Eb;
    [|discriminate H].
  cbn [result_bind] in H.
  destruct (list_getitem blocks 0) as [first|]; [|discriminate H].
  cbn [result_bind] in H.
  exact (combine_rows_palette _ _ _ _ (glyph_blocks_palette _ _ _ _ _ _ Eb) H).
Qed.

Context {PL : PILLaws P}.

(** X10. The canvas of a code with [n] characters other than spaces has
    [side = max(1, font_size * 2 // scale)] lines, each of
    [n * side + (n - 1) * 3] characters: every glyph is a square block of
    that side and the blocks are joined with gaps of three. This needs a
    font size that is not negative, a scale that is not zero and a palette
    that is not empty. *)
Theorem X10_canvas_shape (text : string) (font_path : option string)
    (font_size scale : Z) (ascii_chars : string) :
  remove_spaces text <> "" ->
  0 <= font_size -> scale <> 0 -> 1 <= py_len ascii_chars ->
  exists ascii_lines,
    _text_to_ascii_lines text font_path font_size scale ascii_chars = Ok ascii_lines /\
    Z.of_nat (List.length ascii_lines) = Z.max 1 (font_size * 2 / scale) /\
    Forall (fun l => py_len l
                     = py_len (remove_spaces text) * Z.max 1 (font_size * 2 / scale)
                       + (py_len (remove_spaces text) - 1) * 3) ascii_lines.
Proof.
  intros Hne Hfs Hsc Hpal.
  exact (text_to_ascii_lines_returns text font_path font_size scale ascii_chars
           Hne Hfs Hsc Hpal).
Qed.
End CanvasProperties.

Lemma X10_canvas_shape_witness :
  remove_spaces "A B" <> "" /\ 0 <= 4 /\ 2 <> 0 /\ 1 <= py_len ASCII_CHARS /\
  exists ascii_lines,
    @_text_to_ascii_lines Ref.pil "A B" None 4 2 ASCII_CHARS = Ok ascii_lines /\
    Z.of_nat (List.length ascii_lines) = 4 /\
    Forall (fun l => py_len l = 11) ascii_lines.
Proof.
  assert (Hne : remove_spaces "A B" <> "") by discriminate.
  assert (Hpal : 1 <= py_len ASCII_CHARS) by (vm_compute; discriminate).
  split; [exact Hne|]. split; [lia|]. split; [discriminate|]. split; [exact Hpal|].
  exact (@X10_canvas_shape Ref.pil rec_pil_laws "A B" None 4 2 ASCII_CHARS
           Hne ltac:(lia) ltac:(discriminate) Hpal).
Defined.

Lemma X11_canvas_alphabet_witness :
  @_text_to_ascii_lines Ref.pil "AB" None 2 2 "#" = Ok ["##   ##"; "##   ##"] /\
  Forall (palette_or_space "#") ["##   ##"; "##   ##"].
Proof.
  assert (H : @_text_to_ascii_lines Ref.pil "AB" None 2 2 "#"
              = Ok ["##   ##"; "##   ##"]) by (vm_compute; reflexivity).
  split; [exact H|].
  exact (@X11_canvas_alphabet Ref.pil "AB" None 2 2 "#" _ H).
Defined.

(** ** [make_image]: errors, ranges, layers *)

Section MakeImageErrors.
Context {P : PIL} {R : RandomCore}.

Lemma randint_empty_range (a b : Z) (st : Rngs) :
  b < a -> randint a b st = Raise ValueError.
Proof.
  intros H. unfold randint. destruct (Z.ltb_spec 0 (b + 1 - a)); [lia|reflexivity].
Qed.

Lemma text_layer_negative_jitter (ascii_lines : list string) (params : RenderParams)
    (font : Font) (char_w char_h : Z) :
  jitter params < 0 ->
  (exists l, In l ascii_lines /\ l <> "") ->
  forall i base st,
    for_each (enumerate_from i ascii_lines)
      (fun '(r, l) base =>
         for_each (enumerate (list_ascii_of_string l))
           (fun '(c, ch) base =>
              jx <- randint (- jitter params) (jitter params) ;;
              let x := c * char_w + jx in
              jy <- randint (- jitter params) (jitter params) ;;
              let y := r * char_h + jy in
              ret (im_draw (text (x, y) ch font (CRGBA 0 0 0 255)) base))
           base)
      base st = Raise ValueError.
Proof.
  intros Hj. induction ascii_lines as [|l ls IH]; intros (l0 & Hin & Hne) i base st.
  - destruct Hin.
  - cbn [enumerate_from for_each]. unfold bind at 1.
    destruct l as [|c l].
    + cbn [list_ascii_of_string enumerate enumerate_from for_each]. unfold ret at 1.
      apply IH. destruct Hin as [<-|Hin]; [congruence|]. exists l0. auto.
    + cbn [list_ascii_of_string enumerate enumerate_from for_each].
      unfold bind at 1 2. rewrite randint_empty_range by lia. reflexivity.
Qed.

(** X12. On a canvas with at least one line, [make_image] raises
    [ValueError] when the computed width or height is negative (at
    [Image.new]), and, for a size that is not negative, when the jitter is
    negative and some line has a character (at the first [randint]). *)
Theorem X12_make_image_errors (ascii_lines : list string) (params : RenderParams)
    (st : Rngs) :
  ascii_lines <> [] ->
  let width := (font_size params / 2 + spacing params) * max_len ascii_lines in
  let height := (font_size params + 2) * Z.of_nat (List.length ascii_lines) in
  (width < 0 \/ height < 0 -> make_image ascii_lines params st = Raise ValueError) /\
  (0 <= width -> 0 <= height -> jitter params < 0 ->
   (exists l, In l ascii_lines /\ l <> "") ->
   make_image ascii_lines params st = Raise ValueError).
Proof.
  intros Hne. destruct ascii_lines as [|l0 ls]; [congruence|].
  unfold make_image. cbv zeta.
  set (width := (font_size params / 2 + spacing params) * max_len (l0 :: ls)).
  set (height := (font_size params + 2) * Z.of_nat (List.length (l0 :: ls))).
  split.
  - intros Hneg. unfold bind at 1. unfold lift, Image_new_checked.
    destruct (Z.ltb_spec width 0); [reflexivity|].
    destruct (Z.ltb_spec height 0); [reflexivity|lia].
  - intros Hw Hh Hj Hl. unfold bind at 1. unfold lift at 1, Image_new_checked.
    destruct (Z.ltb_spec width 0); [lia|]. destruct (Z.ltb_spec height 0); [lia|].
    cbn [orb]. unfold bind at 1.
    destruct (load_font_ok (font_path params) (font_size params)) as [font ->].
    unfold lift at 1. unfold bind at 1. unfold draw_text_layer, enumerate at 1.
    rewrite (text_layer_negative_jitter (l0 :: ls) params font _ _ Hj Hl). reflexivity.
Qed.
End MakeImageErrors.

Lemma X12_make_image_errors_witness :
  ["ab"] <> [] /\
  @make_image Ref.pil Ref.lcg ["ab"]
    {| font_path := None; font_size := 9; spacing := -6; noise_lines := 0;
       blur_shapes := 0; apply_blur := false; extra_noise_shapes := 0;
       pixel_noise_density := 0%float; jitter := 0;
       gaussian_blur_radius := 0%float; shape_blur_radius := 0%float |}
    (@Build_Rngs Ref.lcg None 1) = Raise ValueError.
Proof.
  assert (Hne : ["ab"] <> []) by discriminate.
  split; [exact Hne|].
  pose proof (@X12_make_image_errors Ref.pil Ref.lcg ["ab"]
                {| font_path := None; font_size := 9; spacing := -6; noise_lines := 0;
                   blur_shapes := 0; apply_blur := false; extra_noise_shapes := 0;
                   pixel_noise_density := 0%float; jitter := 0;
                   gaussian_blur_radius := 0%float; shape_blur_radius := 0%float |}
                (@Build_Rngs Ref.lcg None 1) Hne) as H.
  cbv zeta in H. apply (proj1 H). left. vm_compute. reflexivity.
Defined.

Section DrawRanges.
Context {P : PIL} {R : RandomCore} {RL : RandomLaws R}.

Lemma returns_randint_range (a b : Z) :
  a <= b -> returns (randint a b) (fun r => a <= r <= b).
Proof.
  intros Hab. unfold randint. destruct (Z.ltb_spec 0 (b + 1 - a)); [|lia].
  eapply returns_bind.
  - apply returns_on_rng with (Q := fun r => 0 <= r < b + 1 - a).
    intros s. apply randbelow_range. assumption.
  - intros r Hr. apply returns_ret. cbv beta in Hr. lia.
Qed.

Ltac draw x H :=
  eapply returns_bind; [apply returns_randint_range; lia|intros x H; cbv beta in H].

(** X13. A noise line runs between two points of [0, width] x [0, height]
    (the far edges included), in an opaque gray of level 100 to 180, with a
    stroke of 1 or 2. *)
Theorem X13_noise_line_ranges (width height : Z) (base : Image) :
  0 <= width -> 0 <= height ->
  returns (noise_line width height base)
    (fun im => exists x1 y1 x2 y2 g t,
       im = im_draw (line (x1, y1) (x2, y2) (CRGBA g g g 255) t) base /\
       0 <= x1 <= width /\ 0 <= y1 <= height /\
       0 <= x2 <= width /\ 0 <= y2 <= height /\
       100 <= g <= 180 /\ 1 <= t <= 2).
Proof.
  intros Hw Hh. unfold noise_line.
  draw x1 Hx1. draw y1 Hy1. draw x2 Hx2. draw y2 Hy2. draw g Hg. draw t Ht.
  apply returns_ret. exists x1, y1, x2, y2, g, t. repeat split; lia.
Qed.

(** X14. A speckle is written inside the image, at a column of
    [0, width - 1] and a row of [0, height - 1], as an opaque gray of level
    0 to 255. *)
Theorem X14_speckle_inside (width height : Z) (base : Image) :
  1 <= width -> 1 <= height ->
  returns (speckle width height base)
    (fun im => exists x y v,
       im = putpixel (x, y) (CRGBA v v v 255) base /\
       0 <= x < width /\ 0 <= y < height /\ 0 <= v <= 255).
Proof.
  intros Hw Hh. unfold speckle.
  draw x Hx. draw y Hy. draw v Hv.
  apply returns_ret. exists x, y, v. repeat split; lia.
Qed.

(** X15. A blurred shape is an ellipse or a rectangle in a box with sides
    of 15 to 50, gray level 90 to 160 and alpha 60 to 120. An extra shape is
    an arc, a chord, a triangle or a circle from a box with sides of 10 to
    50 and gray level 60 to 180; the arc is drawn without alpha, the others
    with alpha 40 to 100; the circle has the even diameter
    [2 * ((x2 - x1) // 2)], from 10 to 50. No box is inverted. *)
Theorem X15_shape_ranges (width height : Z) (shape : Image) :
  returns (blur_shape width height shape)
    (fun im => exists box g a,
       shape_box width height 30 15 box /\ 90 <= g <= 160 /\ 60 <= a <= 120 /\
       (im = im_draw (ellipse box (CRGBA g g g a)) shape \/
        im = im_draw (rectangle box (CRGBA g g g a)) shape)) /\
  returns (extra_shape width height shape)
    (fun im => exists x1 y1 x2 y2 g a,
       shape_box width height 50 10 (x1, y1, x2, y2) /\
       60 <= g <= 180 /\ 40 <= a <= 100 /\
       ((exists s e, 0 <= s <= 360 /\ 0 <= e <= 360 /\
           im = im_draw (arc (x1, y1, x2, y2) s e (CRGB g g g)) shape) \/
        (exists s e, 0 <= s <= 360 /\ 0 <= e <= 360 /\
           im = im_draw (chord (x1, y1, x2, y2) s e (CRGBA g g g a)) shape) \/
        im = im_draw (polygon [(x1, y1); (x2, y1); ((x1 + x2) / 2, y2)]
                        (CRGBA g g g a)) shape \/
        (exists d, 10 <= d <= 50 /\ d = 2 * ((x2 - x1) / 2) /\
           im = im_draw (ellipse (x1, y1, x1 + d, y1 + d) (CRGBA g g g a)) shape))).
Proof.
  split.
  - unfold blur_shape.
    draw x1 Hx1. draw y1 Hy1. draw dx Hdx. draw dy Hdy. draw g Hg. draw a Ha.
    eapply returns_bind; [apply returns_random|intros u _].
    assert (Hbox : shape_box width height 30 15 (x1, y1, x1 + dx, y1 + dy))
      by (unfold shape_box; lia).
    destruct (u <? 2 ^ 52); apply returns_ret;
      exists (x1, y1, x1 + dx, y1 + dy), g, a; auto 10.
  - unfold extra_shape.
    draw x1 Hx1. draw y1 Hy1. draw dx Hdx. draw dy Hdy. draw g Hg. draw a Ha.
    eapply returns_bind; [apply returns_choice; discriminate|intros kind _].
    assert (Hbox : shape_box width height 50 10 (x1, y1, x1 + dx, y1 + dy))
      by (unfold shape_box; lia).
    destruct (String.eqb kind "arc"); [|destruct (String.eqb kind "chord");
      [|destruct (String.eqb kind "triangle")]].
    + draw s Hs. draw e He. apply returns_ret.
      exists x1, y1, (x1 + dx), (y1 + dy), g, a. repeat split; try lia.
      left. exists s, e. auto.
    + draw s Hs. draw e He. apply returns_ret.
      exists x1, y1, (x1 + dx), (y1 + dy), g, a. repeat split; try lia.
      right. left. exists s, e. auto.
    + apply returns_ret.
      exists x1, y1, (x1 + dx), (y1 + dy), g, a. repeat split; try lia.
      right. right. left. reflexivity.
    + apply returns_ret.
      exists x1, y1, (x1 + dx), (y1 + dy), g, a. repeat split; try lia.
      right. right. right. exists (2 * ((x1 + dx - x1) / 2)).
      replace (x1 + dx - x1) with dx by lia.
      assert (5 <= dx / 2 <= 25)
        by (split; [apply Z.div_le_lower_bound|apply Z.div_le_upper_bound]; lia).
      split; [lia|]. split; [reflexivity|].
      replace (dx / 2 * 2) with (2 * (dx / 2)) by lia. reflexivity.
Qed.
End DrawRanges.

Lemma X13_noise_line_ranges_witness :
  0 <= 35 /\ 0 <= 22 /\
  returns (@noise_line Ref.pil Ref.lcg 35 22
             (@Image_new Ref.pil Mode_RGBA 35 22 (CRGBA 255 255 255 255)))
    (fun im => exists x1 y1 x2 y2 g t,
       im = @im_draw Ref.pil (line (x1, y1) (x2, y2) (CRGBA g g g 255) t)
              (@Image_new Ref.pil Mode_RGBA 35 22 (CRGBA 255 255 255 255)) /\
       0 <= x1 <= 35 /\ 0 <= y1 <= 22 /\ 0 <= x2 <= 35 /\ 0 <= y2 <= 22 /\
       100 <= g <= 180 /\ 1 <= t <= 2).
Proof.
  split; [lia|]. split; [lia|].
  apply (@X13_noise_line_ranges Ref.pil Ref.lcg lcg_laws); lia.
Defined.

Lemma X14_speckle_inside_witness :
  1 <= 35 /\ 1 <= 22 /\
  returns (@speckle Ref.pil Ref.lcg 35 22
             (@Image_new Ref.pil Mode_RGBA 35 22 (CRGBA 255 255 255 255)))
    (fun im => exists x y v,
       im = @putpixel Ref.pil (x, y) (CRGBA v v v 255)
              (@Image_new Ref.pil Mode_RGBA 35 22 (CRGBA 255 255 255 255)) /\
       0 <= x < 35 /\ 0 <= y < 22 /\ 0 <= v <= 255).
Proof.
  split; [lia|]. split; [lia|].
  apply (@X14_speckle_inside Ref.pil Ref.lcg lcg_laws); lia.
Defined.

Lemma X15_shape_ranges_witness :
  returns (@blur_shape Ref.pil Ref.lcg 35 22
             (@Image_new Ref.pil Mode_RGBA 35 22 (CRGBA 255 255 255 0)))
    (fun im => exists box g a,
       shape_box 35 22 30 15 box /\ 90 <= g <= 160 /\ 60 <= a <= 120 /\
       (im = @im_draw Ref.pil (ellipse box (CRGBA g g g a))
               (@Image_new Ref.pil Mode_RGBA 35 22 (CRGBA 255 255 255 0)) \/
        im = @im_draw Ref.pil (rectangle box (CRGBA g g g a))
               (@Image_new Ref.pil Mode_RGBA 35 22 (CRGBA 255 255 255 0)))).
Proof.
  exact (proj1 (@X15_shape_ranges Ref.pil Ref.lcg lcg_laws 35 22
                  (@Image_new Ref.pil Mode_RGBA 35 22 (CRGBA 255 255 255 0)))).
Defined.

Section TextOnly.
Context {P : PIL} {R : RandomCore} {RL : RandomLaws R}.

Lemma returns_for_each_fold {A X} (xs : list X) (body : X -> A -> M A)
    (f : A -> X -> A) (a : A) :
  (forall x a, returns (body x a) (fun a' => a' = f a x)) ->
  returns (for_each xs body a) (fun r => r = fold_left f xs a).
Proof.
  intros Hb. revert a. induction xs as [|x xs IH]; intros a; simpl.
  - apply returns_ret. reflexivity.
  - eapply returns_bind; [apply Hb|]. intros a' ->. apply IH.
Qed.

Lemma for_range_nonpositive {A} (n : Z) (body : A -> M A) (a : A) :
  n <= 0 -> for_range n body a = ret a.
Proof. intros Hn. unfold for_range. replace (Z.to_nat n) with O by lia. reflexivity. Qed.

Lemma returns_ret_eq {A} (a : A) : returns (ret a) (fun x => x = a).
Proof. apply returns_ret. reflexivity. Qed.

Lemma returns_lift_eq {A} (r : result A) (a : A) :
  r = Ok a -> returns (lift r) (fun x => x = a).
Proof. intros H. eapply returns_lift; [exact H|reflexivity]. Qed.

Lemma returns_text_layer_plain ascii_lines params font char_w char_h base :
  jitter params = 0 ->
  returns (draw_text_layer ascii_lines params font char_w char_h base)
    (fun im => im = text_layer_plain ascii_lines font char_w char_h base).
Proof.
  intros Hj. unfold draw_text_layer, text_layer_plain. rewrite Hj.
  apply returns_for_each_fold. intros [r l] im.
  apply returns_for_each_fold. intros [c ch] im'.
  eapply returns_bind; [apply returns_randint_range; lia|intros jx Hjx].
  eapply returns_bind; [apply returns_randint_range; lia|intros jy Hjy].
  apply returns_ret. cbv beta in Hjx, Hjy.
  replace jx with 0 by lia. replace jy with 0 by lia.
  rewrite !Z.add_0_r. reflexivity.
Qed.

(** X16. With no jitter, no noise line, no shape and no speckle
    ([jitter = 0], the three counts at 0 or below, a speckle count of 0 or
    below), [make_image] returns the same image whatever the generator: the
    text at its cells on white, composited with an empty overlay. The
    generator is still consulted, twice a character, and each answer is 0. *)
Theorem X16_text_only_image (ascii_lines : list string) (params : RenderParams)
    (font : Font) (n : Z) :
  ascii_lines <> [] ->
  0 <= font_size params / 2 + spacing params ->
  0 <= font_size params + 2 ->
  _load_font (font_path params) (font_size params) = Ok font ->
  jitter params = 0 ->
  noise_lines params <= 0 -> blur_shapes params <= 0 ->
  extra_noise_shapes params <= 0 ->
  speckle_count
    ((font_size params / 2 + spacing params) * max_len ascii_lines
     * ((font_size params + 2) * Z.of_nat (List.length ascii_lines)))
    (pixel_noise_density params) = Ok n ->
  n <= 0 ->
  forall st, exists st',
    make_image ascii_lines params st
    = Ok (text_only_image ascii_lines params font, st').
Proof.
  intros Hne Hcw Hch Hfont Hj Hnl Hbs Hes Hcount Hn.
  assert (Hret : returns (make_image ascii_lines params)
                   (fun img => img = text_only_image ascii_lines params font)).
  { unfold make_image, text_only_image.
    destruct ascii_lines as [|l0 ls]; [congruence|].
    set (ascii_lines := l0 :: ls) in *. cbv zeta.
    set (width := (font_size params / 2 + spacing params) * max_len ascii_lines) in *.
    set (height := (font_size params + 2) * Z.of_nat (List.length ascii_lines)) in *.
    assert (Hw : 0 <= width).
    { pose proof (max_len_bound ascii_lines) as [H0 _]. unfold width. nia. }
    assert (Hh : 0 <= height) by (unfold height; nia).
    assert (Hnew : forall c, Image_new_checked Mode_RGBA width height c
                             = Ok (Image_new Mode_RGBA width height c)).
    { intros c. unfold Image_new_checked.
      destruct (Z.ltb_spec width 0); [lia|]. destruct (Z.ltb_spec height 0); [lia|].
      reflexivity. }
    rewrite !Hnew, Hfont, Hcount.
    eapply returns_bind; [apply returns_lift_eq; reflexivity|intros base ->].
    eapply returns_bind; [apply returns_lift_eq; reflexivity|intros font' ->].
    eapply returns_bind; [apply returns_text_layer_plain; exact Hj|intros base ->].
    rewrite for_range_nonpositive by exact Hnl.
    eapply returns_bind; [apply returns_ret_eq|intros base ->].
    eapply returns_bind; [apply returns_lift_eq; reflexivity|intros shape ->].
    rewrite for_range_nonpositive by exact Hbs.
    eapply returns_bind; [apply returns_ret_eq|intros shape ->].
    rewrite for_range_nonpositive by exact Hes.
    eapply returns_bind; [apply returns_ret_eq|intros shape ->].
    eapply returns_bind; [apply returns_lift_eq; reflexivity|intros n' ->].
    rewrite for_range_nonpositive by exact Hn.
    eapply returns_bind; [apply returns_ret_eq|intros base ->].
    apply returns_ret. reflexivity. }
  intros st. destruct (Hret st) as (img & st' & Hrun & ->). exists st'. exact Hrun.
Qed.
End TextOnly.

Lemma X16_text_only_image_witness :
  ["ab"; "c"] <> [] /\
  forall st, exists st',
    @make_image Ref.pil Ref.lcg ["ab"; "c"]
      {| font_path := None; font_size := 9; spacing := 1; noise_lines := 0;
         blur_shapes := 0; apply_blur := false; extra_noise_shapes := 0;
         pixel_noise_density := 0%float; jitter := 0;
         gaussian_blur_radius := 1.1%float; shape_blur_radius := 2.0%float |} st
    = Ok (@text_only_image Ref.pil ["ab"; "c"]
            {| font_path := None; font_size := 9; spacing := 1; noise_lines := 0;
               blur_shapes := 0; apply_blur := false; extra_noise_shapes := 0;
               pixel_noise_density := 0%float; jitter := 0;
               gaussian_blur_radius := 1.1%float; shape_blur_radius := 2.0%float |}
            {| Ref.rf_path := "DejaVuSansMono.ttf"; Ref.rf_size := 9 |}, st').
Proof.
  assert (Hne : ["ab"; "c"] <> []) by discriminate.
  split; [exact Hne|].
  apply (@X16_text_only_image Ref.pil Ref.lcg lcg_laws ["ab"; "c"] _ _ 0 Hne).
  - vm_compute. discriminate.
  - vm_compute. discriminate.
  - reflexivity.
  - reflexivity.
  - vm_compute. discriminate.
  - vm_compute. discriminate.
  - vm_compute. discriminate.
  - vm_compute. reflexivity.
  - lia.
Defined.

(** ** The two entry points *)

Section EntryPoints.
Context {P : PIL} {R : RandomCore}.

Lemma blind_ret {A} (a : A) : generator_blind (ret a).
Proof. exists (fun s => Ok (a, s)). split; reflexivity. Qed.

Lemma blind_raise {A} (e : PyExc) : generator_blind (@raise R A e).
Proof. exists (fun _ => Raise e). split; reflexivity. Qed.

Lemma blind_lift {A} (r : result A) : generator_blind (lift r).
Proof.
  exists (fun s => match r with Ok a => Ok (a, s) | Raise e => Raise e end).
  split; intros; unfold lift, on_instance, on_module; destruct r; reflexivity.
Qed.

Lemma blind_on_rng {A} (f : rng_state -> A * rng_state) : generator_blind (on_rng f).
Proof.
  exists (fun s => Ok (f s)).
  split; intros; unfold on_rng, on_instance, on_module; simpl;
    destruct (f _); reflexivity.
Qed.

Lemma blind_bind {A B} (c : M A) (k : A -> M B) :
  generator_blind c -> (forall a, generator_blind (k a)) -> generator_blind (bind c k).
Proof.
  intros (f & Hf1 & Hf2) Hk.
  exists (fun s =>
            match f s with
            | Ok (a, s') =>
                match k a {| rng_arg := Some s'; rng_module := s |} with
                | Ok (b, st) =>
                    match rng_arg st with
                    | Some s'' => Ok (b, s'')
                    | None => Ok (b, s')
                    end
                | Raise e => Raise e
                end
            | Raise e => Raise e
            end).
  split.
  - intros s g. unfold bind. rewrite Hf1. unfold on_instance.
    destruct (f s) as [[a s']|e]; [|reflexivity].
    destruct (Hk a) as (fk & Hk1 & _). rewrite !Hk1. unfold on_instance.
    destruct (fk s') as [[b s'']|e]; reflexivity.
  - intros g. unfold bind. rewrite Hf2. unfold on_module.
    destruct (f g) as [[a g']|e]; [|reflexivity].
    destruct (Hk a) as (fk & Hk1 & Hk2). rewrite Hk1, Hk2.
    unfold on_instance, on_module.
    destruct (fk g') as [[b g'']|e]; reflexivity.
Qed.

Lemma blind_if {A} (b : bool) (c1 c2 : M A) :
  generator_blind c1 -> generator_blind c2 -> generator_blind (if b then c1 else c2).
Proof. destruct b; auto. Qed.

Lemma blind_randint (a b : Z) : generator_blind (randint a b).
Proof.
  unfold randint. apply blind_if.
  - apply blind_bind; [apply blind_on_rng|intros; apply blind_ret].
  - apply blind_raise.
Qed.

Lemma blind_choice {A} (seq : list A) : generator_blind (choice seq).
Proof.
  destruct seq as [|x seq]; simpl.
  - apply blind_raise.
  - apply blind_bind; [apply blind_on_rng|intros; apply blind_lift].
Qed.

Lemma blind_choices {A} (population : list A) (k : Z) :
  generator_blind (choices population k).
Proof.
  unfold choices. induction (Z.to_nat k) as [|n IH]; simpl.
  - apply blind_ret.
  - apply blind_bind; [apply blind_on_rng|intros u].
    apply blind_bind; [apply blind_lift|intros x].
    apply blind_bind; [exact IH|intros xs]. apply blind_ret.
Qed.

Lemma blind_repeat_loop {A} (n : nat) (body : A -> M A) (a : A) :
  (forall a, generator_blind (body a)) -> generator_blind (repeat_loop n body a).
Proof.
  intros Hb. revert a. induction n as [|n IH]; intros a; simpl.
  - apply blind_ret.
  - apply blind_bind; [apply Hb|exact IH].
Qed.

Lemma blind_for_each {A X} (xs : list X) (body : X -> A -> M A) (a : A) :
  (forall x a, generator_blind (body x a)) -> generator_blind (for_each xs body a).
Proof.
  intros Hb. revert a. induction xs as [|x xs IH]; intros a; simpl.
  - apply blind_ret.
  - apply blind_bind; [apply Hb|exact IH].
Qed.

Ltac blind_step :=
  match goal with
  | |- generator_blind (bind _ _) => apply blind_bind; [|intros]
  | |- generator_blind (if _ then _ else _) => apply blind_if
  | |- generator_blind (for_range _ _ _) => apply blind_repeat_loop; intros
  | |- generator_blind (for_each _ _ _) => apply blind_for_each; intros
  | |- generator_blind (match ?x with (_, _) => _ end) => destruct x
  | |- generator_blind ((match ?x with (_, _) => _ end) _) => destruct x
  | |- generator_blind (ret _) => apply blind_ret
  | |- generator_blind (raise _) => apply blind_raise
  | |- generator_blind (lift _) => apply blind_lift
  | |- generator_blind (randint _ _) => apply blind_randint
  | |- generator_blind random => apply blind_on_rng
  | |- generator_blind (choice _) => apply blind_choice
  | |- generator_blind (choices _ _) => apply blind_choices
  end.

Lemma blind_make_image (ascii_lines : list string) (params : RenderParams) :
  generator_blind (make_image ascii_lines params).
Proof.
  unfold make_image. destruct ascii_lines as [|l ls]; [apply blind_ret|].
  unfold draw_text_layer, noise_line, blur_shape, extra_shape, speckle.
  repeat blind_step.
Qed.

Lemma blind_generate (cfg : AppConfig) :
  generator_blind
    (code <- str_or (fixed_code cfg) (generate_code (code_length cfg)) ;;
     ascii_lines <- lift (_text_to_ascii_lines code
                            (tta_font_path (text_to_ascii cfg))
                            (tta_font_size (text_to_ascii cfg))
                            (tta_scale (text_to_ascii cfg))
                            (ascii_chars cfg)) ;;
     img <- make_image ascii_lines (render cfg) ;;
     ret (img, code)).
Proof.
  apply blind_bind.
  - unfold str_or, generate_code.
    destruct (fixed_code cfg) as [s|]; [destruct (str_falsy s)|]; repeat blind_step.
  - intros code. apply blind_bind; [apply blind_lift|intros ascii_lines].
    apply blind_bind; [apply blind_make_image|intros img]. apply blind_ret.
Qed.

(** X17. A call with [random_seed = s] returns the image and the code that
    the same call without a seed returns when the module-level generator is
    in the state of a fresh [Random(s)]; the unseeded call leaves the
    module-level generator where the seeded call leaves its own instance. *)
Theorem X17_seed_or_module_generator (cfg : AppConfig) (s : Z) (g : rng_state) :
  output_of (generate_image_from_cfg (with_seed cfg (Some s)) g)
  = output_of (generate_image_from_cfg (with_seed cfg None) (rng_seed s)).
Proof.
  unfold generate_image_from_cfg, run_with_rng. cbn [with_seed random_seed fixed_code
    code_length text_to_ascii ascii_chars render option_map].
  destruct (blind_generate cfg) as (f & Hf1 & Hf2).
  rewrite Hf1, Hf2. unfold on_instance, on_module.
  destruct (f (rng_seed s)) as [[a s']|e]; reflexivity.
Qed.

(** X18. The older entry point [generate_image] is the config-driven one
    at the configuration with the default palette, the default render
    parameters, a glyph font size of 40 and a scale of 2: the font path it
    is given goes to the glyph rasteriser only, not to the renderer. *)
Theorem X18_generate_image_legacy (text : option string) (length : Z)
    (seed : option Z) (path : option string) (g : rng_state) :
  generate_image text length seed path g
  = generate_image_from_cfg (legacy_cfg text length seed path) g /\
  font_path (render (legacy_cfg text length seed path)) = None.
Proof. split; reflexivity. Qed.
End EntryPoints.

(** ** [to_data_url] *)

Lemma sextet_in_range (i : Z) :
  0 <= i < 64 -> In i (map Z.of_nat (seq 0 64)).
Proof.
  intros Hi. apply in_map_iff. exists (Z.to_nat i). split; [lia|].
  apply in_seq. lia.
Qed.

Lemma b64_index_char (i : Z) :
  0 <= i < 64 -> b64_index (b64_char i) = Some i /\ Ascii.eqb (b64_char i) "=" = false.
Proof.
  intros Hi.
  assert (Hall : forallb (fun j => match b64_index (b64_char j) with
                                   | Some k => (k =? j) && negb (Ascii.eqb (b64_char j) "=")
                                   | None => false
                                   end) (map Z.of_nat (seq 0 64)) = true)
    by (vm_compute; reflexivity).
  rewrite forallb_forall in Hall. specialize (Hall i (sextet_in_range i Hi)).
  destruct (b64_index (b64_char i)) as [k|]; [|discriminate Hall].
  apply andb_true_iff in Hall as [Hk Hne]. apply Z.eqb_eq in Hk. subst k.
  split; [reflexivity|]. destruct (Ascii.eqb _ _); [discriminate Hne|reflexivity].
Qed.

Lemma byte_val_range (b : Byte.byte) : 0 <= byte_val b <= 255.
Proof. unfold byte_val. pose proof (Byte.to_N_bounded b). lia. Qed.

Lemma byte_of_val (b : Byte.byte) (v : Z) : v = byte_val b -> byte_of v = Some b.
Proof.
  intros ->. unfold byte_of, byte_val. rewrite N2Z.id. apply Byte.of_to_N.
Qed.

Lemma list_ind3 {A} (Q : list A -> Prop) :
  Q [] -> (forall a, Q [a]) -> (forall a b, Q [a; b]) ->
  (forall a b c rest, Q rest -> Q (a :: b :: c :: rest)) ->
  forall l, Q l.
Proof.
  intros H0 H1 H2 H3 l.
  assert (H : forall n l, (List.length l <= n)%nat -> Q l).
  { induction n as [|n IH]; intros l' Hl.
    - destruct l'; [exact H0|simpl in Hl; lia].
    - destruct l' as [|a [|b [|c rest]]]; auto.
      apply H3. apply IH. simpl in Hl. lia. }
  exact (H (List.length l) l (le_n _)).
Qed.

Ltac sextets a b c :=
  pose proof (byte_val_range a); pose proof (byte_val_range b);
  pose proof (byte_val_range c).

Lemma b64decode_encode (data : list Byte.byte) :
  b64decode (list_ascii_of_string (b64encode data)) = Some data.
Proof.
  induction data as [|a|a b|a b c rest IH] using list_ind3.
  - reflexivity.
  - pose proof (byte_val_range a) as Ha.
    cbn [b64encode list_ascii_of_string b64decode]. cbv zeta.
    destruct (b64_index_char (byte_val a / 4)) as [-> _];
      [Z.to_euclidean_division_equations; lia|].
    destruct (b64_index_char (byte_val a mod 4 * 16)) as [-> _];
      [Z.to_euclidean_division_equations; lia|].
    cbn [Ascii.eqb Bool.eqb andb].
    rewrite (byte_of_val a); [reflexivity|].
    Z.to_euclidean_division_equations; lia.
  - pose proof (byte_val_range a) as Ha. pose proof (byte_val_range b) as Hb.
    cbn [b64encode list_ascii_of_string b64decode]. cbv zeta.
    destruct (b64_index_char (byte_val a / 4)) as [-> _];
      [Z.to_euclidean_division_equations; lia|].
    destruct (b64_index_char (byte_val a mod 4 * 16 + byte_val b / 16)) as [-> _];
      [Z.to_euclidean_division_equations; lia|].
    destruct (b64_index_char (byte_val b mod 16 * 4)) as [-> ->];
      [Z.to_euclidean_division_equations; lia|].
    cbn [Ascii.eqb Bool.eqb andb].
    rewrite (byte_of_val a) by (Z.to_euclidean_division_equations; lia).
    rewrite (byte_of_val b) by (Z.to_euclidean_division_equations; lia).
    reflexivity.
  - pose proof (byte_val_range a) as Ha. pose proof (byte_val_range b) as Hb.
    pose proof (byte_val_range c) as Hc.
    cbn [b64encode list_ascii_of_string b64decode]. cbv zeta.
    destruct (b64_index_char (byte_val a / 4)) as [-> _];
      [Z.to_euclidean_division_equations; lia|].
    destruct (b64_index_char (byte_val a mod 4 * 16 + byte_val b / 16)) as [-> _];
      [Z.to_euclidean_division_equations; lia|].
    destruct (b64_index_char (byte_val b mod 16 * 4 + byte_val c / 64)) as [-> ->];
      [Z.to_euclidean_division_equations; lia|].
    destruct (b64_index_char (byte_val c mod 64)) as [-> ->];
      [Z.to_euclidean_division_equations; lia|].
    rewrite (byte_of_val a) by (Z.to_euclidean_division_equations; lia).
    rewrite (byte_of_val b) by (Z.to_euclidean_division_equations; lia).
    rewrite (byte_of_val c) by (Z.to_euclidean_division_equations; lia).
    rewrite IH. reflexivity.
Qed.

(** The standard test vectors of base64. *)
Example b64encode_vectors :
  b64encode [Byte.x4d; Byte.x61; Byte.x6e] = "TWFu" /\
  b64encode [Byte.x4d; Byte.x61] = "TWE=" /\
  b64encode [Byte.x4d] = "TQ==".
Proof. repeat split; vm_compute; reflexivity. Qed.

Lemma b64_char_text (i : Z) :
  In (b64_char i) (list_ascii_of_string b64_alphabet) \/ b64_char i = "="%char.
Proof.
  unfold b64_char. destruct (String.get _ b64_alphabet) as [c|] eqn:E.
  - left. exact (get_In _ _ _ E).
  - right. reflexivity.
Qed.

Lemma b64encode_text (data : list Byte.byte) : b64_text (b64encode data).
Proof.
  unfold b64_text.
  induction data as [|a|a b|a b c rest IH] using list_ind3;
    cbn [b64encode list_ascii_of_string]; cbv zeta.
  - constructor.
  - constructor; [apply b64_char_text|]. constructor; [apply b64_char_text|].
    constructor; [right; reflexivity|]. constructor; [right; reflexivity|].
    constructor.
  - constructor; [apply b64_char_text|]. constructor; [apply b64_char_text|].
    constructor; [apply b64_char_text|]. constructor; [right; reflexivity|].
    constructor.
  - constructor; [apply b64_char_text|]. constructor; [apply b64_char_text|].
    constructor; [apply b64_char_text|]. constructor; [apply b64_char_text|].
    exact IH.
Qed.

Lemma b64encode_length (data : list Byte.byte) :
  Z.of_nat (String.length (b64encode data))
  = 4 * ((Z.of_nat (List.length data) + 2) / 3).
Proof.
  induction data as [|a|a b|a b c rest IH] using list_ind3;
    try reflexivity.
  cbn [b64encode String.length List.length]. cbv zeta. cbn [String.length].
  rewrite !Nat2Z.inj_succ, IH. Z.to_euclidean_division_equations. lia.
Qed.

Lemma append_prefix_injective (p a b : string) : p ++ a = p ++ b -> a = b.
Proof.
  induction p as [|c p IH]; simpl; intros H; [exact H|].
  inversion H. auto.
Qed.

Lemma b64encode_injective (d1 d2 : list Byte.byte) :
  b64encode d1 = b64encode d2 -> d1 = d2.
Proof.
  intros H. pose proof (b64decode_encode d1) as H1.
  rewrite H, b64decode_encode in H1. congruence.
Qed.

Section DataUrl.
Context {P : PIL} {E : PngEncoder P}.

(** X19. A data URL is ["data:image/png;base64,"] followed by a payload of
    [4 * ceil(n / 3)] characters for a PNG of [n] bytes, every one of them
    a character of the base64 alphabet or the padding [=]. *)
Theorem X19_data_url_format (img : Image) :
  exists payload,
    to_data_url img = "data:image/png;base64," ++ payload /\
    payload = b64encode (png_bytes img) /\
    Z.of_nat (String.length payload)
    = 4 * ((Z.of_nat (List.length (png_bytes img)) + 2) / 3) /\
    Z.of_nat (String.length (to_data_url img))
    = 22 + 4 * ((Z.of_nat (List.length (png_bytes img)) + 2) / 3) /\
    b64_text payload.
Proof.
  exists (b64encode (png_bytes img)). split; [reflexivity|]. split; [reflexivity|].
  split; [apply b64encode_length|]. split; [|apply b64encode_text].
  unfold to_data_url. rewrite length_append, Nat2Z.inj_add, b64encode_length.
  reflexivity.
Qed.

(** X20. The data URL round-trips: decoding the payload as base64 gives
    back the PNG bytes, so two images have the same data URL only when
    their PNG encodings are the same bytes. *)
Theorem X20_data_url_round_trip (img : Image) :
  (exists payload,
     to_data_url img = "data:image/png;base64," ++ payload /\
     b64decode (list_ascii_of_string payload) = Some (png_bytes img)) /\
  (forall img', to_data_url img = to_data_url img' -> png_bytes img = png_bytes img').
Proof.
  split.
  - exists (b64encode (png_bytes img)). split; [reflexivity|apply b64decode_encode].
  - intros img' H. unfold to_data_url in H.
    apply append_prefix_injective in H. apply b64encode_injective. exact H.
Qed.
End DataUrl.

(** ** [generate_image_from_cfg] with a generated code *)

Lemma upper_or_digit_no_space (code : string) :
  Forall (fun c => upper_or_digit c = true) (list_ascii_of_string code) ->
  remove_spaces code = code.
Proof.
  induction code as [|c code IH]; intros H; simpl in *; [reflexivity|].
  inversion H as [|? ? Hc Hrest]; subst.
  destruct (Ascii.eqb c " ") eqn:E.
  - apply Ascii.eqb_eq in E. subst c. discriminate Hc.
  - rewrite IH by exact Hrest. reflexivity.
Qed.

Section GeneratedCode.
Context {P : PIL} {R : RandomCore}.

Lemma choices_loop_ensures {A} (population : list A) (k : nat) :
  ensures (choices_loop population k)
    (fun l => List.length l = k /\ Forall (fun x => In x population) l).
Proof.
  induction k as [|k IH]; simpl.
  - apply ensures_ret. split; [reflexivity|constructor].
  - eapply ensures_bind; [apply ensures_any|intros u _].
    eapply ensures_bind with (Q1 := fun x => In x population).
    { apply ensures_lift. intros a Ha. exact (list_getitem_In _ _ _ Ha). }
    intros x Hx. eapply ensures_bind; [exact IH|intros xs [Hlen Hall]].
    apply ensures_ret. split; [simpl; congruence|constructor; assumption].
Qed.

Lemma generate_code_ensures (length : Z) :
  ensures (generate_code length)
    (fun code => py_len code = Z.max 0 length /\
                 Forall (fun c => upper_or_digit c = true) (list_ascii_of_string code)).
Proof.
  unfold generate_code, choices.
  eapply ensures_bind; [apply choices_loop_ensures|intros l [Hlen Hall]].
  apply ensures_ret. split.
  - unfold py_len. rewrite length_string_of_list_ascii, Hlen. lia.
  - rewrite list_ascii_of_string_of_list_ascii.
    pose proof alphabet_upper_or_digit as Hup. rewrite Forall_forall in Hup.
    eapply Forall_impl; [|exact Hall]. intros c Hc. apply Hup. exact Hc.
Qed.

Lemma generate_image_from_cfg_generated (cfg : AppConfig) (g : rng_state) :
  no_fixed_code cfg ->
  generate_image_from_cfg cfg g
  = run_with_rng (random_seed cfg)
      (code <- generate_code (code_length cfg) ;;
       ascii_lines <- lift (_text_to_ascii_lines code
                              (tta_font_path (text_to_ascii cfg))
                              (tta_font_size (text_to_ascii cfg))
                              (tta_scale (text_to_ascii cfg))
                              (ascii_chars cfg)) ;;
       img <- make_image ascii_lines (render cfg) ;;
       ret (img, code)) g.
Proof.
  intros [H|H]; unfold generate_image_from_cfg; rewrite H; reflexivity.
Qed.

(** X21. Without a fixed code, the code a successful call returns has
    [max(0, code_length)] characters, all uppercase letters or digits,
    whatever the generator draws. *)
Theorem X21_generated_code (cfg : AppConfig) (g g' : rng_state) (img : Image)
    (code : string) :
  no_fixed_code cfg ->
  generate_image_from_cfg cfg g = Ok ((img, code), g') ->
  py_len code = Z.max 0 (code_length cfg) /\
  Forall (fun c => upper_or_digit c = true) (list_ascii_of_string code).
Proof.
  intros Hno Hrun. rewrite (generate_image_from_cfg_generated cfg g Hno) in Hrun.
  refine (run_with_rng_ensures (random_seed cfg) _
            (fun r => py_len (snd r) = Z.max 0 (code_length cfg) /\
                      Forall (fun c => upper_or_digit c = true)
                        (list_ascii_of_string (snd r)))
            _ g (img, code) g' Hrun).
  eapply ensures_bind; [apply generate_code_ensures|intros c Hc].
  eapply ensures_bind; [apply ensures_any|intros ascii_lines _].
  eapply ensures_bind; [apply ensures_any|intros im _].
  apply ensures_ret. exact Hc.
Qed.

(** X22. Without a fixed code and with a code length of 0 or less, the
    call returns the empty code and the blank 2 by 2 image, whatever the
    seed, the palette and the parameters, and leaves the module-level
    generator as it was. *)
Theorem X22_empty_generated_code (cfg : AppConfig) (g : rng_state) :
  no_fixed_code cfg -> code_length cfg <= 0 ->
  generate_image_from_cfg cfg g
  = Ok ((Image_new Mode_RGB 2 2 (CName "white"), ""), g).
Proof.
  intros Hno Hlen. rewrite (generate_image_from_cfg_generated cfg g Hno).
  unfold run_with_rng, bind at 1.
  rewrite generate_code_nonpositive by exact Hlen. reflexivity.
Qed.

Context {PL : PILLaws P} {RL : RandomLaws R}.

(** X23. Without a fixed code, a call with a code length [n] of at least 1
    returns when the glyph font size is not negative, the scale is not
    zero, the palette is not empty, the cell sizes and the jitter are not
    negative and the number of speckles is defined; the code has [n]
    characters and the image is [(font_size // 2 + spacing) * (n * side +
    (n - 1) * 3)] wide and [(font_size + 2) * side] high, with [side =
    max(1, 2 * glyph font size // scale)]. A generated code has no space, so
    it never meets the failure on codes of spaces only. *)
Theorem X23_generated_image (cfg : AppConfig) (g : rng_state) :
  no_fixed_code cfg ->
  1 <= code_length cfg ->
  0 <= tta_font_size (text_to_ascii cfg) ->
  tta_scale (text_to_ascii cfg) <> 0 ->
  1 <= py_len (ascii_chars cfg) ->
  0 <= font_size (render cfg) / 2 + spacing (render cfg) ->
  0 <= font_size (render cfg) + 2 ->
  0 <= jitter (render cfg) ->
  let side := Z.max 1 (tta_font_size (text_to_ascii cfg) * 2
                       / tta_scale (text_to_ascii cfg)) in
  let width := (font_size (render cfg) / 2 + spacing (render cfg))
               * (code_length cfg * side + (code_length cfg - 1) * 3) in
  let height := (font_size (render cfg) + 2) * side in
  is_ok (speckle_count (width * height) (pixel_noise_density (render cfg))) = true ->
  exists img code g',
    generate_image_from_cfg cfg g = Ok ((img, code), g') /\
    py_len code = code_length cfg /\
    im_width img = width /\ im_height img = height.
Proof.
  intros Hno Hlen Hfs Hsc Hpal Hcw Hch Hj side width height Hcount.
  rewrite (generate_image_from_cfg_generated cfg g Hno).
  assert (Hret : returns
                   (code <- generate_code (code_length cfg) ;;
                    ascii_lines <- lift (_text_to_ascii_lines code
                                           (tta_font_path (text_to_ascii cfg))
                                           (tta_font_size (text_to_ascii cfg))
                                           (tta_scale (text_to_ascii cfg))
                                           (ascii_chars cfg)) ;;
                    img <- make_image ascii_lines (render cfg) ;;
                    ret (img, code))
                   (fun r => py_len (snd r) = code_length cfg /\
                             im_size (fst r) = (width, height))).
  { eapply returns_bind
      with (Q1 := fun code => py_len code = code_length cfg /\ remove_spaces code = code).
    - intros st. destruct (generate_code_ok (code_length cfg) st)
        as (code & st' & Hc & Hl & Hall).
      exists code, st'. split; [exact Hc|]. split; [unfold py_len; lia|].
      apply upper_or_digit_no_space.
      pose proof alphabet_upper_or_digit as Hup. rewrite Forall_forall in Hup.
      eapply Forall_impl; [|exact Hall]. intros c Hc'. apply Hup. exact Hc'.
    - intros code [Hl Hsp].
      assert (Hne : remove_spaces code <> "").
      { rewrite Hsp. intros ->. unfold py_len in Hl. simpl in Hl. lia. }
      pose proof (render_code_returns code (text_to_ascii cfg) (ascii_chars cfg)
                    (render cfg) Hne Hfs Hsc Hpal Hcw Hch Hj) as Hr.
      cbv zeta in Hr. rewrite Hsp, Hl in Hr. unfold line_length, glyph_side in Hr.
      specialize (Hr Hcount).
      intros st. destruct (Hr st) as (r & st' & Hrun & Hcode & Hsz).
      exists r, st'. split; [exact Hrun|]. split; [rewrite Hcode; exact Hl|exact Hsz]. }
  destruct (run_with_rng_returns (random_seed cfg) _ _ g Hret)
    as ([img code] & g' & Hrun & Hl & Hsz).
  exists img, code, g'. split; [exact Hrun|]. split; [exact Hl|].
  cbn [fst] in Hsz. unfold im_size in Hsz. inversion Hsz. split; reflexivity.
Qed.
End GeneratedCode.

Lemma X21_generated_code_witness :
  no_fixed_code (Ref.small_cfg (Some 42) (Some "") 6) /\
  forall g' img code,
    @generate_image_from_cfg Ref.pil Ref.lcg (Ref.small_cfg (Some 42) (Some "") 6) 7
    = Ok ((img, code), g') ->
    py_len code = Z.max 0 6 /\
    Forall (fun c => upper_or_digit c = true) (list_ascii_of_string code).
Proof.
  assert (Hno : no_fixed_code (Ref.small_cfg (Some 42) (Some "") 6))
    by (right; reflexivity).
  split; [exact Hno|]. intros g' img code Hrun.
  exact (@X21_generated_code Ref.pil Ref.lcg _ 7 g' img code Hno Hrun).
Defined.

Lemma X22_empty_generated_code_witness :
  no_fixed_code (Ref.small_cfg None None 0) /\ 0 <= 0 /\
  @generate_image_from_cfg Ref.pil Ref.lcg (Ref.small_cfg None None 0) 7
  = Ok ((@Image_new Ref.pil Mode_RGB 2 2 (CName "white"), ""), 7).
Proof.
  assert (Hno : no_fixed_code (Ref.small_cfg None None 0)) by (left; reflexivity).
  split; [exact Hno|]. split; [lia|].
  apply (@X22_empty_generated_code Ref.pil Ref.lcg _ 7 Hno). simpl. lia.
Defined.

Lemma X23_generated_image_witness :
  no_fixed_code default_AppConfig /\
  forall g, exists img code g',
    @generate_image_from_cfg Ref.pil Ref.lcg default_AppConfig g
    = Ok ((img, code), g') /\
    py_len code = 6 /\
    @im_width Ref.pil img = 1275 /\ @im_height Ref.pil img = 440.
Proof.
  assert (Hno : no_fixed_code default_AppConfig) by (left; reflexivity).
  split; [exact Hno|]. intros g.
  pose proof (@X23_generated_image Ref.pil Ref.lcg rec_pil_laws lcg_laws
                default_AppConfig g Hno) as H.
  cbv zeta in H. apply H.
  - vm_compute. discriminate.
  - vm_compute. discriminate.
  - discriminate.
  - vm_compute. discriminate.
  - vm_compute. discriminate.
  - vm_compute. discriminate.
  - vm_compute. discriminate.
  - vm_compute. reflexivity.
Defined.
